(** * Expense tracker: the entry tool (input.py) and the report tool
    (visualize.py)

    A shallow embedding of the validation, storage, dialogue and
    aggregation code of the two programs, followed by the properties of
    the specification that were checked against it and by further
    properties of the code.

    Conventions of the embedding:
    - a Python [str] is a list of characters; characters are the code points
      U+0000..U+00FF (Rocq's [ascii]), so the two CJK spellings of "today"
      accepted by [normalize_date] are outside the modelled inputs;
    - an exception is a value of [exn]; code that may raise returns a
      [result];
    - the file system is a map from paths to the decoded text of regular
      files, threaded explicitly through the functions that touch it;
    - a Python [float] is a binary64 number ([PrimFloat.float]). *)

From Stdlib Require Import List String Ascii Bool ZArith NArith Lia.
From Stdlib Require Import DecimalString Floats Permutation Sorted.
Import ListNotations.

Set Warnings "-inexact-float".

Local Open Scope Z_scope.

(* ================================================================= *)
(** * Part I: definitions *)
(* ================================================================= *)

(** ** Exceptions and results *)

(** The message of a [ValueError]; the texts are those of the sources (the
    entry tool's are in Chinese and are named here by their meaning). *)
Inductive message : Type :=
| DateBlank           (* normalize_date: the date must not be blank *)
| DateFormat          (* normalize_date: wrong date format, use YYYY-MM-DD *)
| AmountBlank         (* normalize_amount: the amount must not be blank *)
| AmountFormat        (* normalize_amount: wrong amount format, enter a number *)
| AmountNotPositive   (* normalize_amount: the amount must be > 0 *)
| CategoryBlank       (* normalize_category: the category must not be blank *)
| AmountEmpty         (* parse_amount: "amount is empty" *)
| FloatSyntax         (* float(): "could not convert string to float" *)
| NoHeaderRow         (* read_csv_totals: "CSV has no header row." *)
| MissingColumns      (* read_csv_totals: "CSV must contain 'category' and 'amount'." *)
| NoValidData.        (* read_csv_totals: "No valid expense data found." *)

Inductive exn : Type :=
| ValueError (m : message)
| InvalidOperation          (* decimal.InvalidOperation (an ArithmeticError) *)
| Overflow                  (* decimal.Overflow *)
| FileNotFoundError
| CsvError                  (* _csv.Error: field larger than field limit *)
| ZeroDivisionError.

Inductive result (A : Type) : Type :=
| Ok (a : A)
| Raise (e : exn).

Arguments Ok {A} a.
Arguments Raise {A} e.

Definition bind {A B : Type} (r : result A) (k : A -> result B) : result B :=
  match r with
  | Ok a => k a
  | Raise e => Raise e
  end.

Notation "x <- r ;; k" := (bind r (fun x => k))
  (at level 61, r at next level, right associativity).

(** ** Python strings *)

Definition str : Type := list ascii.

(** A string literal. *)
Definition py (s : string) : str := list_ascii_of_string s.

Definition ord (c : ascii) : N := N_of_ascii c.

Fixpoint str_eqb (a b : str) : bool :=
  match a, b with
  | [], [] => true
  | x :: a', y :: b' => Ascii.eqb x y && str_eqb a' b'
  | _, _ => false
  end.

(** [x in l] for a list of strings. *)
Definition str_in (x : str) (l : list str) : bool := existsb (str_eqb x) l.

(** [c in s] for a one-character [c]. *)
Definition char_in (c : ascii) (s : str) : bool := existsb (Ascii.eqb c) s.

(** [str.isspace] on one character: the white space of U+0000..U+00FF is
    TAB..CR, FS..US, SPACE, NEL (U+0085) and NBSP (U+00A0). *)
Definition isspace (c : ascii) : bool :=
  let n := ord c in
  ((9 <=? n) && (n <=? 13) || (28 <=? n) && (n <=? 32) || (n =? 133) || (n =? 160))%N.

Fixpoint lstrip (s : str) : str :=
  match s with
  | c :: t => if isspace c then lstrip t else s
  | [] => []
  end.

Definition rstrip (s : str) : str := rev (lstrip (rev s)).

(** [s.strip()] *)
Definition strip (s : str) : str := rstrip (lstrip s).

Fixpoint lstrip_chars (chars : str) (s : str) : str :=
  match s with
  | c :: t => if char_in c chars then lstrip_chars chars t else s
  | [] => []
  end.

(** [s.rstrip(chars)] *)
Definition rstrip_chars (chars : str) (s : str) : str :=
  rev (lstrip_chars chars (rev s)).

(** [s.replace(old, new)] for a one-character [old]. *)
Definition replace (old : ascii) (new : str) (s : str) : str :=
  flat_map (fun c => if Ascii.eqb c old then new else [c]) s.

(** [str.lower] on one character: A..Z and the capital letters
    U+00C0..U+00DE (the multiplication sign U+00D7 apart) move up by 32. *)
Definition lower_char (c : ascii) : ascii :=
  let n := ord c in
  if ((65 <=? n) && (n <=? 90) || (192 <=? n) && (n <=? 222) && negb (n =? 215))%N
  then ascii_of_N (n + 32) else c.

(** [s.lower()] *)
Definition lower (s : str) : str := map lower_char s.

Definition is_digit (c : ascii) : bool := ((48 <=? ord c) && (ord c <=? 57))%N.

Definition digit_val (c : ascii) : N := (ord c - 48)%N.

(** The longest prefix of digits of [s], and what follows it. *)
Fixpoint span_digits (s : str) : str * str :=
  match s with
  | c :: t =>
      if is_digit c then let '(ds, r) := span_digits t in (c :: ds, r) else ([], s)
  | [] => ([], [])
  end.

(** [int(ds)] for a string of digits. *)
Definition N_of_digits (ds : str) : N :=
  fold_left (fun a c => (10 * a + digit_val c)%N) ds 0%N.

(** [str(n)] for a natural number. *)
Definition N_to_str (n : N) : str :=
  list_ascii_of_string (NilZero.string_of_uint (N.to_uint n)).

(** [c * n]: the character [c] repeated [n] times (nothing when [n <= 0]). *)
Definition repeat_char (c : ascii) (n : Z) : str := repeat c (Z.to_nat n).

(** [s[:n]] and [s[n:]] for [n >= 0]. *)
Definition take (n : Z) (s : str) : str := firstn (Z.to_nat n) s.
Definition drop (n : Z) (s : str) : str := skipn (Z.to_nat n) s.

Definition len (s : str) : Z := Z.of_nat (List.length s).

(** ** decimal.Decimal, as far as [normalize_amount] uses it

    Construction from a string is exact; [normalize] rounds to the default
    context: 28 digits, half-even, exponents within +-999999, with the
    traps of the default context (InvalidOperation, DivisionByZero,
    Overflow). *)

Module PyDecimal.

Inductive t : Type :=
| Finite (sign : bool) (coeff : N) (exp : Z)      (* (-1)^sign * coeff * 10^exp *)
| Inf (sign : bool)
| NaN (sign : bool) (signaling : bool) (payload : N).

Definition prec : Z := 28.
Definition Emax : Z := 999999.
Definition Emin : Z := -999999.
Definition Etiny : Z := Emin - prec + 1.
Definition Etop : Z := Emax - prec + 1.

Definition ndigits (c : N) : Z := len (N_to_str c).

Definition ascii_lower (s : str) : str :=
  map (fun c => if ((65 <=? ord c) && (ord c <=? 90))%N
                then ascii_of_N (ord c + 32) else c) s.

(** The exponent part of a numeric string: nothing, or [E], an optional
    sign and at least one digit, up to the end of the string. *)
Definition parse_exponent (s : str) : option Z :=
  match s with
  | [] => Some 0
  | e :: r =>
      if Ascii.eqb e "e" || Ascii.eqb e "E" then
        let '(neg, r1) :=
          match r with
          | "-"%char :: r' => (true, r')
          | "+"%char :: r' => (false, r')
          | _ => (false, r)
          end in
        match span_digits r1 with
        | ((_ :: _) as ds, []) =>
            let v := Z.of_N (N_of_digits ds) in Some (if neg then - v else v)
        | _ => None
        end
      else None
  end.

(** Infinity and NaN, matched without regard to case. *)
Definition parse_special (sign : bool) (s : str) : option t :=
  let l := ascii_lower s in
  if str_eqb l (py "inf") || str_eqb l (py "infinity") then Some (Inf sign)
  else
    let '(signaling, r) :=
      match l with
      | "s"%char :: r' => (true, r')
      | _ => (false, l)
      end in
    match r with
    | "n"%char :: "a"%char :: "n"%char :: diag =>
        match span_digits diag with
        | (ds, []) => Some (NaN sign signaling (N_of_digits ds))
        | _ => None
        end
    | _ => None
    end.

(** [Decimal(value)] for a string; [None] stands for the InvalidOperation
    the constructor raises on a string it cannot read. The constructor
    strips white space and removes underscores itself. *)
Definition of_str (value : str) : option t :=
  let s := replace "_" [] (strip value) in
  let '(sign, s1) :=
    match s with
    | "-"%char :: r => (true, r)
    | "+"%char :: r => (false, r)
    | _ => (false, s)
    end in
  let '(intpart, s2) := span_digits s1 in
  let '(fracpart, s3) :=
    match s2 with
    | "."%char :: r => span_digits r
    | _ => ([], s2)
    end in
  match intpart ++ fracpart with
  | [] =>
      match intpart, s2 with
      | [], "."%char :: _ => None
      | _, _ => parse_special sign s1
      end
  | _ :: _ =>
      match parse_exponent s3 with
      | Some e => Some (Finite sign (N_of_digits (intpart ++ fracpart)) (e - len fracpart))
      | None => None
      end
  end.

(** [d <= 0]: an ordering comparison with a NaN signals InvalidOperation,
    which the default context traps. *)
Definition le_zero (d : t) : result bool :=
  match d with
  | Finite sign coeff _ => Ok (sign || (coeff =? 0)%N)
  | Inf sign => Ok sign
  | NaN _ _ _ => Raise InvalidOperation
  end.

(** [Decimal._fix]: round to the context. *)
Definition fix_ (d : t) : result t :=
  match d with
  | Finite sign 0%N e => Ok (Finite sign 0 (Z.min (Z.max e Etiny) Emax))
  | Finite sign c e =>
      let exp_min := ndigits c + e - prec in
      if Etop <? exp_min then Raise Overflow
      else
        let exp_min := Z.max exp_min Etiny in
        if e <? exp_min then
          let digits := ndigits c + e - exp_min in
          (* fewer than zero digits left: round as 1E(exp_min-1) would *)
          let '(c1, digits) := if digits <? 0 then (1%N, 0) else (c, digits) in
          let k := Z.to_N (ndigits c1 - digits) in
          let q := (c1 / 10 ^ k)%N in
          let r := (c1 mod 10 ^ k)%N in
          let half := (5 * 10 ^ (k - 1))%N in
          let up := (half <? r)%N || ((r =? half)%N && N.odd q) in
          let '(coeff, exp_min) :=
            if up then
              if prec <? ndigits (q + 1) then (((q + 1) / 10)%N, exp_min + 1)
              else ((q + 1)%N, exp_min)
            else (q, exp_min) in
          if Etop <? exp_min then Raise Overflow
          else Ok (Finite sign coeff exp_min)
        else Ok d
  | _ => Ok d
  end.

(** The loop of [normalize] that drops trailing zeros of the coefficient. *)
Fixpoint strip_zeros (fuel : nat) (c : N) (e : Z) : N * Z :=
  match fuel with
  | O => (c, e)
  | S fuel' =>
      if ((c mod 10 =? 0)%N && (e <? Emax)) then strip_zeros fuel' (c / 10)%N (e + 1)
      else (c, e)
  end.

(** [d.normalize()] *)
Definition normalize (d : t) : result t :=
  match d with
  | NaN sign true payload => Raise InvalidOperation
  | NaN sign false payload => Ok (NaN sign false (payload mod 10 ^ 28)%N)
  | _ =>
      dup <- fix_ d ;;
      match dup with
      | Finite sign 0%N _ => Ok (Finite sign 0 0)
      | Finite sign c e =>
          let '(c', e') := strip_zeros (List.length (N_to_str c)) c e in
          Ok (Finite sign c' e')
      | _ => Ok dup
      end
  end.

Definition sign_str (sign : bool) : str := if sign then py "-" else [].

Definition special_str (d : t) : str :=
  match d with
  | Inf _ => py "Infinity"
  | NaN _ signaling payload =>
      (if signaling then py "sNaN" else py "NaN")
        ++ (if (payload =? 0)%N then [] else N_to_str payload)
  | Finite _ _ _ => []
  end.

(** [format(d, "f")] *)
Definition format_f (d : t) : str :=
  match d with
  | Finite sign c e =>
      let int := N_to_str c in
      let dotplace := e + len int in
      let '(intpart, fracpart) :=
        if dotplace <? 0 then (py "0", repeat_char "0" (- dotplace) ++ int)
        else if len int <? dotplace then (int ++ repeat_char "0" (dotplace - len int), [])
        else ((match take dotplace int with [] => py "0" | i => i end), drop dotplace int) in
      sign_str sign ++ intpart
        ++ (match fracpart with [] => [] | _ => "."%char :: fracpart end)
  | Inf sign => sign_str sign ++ special_str d
  | NaN sign _ _ => sign_str sign ++ special_str d
  end.

(** [str(d)]: scientific notation when the exponent is positive or the
    number is smaller than 1e-6. *)
Definition to_str (d : t) : str :=
  match d with
  | Finite sign c e =>
      let int := N_to_str c in
      let leftdigits := e + len int in
      let dotplace := if (e <=? 0) && (-6 <? leftdigits) then leftdigits else 1 in
      let '(intpart, fracpart) :=
        if dotplace <=? 0 then (py "0", "."%char :: repeat_char "0" (- dotplace) ++ int)
        else if len int <=? dotplace then (int ++ repeat_char "0" (dotplace - len int), [])
        else (take dotplace int, "."%char :: drop dotplace int) in
      let exp :=
        if leftdigits =? dotplace then []
        else "E"%char
               :: (if 0 <=? leftdigits - dotplace then py "+" else py "-")
               ++ N_to_str (Z.abs_N (leftdigits - dotplace)) in
      sign_str sign ++ intpart ++ fracpart ++ exp
  | Inf sign => sign_str sign ++ special_str d
  | NaN sign _ _ => sign_str sign ++ special_str d
  end.

(** Two decimals denote the same number. *)
Definition same_value (a b : t) : bool :=
  match a, b with
  | Finite s1 c1 e1, Finite s2 c2 e2 =>
      let m := Z.min e1 e2 in
      let v1 := (Z.of_N c1 * 10 ^ (e1 - m))%Z in
      let v2 := (Z.of_N c2 * 10 ^ (e2 - m))%Z in
      ((if s1 then - v1 else v1) =? (if s2 then - v2 else v2))%Z
  | Inf s1, Inf s2 => Bool.eqb s1 s2
  | _, _ => false
  end.

End PyDecimal.

(** ** datetime, as far as [normalize_date] uses it *)

Module PyDatetime.

(** A [datetime] read with the format [%Y-%m-%d]: the time of day is
    midnight and plays no part. *)
Record t : Type := mk { year : Z; month : Z; day : Z }.

Definition is_leap (y : Z) : bool :=
  (y mod 4 =? 0) && (negb (y mod 100 =? 0) || (y mod 400 =? 0)).

Definition days_in_month (y m : Z) : Z :=
  if (m =? 2) then (if is_leap y then 29 else 28)
  else if (m =? 4) || (m =? 6) || (m =? 9) || (m =? 11) then 30
  else 31.

(** The check of the [datetime] constructor: MINYEAR = 1, MAXYEAR = 9999. *)
Definition valid (y m d : Z) : bool :=
  (1 <=? y) && (y <=? 9999) && (1 <=? m) && (m <=? 12)
  && (1 <=? d) && (d <=? days_in_month y m).

Definition in_range (lo hi : ascii) (c : ascii) : bool :=
  ((ord lo <=? ord c) && (ord c <=? ord hi))%N.

Definition dv (c : ascii) : Z := Z.of_N (digit_val c).

(** The first alternative that succeeds, in order. *)
Fixpoint first_some {A : Type} (alts : list (option A)) : option A :=
  match alts with
  | [] => None
  | Some a :: _ => Some a
  | None :: rest => first_some rest
  end.

(** The directive [%d]: 3[0-1] | [1-2]\d | 0[1-9] | [1-9] | space [1-9];
    it is the end of the pattern, so the first alternative that matches
    is the match. The result is the day and the unconverted rest. *)
Definition parse_day (s : str) : option (Z * str) :=
  first_some
    [ match s with
      | a :: b :: r =>
          if Ascii.eqb a "3" && in_range "0" "1" b then Some (30 + dv b, r) else None
      | _ => None
      end;
      match s with
      | a :: b :: r =>
          if in_range "1" "2" a && is_digit b then Some (10 * dv a + dv b, r) else None
      | _ => None
      end;
      match s with
      | a :: b :: r =>
          if Ascii.eqb a "0" && in_range "1" "9" b then Some (dv b, r) else None
      | _ => None
      end;
      match s with
      | a :: r => if in_range "1" "9" a then Some (dv a, r) else None
      | _ => None
      end;
      match s with
      | a :: b :: r =>
          if Ascii.eqb a " " && in_range "1" "9" b then Some (dv b, r) else None
      | _ => None
      end ].

(** The rest of the pattern after the month: a hyphen, the day, and no
    unconverted data. *)
Definition after_month (y m : Z) (s : str) : option t :=
  match s with
  | "-"%char :: r =>
      match parse_day r with
      | Some (d, []) => if valid y m d then Some (mk y m d) else None
      | _ => None
      end
  | _ => None
  end.

(** The directive [%m]: 1[0-2] | 0[1-9] | [1-9], each alternative tried
    with the rest of the pattern. *)
Definition parse_month (y : Z) (s : str) : option t :=
  first_some
    [ match s with
      | a :: b :: r =>
          if Ascii.eqb a "1" && in_range "0" "2" b then after_month y (10 + dv b) r else None
      | _ => None
      end;
      match s with
      | a :: b :: r =>
          if Ascii.eqb a "0" && in_range "1" "9" b then after_month y (dv b) r else None
      | _ => None
      end;
      match s with
      | a :: r => if in_range "1" "9" a then after_month y (dv a) r else None
      | _ => None
      end ].

(** [datetime.strptime(s, "%Y-%m-%d")]; [None] stands for its ValueError.
    [%Y] is four digits. *)
Definition strptime (s : str) : option t :=
  match s with
  | y1 :: y2 :: y3 :: y4 :: "-"%char :: r =>
      if forallb is_digit [y1; y2; y3; y4]
      then parse_month (Z.of_N (N_of_digits [y1; y2; y3; y4])) r
      else None
  | _ => None
  end.

Definition digit_char (n : Z) : ascii := ascii_of_N (48 + Z.to_N n).

Definition pad2 (n : Z) : str := [digit_char (n / 10); digit_char (n mod 10)].

Definition pad4 (n : Z) : str :=
  [digit_char (n / 1000); digit_char (n / 100 mod 10);
   digit_char (n / 10 mod 10); digit_char (n mod 10)].

(** [dt.strftime("%Y-%m-%d")], with the year in four digits as the
    library documents [%Y] (0001 .. 9999). The C library behind
    [strftime] decides the padding of years below 1000: glibc, through
    CPython 3.12, leaves the leading zeros out. *)
Definition strftime (dt : t) : str :=
  pad4 (year dt) ++ "-"%char :: pad2 (month dt) ++ "-"%char :: pad2 (day dt).

End PyDatetime.

(** ** input.py: field normalizers *)

(** [normalize_amount(s)] *)
Definition normalize_amount (s : str) : result str :=
  let s := strip s in
  match s with
  | [] => Raise (ValueError AmountBlank)
  | _ :: _ =>
      (* allow comma separators *)
      let s2 := replace "," [] s in
      match PyDecimal.of_str s2 with
      | None => Raise (ValueError AmountFormat)
      | Some d =>
          nonpos <- PyDecimal.le_zero d ;;
          if (nonpos : bool) then Raise (ValueError AmountNotPositive)
          else
            n <- PyDecimal.normalize d ;;
            if char_in "." (PyDecimal.format_f n)
            then Ok (rstrip_chars (py ".") (rstrip_chars (py "0") (PyDecimal.format_f n)))
            else Ok (PyDecimal.to_str d)
      end
  end.

(** [normalize_category(s)] *)
Definition normalize_category (s : str) : result str :=
  match strip s with
  | [] => Raise (ValueError CategoryBlank)
  | s' => Ok s'
  end.


(** [normalize_date(s)]; [now] is the reading of the clock
    ([datetime.now()]). The membership test for the two CJK spellings of
    "today" is false on every modelled string and is left out. *)
Definition normalize_date (now : PyDatetime.t) (s : str) : result str :=
  let s := strip s in
  match s with
  | [] => Raise (ValueError DateBlank)
  | _ :: _ =>
      if str_in (lower s) [py "today"; py "t"] then Ok (PyDatetime.strftime now)
      else
        let s2 := replace "/" (py "-") s in
        match PyDatetime.strptime s2 with
        | None => Raise (ValueError DateFormat)
        | Some dt => Ok (PyDatetime.strftime dt)
        end
  end.

(** ** The csv module, as far as the two programs use it

    The dialect is the default one ("excel"): delimiter [,], quote
    character U+0022, doubled quotes, no escape character, no skipping of
    initial spaces, line terminator CR LF, minimal quoting, not strict. *)

Module PyCsv.

Definition CR : ascii := "013"%char.
Definition LF : ascii := "010"%char.
Definition QUOTE : ascii := "034"%char.
Definition DELIMITER : ascii := ","%char.

Definition lineterminator : str := [CR; LF].

(** [csv.field_size_limit()] *)
Definition field_limit : Z := 131072.

(** *** The writer *)

(** A character that makes the writer quote the field. *)
Definition special (c : ascii) : bool :=
  Ascii.eqb c DELIMITER || Ascii.eqb c QUOTE || Ascii.eqb c CR || Ascii.eqb c LF.

Definition needs_quote (f : str) : bool := existsb special f.

Definition double_quotes (f : str) : str :=
  flat_map (fun c => if Ascii.eqb c QUOTE then [QUOTE; QUOTE] else [c]) f.

Definition quote_field (f : str) : str :=
  if needs_quote f then QUOTE :: double_quotes f ++ [QUOTE] else f.

Fixpoint join_fields (fields : list str) : str :=
  match fields with
  | [] => []
  | [f] => quote_field f
  | f :: rest => quote_field f ++ DELIMITER :: join_fields rest
  end.

(** The text that [writer.writerow(fields)] writes; a record that is one
    empty field is written as two quotes. *)
Definition writerow (fields : list str) : str :=
  match fields, join_fields fields with
  | _ :: _, [] => [QUOTE; QUOTE] ++ lineterminator
  | _, rec => rec ++ lineterminator
  end.

(** *** The reader *)

Inductive state : Type :=
| START_RECORD
| START_FIELD
| IN_FIELD
| IN_QUOTED_FIELD
| QUOTE_IN_QUOTED_FIELD
| EAT_CRNL.

(** The parser's record under construction: the fields saved so far and
    the characters of the field being read. *)
Record reader : Type := mk { st : state; fields : list str; field : str }.

Definition parse_reset : reader := mk START_RECORD [] [].

Definition set_state (r : reader) (s : state) : reader := mk s (fields r) (field r).

Definition parse_save_field (r : reader) : reader :=
  mk (st r) (fields r ++ [field r]) [].

Definition parse_add_char (r : reader) (c : ascii) : result reader :=
  if field_limit <=? len (field r) then Raise CsvError
  else Ok (mk (st r) (fields r) (field r ++ [c])).

Definition is_newline (c : ascii) : bool := Ascii.eqb c LF || Ascii.eqb c CR.

(** The case START_FIELD of [parse_process_char]; START_RECORD falls
    through to it on an ordinary character. *)
Definition start_field (r : reader) (c : option ascii) : result reader :=
  match c with
  | None => Ok (set_state (parse_save_field r) START_RECORD)
  | Some ch =>
      if is_newline ch then Ok (set_state (parse_save_field r) EAT_CRNL)
      else if Ascii.eqb ch QUOTE then Ok (set_state r IN_QUOTED_FIELD)
      else if Ascii.eqb ch DELIMITER then Ok (set_state (parse_save_field r) START_FIELD)
      else
        r' <- parse_add_char r ch ;;
        Ok (set_state r' IN_FIELD)
  end.

(** [parse_process_char]: one step of the parser; [None] is the end of a
    line. The states of the escape character are left out: the dialect
    has none. *)
Definition process_char (r : reader) (c : option ascii) : result reader :=
  match st r with
  | START_RECORD =>
      match c with
      | None => Ok r
      | Some ch =>
          if is_newline ch then Ok (set_state r EAT_CRNL)
          else start_field (set_state r START_FIELD) c
      end
  | START_FIELD => start_field r c
  | IN_FIELD =>
      match c with
      | None => Ok (set_state (parse_save_field r) START_RECORD)
      | Some ch =>
          if is_newline ch then Ok (set_state (parse_save_field r) EAT_CRNL)
          else if Ascii.eqb ch DELIMITER then Ok (set_state (parse_save_field r) START_FIELD)
          else parse_add_char r ch
      end
  | IN_QUOTED_FIELD =>
      match c with
      | None => Ok r
      | Some ch =>
          if Ascii.eqb ch QUOTE then Ok (set_state r QUOTE_IN_QUOTED_FIELD)
          else parse_add_char r ch
      end
  | QUOTE_IN_QUOTED_FIELD =>
      match c with
      | None => Ok (set_state (parse_save_field r) START_RECORD)
      | Some ch =>
          if Ascii.eqb ch QUOTE then
            r' <- parse_add_char r ch ;;
            Ok (set_state r' IN_QUOTED_FIELD)
          else if Ascii.eqb ch DELIMITER then Ok (set_state (parse_save_field r) START_FIELD)
          else if is_newline ch then Ok (set_state (parse_save_field r) EAT_CRNL)
          else
            r' <- parse_add_char r ch ;;
            Ok (set_state r' IN_FIELD)
      end
  | EAT_CRNL =>
      match c with
      | None => Ok (set_state r START_RECORD)
      | Some ch => if is_newline ch then Ok r else Raise CsvError
      end
  end.

(** What iterating over a reader gives: rows, then the end of the input
    or an error. The rows before an error are delivered. *)
Inductive rows : Type :=
| Stop
| Row (cells : list str) (rest : rows)
| Fail (e : exn).

(** [Reader_iternext] when the input has no more lines. *)
Definition at_eof (r : reader) : rows :=
  match field r, st r with
  | [], IN_QUOTED_FIELD => Row (fields (parse_save_field r)) Stop
  | [], _ => Stop
  | _ :: _, _ => Row (fields (parse_save_field r)) Stop
  end.

(** A text file opened with [newline=""] ends a line after LF, after
    CR LF, and after a CR that no LF follows. *)
Definition line_ends (c : ascii) (rest : str) : bool :=
  Ascii.eqb c LF
  || (Ascii.eqb c CR && match rest with c' :: _ => negb (Ascii.eqb c' LF) | [] => true end).

(** The lines that iterating over the file gives; [cur] holds the
    characters of the line being read. *)
Fixpoint readlines (cur : str) (s : str) : list str :=
  match s with
  | [] =>
      match cur with
      | [] => []
      | _ :: _ => [cur]
      end
  | c :: t =>
      if line_ends c t then (cur ++ [c]) :: readlines [] t
      else readlines (cur ++ [c]) t
  end.

(** The parser over the characters of a line, and then over the end of
    the line. *)
Fixpoint process_line (r : reader) (line : str) : result reader :=
  match line with
  | [] => process_char r None
  | c :: t =>
      r' <- process_char r (Some c) ;;
      process_line r' t
  end.

(** [Reader_iternext], call after call: lines are read until the parser
    is back in START_RECORD, which completes a row; the next row starts
    from a reset parser. [r] is the parser state. *)
Fixpoint iterate (r : reader) (lines : list str) : rows :=
  match lines with
  | [] => at_eof r
  | line :: more =>
      match process_line r line with
      | Raise e => Fail e
      | Ok r' =>
          match st r' with
          | START_RECORD => Row (fields r') (iterate parse_reset more)
          | _ => iterate r' more
          end
      end
  end.

(** [csv.reader(f)] over a file of decoded text [content]. *)
Definition reader_of (content : str) : rows := iterate parse_reset (readlines [] content).

(** *** DictReader *)

(** A row as a dict: the field names zipped with the cells; a name
    without a cell is bound to [None] (restval). Cells beyond the names
    go under the key [None] (restkey), which no lookup by name sees. *)
Fixpoint zip_row (names : list str) (cells : list str) : list (str * option str) :=
  match names with
  | [] => []
  | n :: ns =>
      match cells with
      | [] => (n, None) :: zip_row ns []
      | v :: vs => (n, Some v) :: zip_row ns vs
      end
  end.

(** [row.get(key)]: a later binding of a repeated name wins. *)
Fixpoint row_get (key : str) (d : list (str * option str)) : option str :=
  match d with
  | [] => None
  | (k, v) :: rest =>
      match existsb (fun kv => str_eqb key (fst kv)) rest with
      | true => row_get key rest
      | false => if str_eqb key k then v else None
      end
  end.

(** [x or ""] *)
Definition or_empty (x : option str) : str :=
  match x with
  | Some v => v
  | None => []
  end.

End PyCsv.

(** ** input.py: the record store *)

Definition CSV_HEADERS : list str := [py "date"; py "amount"; py "category"; py "notes"].

Record Expense : Type := mkExpense {
  date : str;       (* YYYY-MM-DD *)
  amount : str;     (* decimal string *)
  category : str;
  notes : str
}.

(** The regular files, by path, with their decoded text. *)
Definition filesystem : Type := str -> option str.

Definition write_file (fs : filesystem) (path : str) (text : str) : filesystem :=
  fun p => if str_eqb p path then Some text else fs p.

(** [open(path, "a")] and a write. *)
Definition append_file (fs : filesystem) (path : str) (text : str) : filesystem :=
  write_file fs path (PyCsv.or_empty (fs path) ++ text).

(** [not os.path.exists(path) or os.path.getsize(path) == 0] *)
Definition missing_or_empty (fs : filesystem) (path : str) : bool :=
  match fs path with
  | None => true
  | Some [] => true
  | Some (_ :: _) => false
  end.

(** [ensure_csv_has_header(path)] *)
Definition ensure_csv_has_header (fs : filesystem) (path : str) : filesystem :=
  if missing_or_empty fs path
  then write_file fs path (PyCsv.writerow CSV_HEADERS)
  else fs.

(** [append_expense(path, exp)] *)
Definition append_expense (fs : filesystem) (path : str) (exp : Expense) : filesystem :=
  let fs := ensure_csv_has_header fs path in
  append_file fs path
    (PyCsv.writerow [date exp; amount exp; category exp; notes exp]).

(** The [Expense] that [read_last_n] builds from a row. *)
Definition expense_of_row (fieldnames cells : list str) : Expense :=
  let r := PyCsv.zip_row fieldnames cells in
  mkExpense (strip (PyCsv.or_empty (PyCsv.row_get (py "date") r)))
            (strip (PyCsv.or_empty (PyCsv.row_get (py "amount") r)))
            (strip (PyCsv.or_empty (PyCsv.row_get (py "category") r)))
            (strip (PyCsv.or_empty (PyCsv.row_get (py "notes") r))).

(** The loop [for r in reader: rows.append(...)]; the DictReader skips
    the rows without any cell. *)
Fixpoint collect_expenses (fieldnames : list str) (rs : PyCsv.rows) : result (list Expense) :=
  match rs with
  | PyCsv.Stop => Ok []
  | PyCsv.Fail e => Raise e
  | PyCsv.Row [] rest => collect_expenses fieldnames rest
  | PyCsv.Row cells rest =>
      es <- collect_expenses fieldnames rest ;;
      Ok (expense_of_row fieldnames cells :: es)
  end.

(** [l[start:]] *)
Definition slice_from {A : Type} (start : Z) (l : list A) : list A :=
  let n := Z.of_nat (List.length l) in
  let start := if start <? 0 then Z.max (start + n) 0 else start in
  skipn (Z.to_nat start) l.

(** [read_last_n(path, n)] *)
Definition read_last_n (fs : filesystem) (path : str) (n : Z) : result (list Expense) :=
  if missing_or_empty fs path then Ok []
  else
    match PyCsv.reader_of (PyCsv.or_empty (fs path)) with
    | PyCsv.Fail e => Raise e
    | PyCsv.Stop => Ok []
    | PyCsv.Row fieldnames data =>
        (* tolerate missing header by checking fieldnames *)
        match fieldnames with
        | [] => Ok []
        | _ :: _ =>
            if existsb (fun h => negb (str_in h fieldnames)) CSV_HEADERS then Ok []
            else
              rows <- collect_expenses fieldnames data ;;
              Ok (slice_from (- n) rows)
        end
    end.

(** ** The built-in [float], as far as visualize.py uses it *)

Module PyFloat.

(** The binary64 number nearest to [(-1)^sign * c * 10^e] (ties to even),
    as the correctly rounded conversion of [float()] gives it; numbers
    too large become an infinity, numbers too small a zero. *)
Definition of_decimal (sign : bool) (c : N) (e : Z) : float :=
  let signed (m : Z) := if sign then - m else m in
  let adjusted := len (N_to_str c) + e in
  if (c =? 0)%N then (if sign then (- 0)%float else 0%float)
  else if 400 <? adjusted then (if sign then neg_infinity else infinity)
  else if adjusted <? -400 then (if sign then (- 0)%float else 0%float)
  else if 0 <=? e then
    SF2Prim (SpecFloat.binary_normalize 53 1024 (signed (Z.of_N c * 10 ^ e)) 0 sign)
  else
    (* c / 10^(-e): a quotient of at least 64 bits and a sticky bit *)
    let d := 10 ^ (- e) in
    let s := Z.max 0 (64 + Z.log2 d - Z.log2 (Z.of_N c)) in
    let n := Z.of_N c * 2 ^ s in
    let q := n / d in
    let sticky := if n mod d =? 0 then 0 else 1 in
    SF2Prim (SpecFloat.binary_normalize 53 1024 (signed (2 * q + sticky)) (- s - 1) sign).

(** The white space that [float()] strips: TAB..CR and SPACE; NEL and
    NBSP count as spaces, FS..US do not. *)
Definition isspace (c : ascii) : bool :=
  let n := ord c in
  ((9 <=? n) && (n <=? 13) || (n =? 32) || (n =? 133) || (n =? 160))%N.

Fixpoint lstrip (s : str) : str :=
  match s with
  | c :: t => if isspace c then lstrip t else s
  | [] => []
  end.

Definition strip (s : str) : str := rev (lstrip (rev (lstrip s))).

(** Underscores may stand between two digits only; they are removed.
    [prev] is the character before [s]. *)
Fixpoint remove_underscores (prev : option ascii) (s : str) : option str :=
  match s with
  | [] =>
      match prev with
      | Some "_"%char => None
      | _ => Some []
      end
  | c :: t =>
      let prev_digit := match prev with Some p => is_digit p | None => false end in
      if Ascii.eqb c "_" then
        if prev_digit then remove_underscores (Some c) t else None
      else
        match prev with
        | Some "_"%char =>
            if is_digit c then option_map (cons c) (remove_underscores (Some c) t) else None
        | _ => option_map (cons c) (remove_underscores (Some c) t)
        end
  end.

(** [float(s)] for a string; [None] stands for its ValueError. *)
Definition of_str (value : str) : option float :=
  match remove_underscores None (strip value) with
  | None => None
  | Some s =>
      let '(sign, s1) :=
        match s with
        | "-"%char :: r => (true, r)
        | "+"%char :: r => (false, r)
        | _ => (false, s)
        end in
      let '(intpart, s2) := span_digits s1 in
      let '(fracpart, s3) :=
        match s2 with
        | "."%char :: r => span_digits r
        | _ => ([], s2)
        end in
      match intpart ++ fracpart with
      | [] =>
          let l := PyDecimal.ascii_lower s1 in
          if str_eqb l (py "inf") || str_eqb l (py "infinity")
          then Some (if sign then neg_infinity else infinity)
          else if str_eqb l (py "nan") then Some nan
          else None
      | _ :: _ =>
          match PyDecimal.parse_exponent s3 with
          | Some e =>
              Some (of_decimal sign (N_of_digits (intpart ++ fracpart)) (e - len fracpart))
          | None => None
          end
      end
  end.

(** [x / y]: division by a zero raises. *)
Definition div (x y : float) : result float :=
  if (y =? 0)%float then Raise ZeroDivisionError else Ok (x / y)%float.

(** The left-to-right sum of a list of floats, from 0. *)
Definition sum_left (l : list float) : float :=
  fold_left PrimFloat.add l 0%float.

End PyFloat.

(** ** visualize.py: aggregation

    The drawing of the chart ([make_pretty_donut]) is left out: it hands
    the grouped totals to the plotting library. The labels ([iconize])
    come after the aggregation. *)

(** A [dict] with string keys, in insertion order. *)
Definition dict (V : Type) : Type := list (str * V).

Fixpoint dict_get {V : Type} (k : str) (d : dict V) : option V :=
  match d with
  | [] => None
  | (k', v) :: rest => if str_eqb k k' then Some v else dict_get k rest
  end.

(** [d[k] = v]: a new key goes to the end, an old key keeps its place. *)
Fixpoint dict_set {V : Type} (k : str) (v : V) (d : dict V) : dict V :=
  match d with
  | [] => [(k, v)]
  | (k', v') :: rest =>
      if str_eqb k k' then (k', v) :: rest else (k', v') :: dict_set k v rest
  end.

Definition dict_values {V : Type} (d : dict V) : list V := map snd d.

(** [d.get(k, default)] *)
Definition dict_get_default {V : Type} (k : str) (default : V) (d : dict V) : V :=
  match dict_get k d with
  | Some v => v
  | None => default
  end.

(** [parse_amount(raw)]; [raw] is [None] for a cell the row does not have. *)
Definition parse_amount (raw : option str) : result float :=
  let s := replace "," [] (strip (PyCsv.or_empty raw)) in
  match s with
  | [] => Raise (ValueError AmountEmpty)
  | _ :: _ =>
      match PyFloat.of_str s with
      | Some x => Ok x
      | None => Raise (ValueError FloatSyntax)
      end
  end.

(** [{c.lower().strip(): c for c in r.fieldnames}] *)
Definition header_columns (fieldnames : list str) : dict str :=
  fold_left (fun cols c => dict_set (strip (lower c)) c cols) fieldnames [].

(** [abs(v) > 1e-12] *)
Definition above_epsilon (v : float) : bool := (1e-12 <? abs v)%float.

(** The loop over the rows of [read_csv_totals]; [totals] is the
    [defaultdict(float)]. *)
Fixpoint sum_rows (fieldnames : list str) (cat_col amt_col : str)
  (rs : PyCsv.rows) (totals : dict float) : result (dict float) :=
  match rs with
  | PyCsv.Stop => Ok totals
  | PyCsv.Fail e => Raise e
  | PyCsv.Row [] rest => sum_rows fieldnames cat_col amt_col rest totals
  | PyCsv.Row cells rest =>
      let row := PyCsv.zip_row fieldnames cells in
      match strip (PyCsv.or_empty (PyCsv.row_get cat_col row)) with
      | [] => sum_rows fieldnames cat_col amt_col rest totals
      | cat =>
          amt <- parse_amount (PyCsv.row_get amt_col row) ;;
          sum_rows fieldnames cat_col amt_col rest
            (dict_set cat (dict_get_default cat 0 totals + amt)%float totals)
      end
  end.

(** [read_csv_totals(path)]; the file is decoded as utf-8-sig, so its
    text starts after a byte order mark. *)
Definition read_csv_totals (fs : filesystem) (path : str) : result (dict float) :=
  match fs path with
  | None => Raise FileNotFoundError
  | Some content =>
      match PyCsv.reader_of content with
      | PyCsv.Fail e => Raise e
      | PyCsv.Stop => Raise (ValueError NoHeaderRow)
      | PyCsv.Row [] _ => Raise (ValueError NoHeaderRow)
      | PyCsv.Row fieldnames data =>
          let cols := header_columns fieldnames in
          match dict_get (py "category") cols, dict_get (py "amount") cols with
          | Some cat_col, Some amt_col =>
              totals <- sum_rows fieldnames cat_col amt_col data [] ;;
              match filter (fun kv => above_epsilon (snd kv)) totals with
              | [] => Raise (ValueError NoValidData)
              | kept => Ok kept
              end
          | _, _ => Raise (ValueError MissingColumns)
          end
      end
  end.

(** [sorted(items, key=lambda x: x[1], reverse=True)]: a stable sort by
    decreasing value, written as an insertion sort. It is the list that
    [sorted] returns whenever the values are totally ordered, that is,
    when none of them is a NaN. *)
Fixpoint insert_desc (x : str * float) (l : list (str * float)) : list (str * float) :=
  match l with
  | [] => [x]
  | y :: l' => if (snd x <? snd y)%float then y :: insert_desc x l' else x :: l
  end.

Definition sorted_desc (items : list (str * float)) : list (str * float) :=
  fold_right insert_desc [] items.

(** The loop of [group_small] over the sorted items, from a state
    [(big, other_sum)]. *)
Fixpoint group_loop (total min_ratio : float) (items : list (str * float))
  (big : dict float) (other_sum : float) : result (dict float * float) :=
  match items with
  | [] => Ok (big, other_sum)
  | (k, v) :: rest =>
      ratio <- PyFloat.div (abs v) (abs total) ;;
      if (ratio <? min_ratio)%float
      then group_loop total min_ratio rest big (other_sum + v)%float
      else group_loop total min_ratio rest (dict_set k v big) other_sum
  end.

Section GroupSmall.

(** The built-in [sum] over floats: CPython adds from left to right up to
    version 3.11 ([PyFloat.sum_left]) and with a compensated sum since;
    the grouping is given for any summation. *)
Variable float_sum : list float -> float.

(** [group_small(totals, min_ratio, other_name)] *)
Definition group_small (totals : dict float) (min_ratio : float) (other_name : str)
  : result (dict float) :=
  let total := float_sum (dict_values totals) in
  if (total =? 0)%float then Ok totals
  else
    st <- group_loop total min_ratio (sorted_desc totals) [] 0%float ;;
    let '(big, other_sum) := st in
    if above_epsilon other_sum
    then Ok (dict_set other_name (dict_get_default other_name 0 big + other_sum)%float big)
    else Ok big.

End GroupSmall.


(** ** visualize.py: labels

    The icons are characters beyond U+00FF, so a label is a [text]: a
    string as the list of its code points, without that bound. *)

Definition text : Type := list N.

(** A string of the modelled characters as a text. *)
Definition text_of (s : str) : text := map ord s.

Definition ICON_MAP : dict text :=
  [ (py "food", [127828%N]);                (* U+1F354 *)
    (py "transport", [128663%N]);           (* U+1F697 *)
    (py "rent", [127968%N]);                (* U+1F3E0 *)
    (py "shopping", [128717%N; 65039%N]);   (* U+1F6CD U+FE0F *)
    (py "entertainment", [127918%N]);       (* U+1F3AE *)
    (py "study", [128218%N]);               (* U+1F4DA *)
    (py "medical", [129658%N]);             (* U+1FA7A *)
    (py "utilities", [128161%N]);           (* U+1F4A1 *)
    (py "coffee", [9749%N]);                (* U+2615 *)
    (py "other", [129534%N]) ].             (* U+1F9FE *)

(** [iconize(cat)] for a string [cat] *)
Definition iconize (cat : str) : text :=
  let key := lower (strip cat) in
  let icon := dict_get_default key [] ICON_MAP in
  match icon with
  | [] => text_of cat
  | _ :: _ => icon ++ text_of (py " ") ++ text_of cat
  end.

(** ** input.py: the dialogue

    The terminal is the list of the lines still to be typed and the list
    of what was written so far. [input] shows its prompt and takes the
    next line; when no line is left it raises [EOFError]. What is written
    is recorded by the statement that wrote it and its arguments; the
    texts of the prompts and messages are those of the source (most are in
    Chinese and are named here by their meaning). *)

Inductive prompt : Type :=
| PromptChoice              (* main: choose an operation (1/2/3) *)
| PromptDate                (* prompt_date: date (YYYY-MM-DD; today is accepted) *)
| PromptAmount              (* prompt_amount: amount (> 0, decimals allowed) *)
| PromptCategory            (* prompt_category: category (examples) *)
| PromptNotes               (* main: notes (may be left empty) *)
| PromptText (msg : str).   (* a prompt given as a string *)

Inductive output : Type :=
| Asked (msg : prompt)             (* input(msg) *)
| RetryBlank                       (* prompt_nonempty: must not be blank, try again *)
| ErrorLine (m : message)          (* print(f"<error>: {e}") for a ValueError e *)
| StoreLine (path : str)           (* main: print(f"<data file>: {csv_path}") *)
| MenuLines                        (* the seven lines of print_menu *)
| AddedLine (exp : Expense)        (* main: print("<added>:", exp) *)
| NoDataLine                       (* main: no data yet (or wrong file format) *)
| RecentTitle                      (* main: an empty line and "<the latest 5>:" *)
| Text (s : str)                   (* print(s) *)
| ByeLine                          (* main: left *)
| InvalidLine.                     (* main: invalid input, enter 1 / 2 / 3 *)

(** What ends the program before [main] returns: an exception that no
    handler catches, among them the [EOFError] of [input]. *)
Inductive stop : Type :=
| Uncaught (e : exn)
| EOFError.

(** A step of the dialogue: a value, the lines not yet read and what
    was written; or the exception that ended it and what was written. *)
Inductive io (A : Type) : Type :=
| Return (a : A) (rest : list str) (out : list output)
| Abort (s : stop) (out : list output).

Arguments Return {A} a rest out.
Arguments Abort {A} s out.

(** [input(msg)] *)
Definition input (msg : prompt) (lines : list str) (out : list output) : io str :=
  match lines with
  | [] => Abort EOFError (out ++ [Asked msg])
  | l :: rest => Return l rest (out ++ [Asked msg])
  end.

(** [prompt_nonempty(msg)]; the first lines of the body are
    [s = input(msg).strip()]. *)
Fixpoint prompt_nonempty (msg : prompt) (lines : list str) (out : list output) : io str :=
  match lines with
  | [] => Abort EOFError (out ++ [Asked msg])
  | l :: rest =>
      let out := out ++ [Asked msg] in
      match strip l with
      | [] => prompt_nonempty msg rest (out ++ [RetryBlank])
      | s => Return s rest out
      end
  end.

(** [prompt_optional(msg)] *)
Definition prompt_optional (msg : prompt) (lines : list str) (out : list output) : io str :=
  match input msg lines out with
  | Return l rest out => Return (strip l) rest out
  | Abort s out => Abort s out
  end.

Section Dialogue.

(** The date on the clock at the moment a line has been read, given by
    the number of lines that are still to come. *)
Variable clock : nat -> PyDatetime.t.

(** [prompt_date()]: only a [ValueError] is caught. *)
Fixpoint prompt_date (lines : list str) (out : list output) : io str :=
  match lines with
  | [] => Abort EOFError (out ++ [Asked PromptDate])
  | l :: rest =>
      let out := out ++ [Asked PromptDate] in
      match normalize_date (clock (List.length rest)) (strip l) with
      | Ok v => Return v rest out
      | Raise (ValueError m) => prompt_date rest (out ++ [ErrorLine m])
      | Raise e => Abort (Uncaught e) out
      end
  end.

(** [prompt_amount()] *)
Fixpoint prompt_amount (lines : list str) (out : list output) : io str :=
  match lines with
  | [] => Abort EOFError (out ++ [Asked PromptAmount])
  | l :: rest =>
      let out := out ++ [Asked PromptAmount] in
      match normalize_amount (strip l) with
      | Ok v => Return v rest out
      | Raise (ValueError m) => prompt_amount rest (out ++ [ErrorLine m])
      | Raise e => Abort (Uncaught e) out
      end
  end.

(** [prompt_category()] *)
Fixpoint prompt_category (lines : list str) (out : list output) : io str :=
  match lines with
  | [] => Abort EOFError (out ++ [Asked PromptCategory])
  | l :: rest =>
      let out := out ++ [Asked PromptCategory] in
      match normalize_category (strip l) with
      | Ok v => Return v rest out
      | Raise (ValueError m) => prompt_category rest (out ++ [ErrorLine m])
      | Raise e => Abort (Uncaught e) out
      end
  end.

(** The line of a record in the list of the latest records:
    [f"{i}. {e.date} | {e.amount} | {e.category}{notes_part}"]. *)
Definition entry_line (i : Z) (e : Expense) : str :=
  let notes_part :=
    match notes e with
    | [] => []
    | _ :: _ => py " | notes: " ++ notes e
    end in
  N_to_str (Z.to_N i) ++ py ". " ++ date e ++ py " | " ++ amount e ++ py " | "
    ++ category e ++ notes_part.

(** [for i, e in enumerate(last, i): print(...)] *)
Fixpoint entry_lines (i : Z) (last : list Expense) : list output :=
  match last with
  | [] => []
  | e :: more => Text (entry_line i e) :: entry_lines (i + 1) more
  end.

(** [print_menu()] *)
Definition print_menu (out : list output) : list output := out ++ [MenuLines].

(** How the program ended, with the files and the terminal as it left
    them. *)
Inductive ended : Type :=
| Exited (code : Z)
| Crashed (s : stop).

Record run : Type := mkRun {
  outcome : ended;
  files : filesystem;
  stdout : list output
}.

(** A step of the dialogue inside [main]: an exception ends the run. *)
Definition step {A : Type} (r : io A) (fs : filesystem)
  (k : A -> list str -> list output -> option run) : option run :=
  match r with
  | Return a rest out => k a rest out
  | Abort s out => Some (mkRun (Crashed s) fs out)
  end.

(** The loop of [main]. Each turn reads a line at least, so the loop
    ends on every input; [fuel] bounds the number of turns, and [None]
    is a bound that was too small. *)
Fixpoint main_loop (fuel : nat) (csv_path : str) (lines : list str)
  (fs : filesystem) (out : list output) : option run :=
  match fuel with
  | O => None
  | S fuel' =>
      let out := print_menu out in
      step (input PromptChoice lines out) fs (fun l rest out =>
        let choice := strip l in
        if str_eqb choice (py "1") then
          step (prompt_date rest out) fs (fun date rest out =>
          step (prompt_amount rest out) fs (fun amount rest out =>
          step (prompt_category rest out) fs (fun category rest out =>
          step (prompt_optional PromptNotes rest out) fs (fun notes rest out =>
            let exp := mkExpense date amount category notes in
            let fs := append_expense fs csv_path exp in
            main_loop fuel' csv_path rest fs (out ++ [AddedLine exp])))))
        else if str_eqb choice (py "2") then
          match read_last_n fs csv_path 5 with
          | Raise e => Some (mkRun (Crashed (Uncaught e)) fs out)
          | Ok [] => main_loop fuel' csv_path rest fs (out ++ [NoDataLine])
          | Ok last =>
              main_loop fuel' csv_path rest fs
                (out ++ [RecentTitle; Text (repeat "-"%char 60)]
                     ++ entry_lines 1 last ++ [Text (repeat "-"%char 60)])
          end
        else if str_eqb choice (py "3") then
          Some (mkRun (Exited 0) fs (out ++ [ByeLine]))
        else main_loop fuel' csv_path rest fs (out ++ [InvalidLine]))
  end.

(** [main()], after the command line has given [csv_path]. *)
Definition main (csv_path : str) (lines : list str) (fs : filesystem) : option run :=
  let out := [StoreLine csv_path] in
  let fs := ensure_csv_has_header fs csv_path in
  main_loop (S (List.length lines)) csv_path lines fs out.

End Dialogue.
(** ** Vocabulary of the properties

    Definitions that the statements of Part II use to name inputs and
    outcomes; none of them is part of the programs. *)

(** A decimal that [d <= 0] holds for: a negative or zero number, or the
    negative infinity. *)
Definition nonpositive (d : PyDecimal.t) : Prop :=
  match d with
  | PyDecimal.Finite sign coeff _ => sign = true \/ coeff = 0%N
  | PyDecimal.Inf sign => sign = true
  | PyDecimal.NaN _ _ _ => False
  end.

(** The header row of a store file, as [reader.fieldnames] gives it. *)
Definition header_row (content : str) : option (list str) :=
  match PyCsv.reader_of content with
  | PyCsv.Row fieldnames _ => Some fieldnames
  | _ => None
  end.

(** Store files of the examples. *)
Definition store_with_extra_column : str :=
  py "date,amount,category,notes,extra" ++ PyCsv.lineterminator
  ++ py "2025-12-15,120,Food,lunch,x" ++ PyCsv.lineterminator.


(** A date of the calendar written with four, two and two digits and
    the separator [sep]. *)
Definition iso_date (sep : ascii) (y m d : Z) : str :=
  PyDatetime.pad4 y ++ sep :: PyDatetime.pad2 m ++ sep :: PyDatetime.pad2 d.


(** A value whose share of the total is below the threshold:
    [abs(v) / abs(total) < min_ratio]. *)
Definition is_small (total min_ratio v : float) : bool :=
  (abs v / abs total <? min_ratio)%float.

(** What a category is bound to once the small ones are taken out: its
    own value when its share is at or above the threshold. *)
Definition kept (total min_ratio : float) (totals : dict float) (k : str) : option float :=
  match dict_get k totals with
  | Some v => if is_small total min_ratio v then None else Some v
  | None => None
  end.

(** Storing the bindings of a list one after the other: the last
    binding of a key is the one found. *)
Definition store_all {V : Type} (items : list (str * V)) (d : dict V) : dict V :=
  fold_left (fun b kv => dict_set (fst kv) (snd kv) b) items d.


(** A header cell that spells [name] with some casing and padding:
    white space, then a word whose lower case is [name], then white
    space. *)
Definition spells (name header : str) : Prop :=
  exists pre body post,
    header = pre ++ body ++ post
    /\ forallb isspace pre = true
    /\ forallb isspace post = true
    /\ lower body = name.

(** The rows a reader delivers before the end of the input or an error,
    and the error if there is one. *)
Fixpoint delivered (rs : PyCsv.rows) : list (list str) :=
  match rs with
  | PyCsv.Row cells rest => cells :: delivered rest
  | _ => []
  end.

Fixpoint failure (rs : PyCsv.rows) : option exn :=
  match rs with
  | PyCsv.Stop => None
  | PyCsv.Row _ rest => failure rest
  | PyCsv.Fail e => Some e
  end.

(** An amount cell that is missing, empty once stripped and freed of
    commas, or not a number for [float]. *)
Definition bad_amount (raw : option str) : Prop :=
  let s := replace "," [] (strip (PyCsv.or_empty raw)) in
  s = [] \/ PyFloat.of_str s = None.

(** The aggregation of [read_csv_totals] once the two columns are
    chosen: the sums by category, without the totals within 1e-12 of
    zero, and an error when nothing is left. *)
Definition totals_of_rows (fieldnames : list str) (cat_col amt_col : str)
  (data : PyCsv.rows) : result (dict float) :=
  totals <- sum_rows fieldnames cat_col amt_col data [] ;;
  match filter (fun kv => above_epsilon (snd kv)) totals with
  | [] => Raise (ValueError NoValidData)
  | kept => Ok kept
  end.

(** The reader run character by character over a text, the end of a
    line told to the parser where the file has one: [r] is the parser
    state, [fresh] tells that no character of the current line has been
    read. It delivers the rows of [PyCsv.reader_of]. *)
Definition end_of_line (r : PyCsv.reader) (more : PyCsv.reader -> PyCsv.rows) : PyCsv.rows :=
  match PyCsv.process_char r None with
  | Raise e => PyCsv.Fail e
  | Ok r' =>
      match PyCsv.st r' with
      | PyCsv.START_RECORD => PyCsv.Row (PyCsv.fields r') (more PyCsv.parse_reset)
      | _ => more r'
      end
  end.

Fixpoint read_rows (r : PyCsv.reader) (fresh : bool) (s : str) : PyCsv.rows :=
  match s with
  | [] =>
      if fresh then PyCsv.at_eof r
      else end_of_line r PyCsv.at_eof
  | c :: t =>
      match PyCsv.process_char r (Some c) with
      | Raise e => PyCsv.Fail e
      | Ok r1 =>
          if PyCsv.line_ends c t then end_of_line r1 (fun r2 => read_rows r2 true t)
          else read_rows r1 false t
      end
  end.

(** The parser over some characters, without the end of a line. *)
Fixpoint process_chars (r : PyCsv.reader) (s : str) : result PyCsv.reader :=
  match s with
  | [] => Ok r
  | c :: t =>
      r' <- PyCsv.process_char r (Some c) ;;
      process_chars r' t
  end.

(** The reader gets from the state [r] to the state [r'] over the
    characters [seg], whatever follows them, without delivering a row. *)
Definition steps (r : PyCsv.reader) (seg : str) (r' : PyCsv.reader) : Prop :=
  forall fresh rest, exists fresh',
    read_rows r fresh (seg ++ rest) = read_rows r' fresh' rest.

(** The cells that [append_expense] writes for a record. *)
Definition cells_of (e : Expense) : list str := [date e; amount e; category e; notes e].

(** The text of a store that holds the records [es]. *)
Definition store_text (es : list Expense) : str :=
  PyCsv.writerow CSV_HEADERS ++ flat_map (fun e => PyCsv.writerow (cells_of e)) es.

(** [append(path, r)] for the records of a list, one by one. *)
Fixpoint append_all (fs : filesystem) (path : str) (es : list Expense) : filesystem :=
  match es with
  | [] => fs
  | e :: rest => append_all (append_expense fs path e) path rest
  end.

(** A field with no white space at either end, within the reader's
    field limit. *)
Definition clean_field (f : str) : Prop := strip f = f /\ len f <= PyCsv.field_limit.

(** A record that reads back as it was written. *)
Definition storable (e : Expense) : Prop :=
  clean_field (date e) /\ clean_field (amount e)
  /\ clean_field (category e) /\ clean_field (notes e).

Definition report_with_blank_amount : str :=
  py "date,amount,category,notes" ++ PyCsv.lineterminator
  ++ py "2025-12-15,120,Food,lunch" ++ PyCsv.lineterminator
  ++ py "2025-12-16,,Food,dinner" ++ PyCsv.lineterminator
  ++ py "2025-12-17,n/a,Bus" ++ PyCsv.lineterminator.

Definition report_with_padded_header : str :=
  py "Date, AMOUNT ,Category" ++ PyCsv.lineterminator
  ++ py "2025-12-15,10,Food" ++ PyCsv.lineterminator
  ++ py "2025-12-16,5,Food" ++ PyCsv.lineterminator
  ++ py "2025-12-17,3,Transport" ++ PyCsv.lineterminator.

(** A string that does not start with white space. *)
Definition no_lead (s : str) : bool :=
  match s with
  | [] => true
  | c :: _ => negb (isspace c)
  end.

(** A number of one or two digits as [%m] and [%d] read it: with two
    digits, or with one when it is below ten. *)
Definition spells_number (n : Z) (s : str) : Prop :=
  s = PyDatetime.pad2 n \/ (1 <= n <= 9 /\ s = [PyDatetime.digit_char n]).

(** A record with its four fields stripped. *)
Definition trimmed (e : Expense) : Expense :=
  mkExpense (strip (date e)) (strip (amount e)) (strip (category e)) (strip (notes e)).

(** A record whose fields are within the reader's field limit. *)
Definition readable (e : Expense) : Prop :=
  Forall (fun f => len f <= PyCsv.field_limit) (cells_of e).

(** What the slice [l[-n:]] holds: the last [n] elements when [n] is
    positive (all of them when there are fewer), all of them when [n] is
    zero, and all but the first [-n] when [n] is negative. *)
Definition last_n {A : Type} (n : Z) (l : list A) : list A :=
  if 0 <? n then skipn (List.length l - Z.to_nat n) l
  else skipn (Z.to_nat (- n)) l.

(** The header line of a store file. *)
Definition header_line : str := py "date,amount,category,notes" ++ [PyCsv.CR; PyCsv.LF].

(** The category of a data row as [read_csv_totals] reads it, and the
    amount cell of the row. *)
Definition row_category (fieldnames : list str) (cat_col : str) (cells : list str) : str :=
  strip (PyCsv.or_empty (PyCsv.row_get cat_col (PyCsv.zip_row fieldnames cells))).

Definition row_amount (fieldnames : list str) (amt_col : str) (cells : list str) : option str :=
  PyCsv.row_get amt_col (PyCsv.zip_row fieldnames cells).

(** The amounts of the rows of one category, in the order of the rows. *)
Fixpoint amounts_of (fieldnames : list str) (cat_col amt_col : str) (cat : str)
  (rows : list (list str)) : list float :=
  match rows with
  | [] => []
  | cells :: rest =>
      if str_eqb (row_category fieldnames cat_col cells) cat
      then match parse_amount (row_amount fieldnames amt_col cells) with
           | Ok x => x :: amounts_of fieldnames cat_col amt_col cat rest
           | Raise _ => amounts_of fieldnames cat_col amt_col cat rest
           end
      else amounts_of fieldnames cat_col amt_col cat rest
  end.

(** Some row has the category. *)
Definition has_category (fieldnames : list str) (cat_col : str) (cat : str)
  (rows : list (list str)) : bool :=
  existsb (fun cells => str_eqb (row_category fieldnames cat_col cells) cat) rows.

(** A float that is a number: [v == v], which fails for a NaN only. *)
Definition is_number (v : float) : bool := (v =? v)%float.

(** Two entries in the order of a descending sort: the second is not
    above the first. *)
Definition descending (a b : str * float) : Prop := (snd a <? snd b)%float = false.

(** What a prompt that validates has written when it was answered after
    the errors [msgs]: the prompt and the error for each refused line,
    and the prompt once more. *)
Definition asked_again (msg : prompt) (msgs : list message) : list output :=
  flat_map (fun m => [Asked msg; ErrorLine m]) msgs ++ [Asked msg].

(** The loop that the three validating prompts share: ask, normalize
    the stripped line, print the error of a [ValueError] and ask again.
    [normalize] is given the number of lines still to come. *)
Fixpoint ask_until (msg : prompt) (normalize : nat -> str -> result str)
  (lines : list str) (out : list output) : io str :=
  match lines with
  | [] => Abort EOFError (out ++ [Asked msg])
  | l :: rest =>
      let out := out ++ [Asked msg] in
      match normalize (List.length rest) (strip l) with
      | Ok v => Return v rest out
      | Raise (ValueError m) => ask_until msg normalize rest (out ++ [ErrorLine m])
      | Raise e => Abort (Uncaught e) out
      end
  end.

(** The lines [skipped], each refused with the [ValueError] of the same
    place in [msgs]; [after] is the number of lines that come after them
    all. *)
Fixpoint refused (normalize : nat -> str -> result str) (after : nat)
  (skipped : list str) (msgs : list message) : Prop :=
  match skipped, msgs with
  | [], [] => True
  | s :: skipped', m :: msgs' =>
      normalize (List.length skipped' + after)%nat (strip s) = Raise (ValueError m)
      /\ refused normalize after skipped' msgs'
  | _, _ => False
  end.

(** A record that the dialogue can produce: each field is what its
    prompt returns for some line. *)
Definition entered (clock : nat -> PyDatetime.t) (e : Expense) : Prop :=
  (exists k s, normalize_date (clock k) s = Ok (date e))
  /\ (exists s, normalize_amount s = Ok (amount e))
  /\ (exists s, normalize_category s = Ok (category e))
  /\ (exists s, notes e = strip s).

(** The ways the entry tool can end. *)
Definition ends_as_designed (o : ended) : Prop :=
  o = Exited 0
  \/ o = Crashed EOFError
  \/ o = Crashed (Uncaught InvalidOperation)
  \/ o = Crashed (Uncaught Overflow)
  \/ o = Crashed (Uncaught CsvError).

(** The lines that enter one record: the choice "1" and the answers to
    the four prompts. *)
Definition typed (raw : str * str * str * str) : list str :=
  let '(d, a, c, n) := raw in [py "1"; d; a; c; n].

(** The answers [raw] are accepted at once and give the record [e]. *)
Definition enters (clock : nat -> PyDatetime.t) (raw : str * str * str * str) (e : Expense)
  : Prop :=
  let '(d, a, c, n) := raw in
  (forall k, normalize_date (clock k) (strip d) = Ok (date e))
  /\ normalize_amount (strip a) = Ok (amount e)
  /\ normalize_category (strip c) = Ok (category e)
  /\ strip n = notes e.

(** What the terminal shows for a record entered without a refused
    line. *)
Definition added (e : Expense) : list output :=
  [MenuLines; Asked PromptChoice; Asked PromptDate; Asked PromptAmount;
   Asked PromptCategory; Asked PromptNotes; AddedLine e].

(** A string without white space. *)
Definition no_space (s : str) : Prop := Forall (fun c => isspace c = false) s.

(** A string of decimal digits. *)
Definition digits (s : str) : Prop := Forall (fun c => is_digit c = true) s.

(** The numerals that [Decimal] prints for a positive finite number:
    digits, then possibly a point and digits, then possibly an exponent
    ([E], a sign and digits). *)
Definition numeral (s : str) : Prop :=
  exists int frac expo,
    s = int ++ frac ++ expo
    /\ int <> [] /\ digits int
    /\ (frac = [] \/ exists f, frac = "."%char :: f /\ digits f)
    /\ (expo = []
        \/ exists sg ds, expo = "E"%char :: sg :: ds
                         /\ (sg = "+"%char \/ sg = "-"%char) /\ ds <> [] /\ digits ds).

(** The characters of a numeral: digits, the point, the letter E and
    the two signs. *)
Definition numeral_char (c : ascii) : Prop :=
  is_digit c = true \/ c = "."%char \/ c = "E"%char \/ c = "+"%char \/ c = "-"%char.

(** The amounts of the records of one category, as [float] reads them,
    in the order of the records. *)
Definition amounts_in (cat : str) (es : list Expense) : list float :=
  flat_map (fun e => if str_eqb (category e) cat
                     then match parse_amount (Some (amount e)) with
                          | Ok x => [x]
                          | Raise _ => []
                          end
                     else []) es.

(** The rows of a store that holds the records [es], as the reader
    delivers them after the header. *)
Definition store_rows (es : list Expense) : PyCsv.rows :=
  fold_right PyCsv.Row PyCsv.Stop (map cells_of es).
(* ================================================================= *)
(** * Part II: properties *)
(* ================================================================= *)

(** ** Strings *)

Lemma str_eqb_refl (a : str) : str_eqb a a = true.
Proof.
  induction a as [|c a IH]; simpl; [reflexivity|].
  now rewrite Ascii.eqb_refl, IH.
Qed.

Lemma str_eqb_eq (a b : str) : str_eqb a b = true <-> a = b.
Proof.
  split.
  - revert b; induction a as [|c a IH]; intros [|d b]; simpl; try discriminate; auto.
    intros H. apply andb_true_iff in H as [Hc Hr].
    apply Ascii.eqb_eq in Hc. f_equal; auto.
  - intros ->. apply str_eqb_refl.
Qed.

Lemma str_eqb_neq (a b : str) : str_eqb a b = false <-> a <> b.
Proof.
  split.
  - intros H E. apply str_eqb_eq in E. congruence.
  - intros H. destruct (str_eqb a b) eqn:E; [|reflexivity].
    apply str_eqb_eq in E. contradiction.
Qed.

Lemma str_in_In (x : str) (l : list str) : str_in x l = true <-> In x l.
Proof.
  unfold str_in. rewrite existsb_exists. split.
  - intros (y & Hy & E). apply str_eqb_eq in E. now subst.
  - intros H. exists x. split; [assumption | apply str_eqb_refl].
Qed.

(** ** normalize_amount *)

Section NormalizeAmount.




(** What the two classes of input outside C8 that [Decimal] reads do: a
    NaN escapes as [decimal.InvalidOperation], the positive infinity is
    returned. *)
Example normalize_amount_nan_inf :
  normalize_amount (py "nan") = Raise InvalidOperation
  /\ normalize_amount (py "inf") = Ok (py "Infinity").
Proof. split; reflexivity. Qed.

(** C1, at the inputs where the code departs from it. The spellings
    "120" and "120.00" denote the same number, and so do "1200" and
    "1,200.0"; [normalize_amount] returns each integral spelling with its
    fractional zeros (and a positive exponent as written), because the
    branch taken when the normalized number prints without a point
    returns [str(d)] of the number as typed. A number with a fractional
    part loses its trailing zeros. *)
Theorem normalize_amount_keeps_integral_zeros :
  PyDecimal.of_str (py "120") = Some (PyDecimal.Finite false 120 0)
  /\ PyDecimal.of_str (py "120.00") = Some (PyDecimal.Finite false 12000 (-2))
  /\ PyDecimal.same_value (PyDecimal.Finite false 120 0)
       (PyDecimal.Finite false 12000 (-2)) = true
  /\ normalize_amount (py "120") = Ok (py "120")
  /\ normalize_amount (py "120.00") = Ok (py "120.00")
  /\ normalize_amount (py "1200") = Ok (py "1200")
  /\ normalize_amount (py "1,200.0") = Ok (py "1200.0")
  /\ normalize_amount (py "1e3") = Ok (py "1E+3")
  /\ normalize_amount (py "120.50") = Ok (py "120.5").
Proof. repeat split; vm_compute; reflexivity. Qed.

End NormalizeAmount.

(** ** read_last_n: the guards *)

Section ReadGuards.

(** C6. On a path that names no file, or an empty file, [read_last_n]
    returns the empty list, whatever [n] is; it does not raise. *)
Theorem read_last_n_missing_or_empty (fs : filesystem) (path : str) (n : Z) :
  fs path = None \/ fs path = Some [] ->
  read_last_n fs path n = Ok [].
Proof.
  intros H. unfold read_last_n, missing_or_empty.
  destruct H as [-> | ->]; reflexivity.
Qed.

Lemma read_last_n_missing_or_empty_witness :
  read_last_n (fun _ => None) (py "expenses.csv") 5 = Ok []
  /\ read_last_n (fun _ => Some []) (py "expenses.csv") (-3) = Ok [].
Proof.
  split; apply read_last_n_missing_or_empty; [left | right]; reflexivity.
Defined.

(** C4 fails as stated: a header with the four expected columns and one
    more does not match the expected column set, and [read_last_n]
    returns the records of the file. *)
Lemma read_last_n_extra_column_counterexample :
  let fs : filesystem := fun _ => Some store_with_extra_column in
  header_row store_with_extra_column
    = Some [py "date"; py "amount"; py "category"; py "notes"; py "extra"]
  /\ header_row store_with_extra_column <> Some CSV_HEADERS
  /\ read_last_n fs (py "expenses.csv") 5
     = Ok [mkExpense (py "2025-12-15") (py "120") (py "Food") (py "lunch")]
  /\ read_last_n fs (py "expenses.csv") 5 <> Ok [].
Proof.
  repeat split; try (vm_compute; reflexivity); vm_compute; discriminate.
Qed.

Lemma existsb_missing_header (fieldnames : list str) :
  (exists h, In h CSV_HEADERS /\ ~ In h fieldnames) ->
  existsb (fun h => negb (str_in h fieldnames)) CSV_HEADERS = true.
Proof.
  intros (h & Hin & Hout). apply existsb_exists. exists h. split; [assumption|].
  apply negb_true_iff. destruct (str_in h fieldnames) eqn:E; [|reflexivity].
  apply str_in_In in E. contradiction.
Qed.

(** C4, amended. When the header row of an existing, non-empty store
    file lacks one of the expected column names, [read_last_n] returns
    the empty list: neither records nor an error, whatever follows the
    header. *)
Theorem read_last_n_header_lacks_column
  (fs : filesystem) (path : str) (n : Z) (content : str) (fieldnames : list str) :
  fs path = Some content ->
  content <> [] ->
  header_row content = Some fieldnames ->
  (exists h, In h CSV_HEADERS /\ ~ In h fieldnames) ->
  read_last_n fs path n = Ok [].
Proof.
  intros Hfs Hne Hhdr Hmiss. unfold read_last_n, missing_or_empty.
  rewrite Hfs. destruct content as [|c t]; [contradiction|]. simpl PyCsv.or_empty.
  unfold header_row in Hhdr.
  destruct (PyCsv.reader_of (c :: t)) as [|fn data|e]; try discriminate.
  injection Hhdr as ->.
  destruct fieldnames as [|f fs']; [reflexivity|].
  now rewrite (existsb_missing_header (f :: fs') Hmiss).
Qed.

Lemma read_last_n_header_lacks_column_witness :
  read_last_n (fun _ => Some (py "date,amount,notes" ++ PyCsv.lineterminator
                              ++ py "2025-12-15,120,lunch" ++ PyCsv.lineterminator))
    (py "expenses.csv") 5 = Ok [].
Proof.
  eapply read_last_n_header_lacks_column with (fieldnames := [py "date"; py "amount"; py "notes"]).
  - reflexivity.
  - discriminate.
  - vm_compute. reflexivity.
  - exists (py "category"). split.
    + vm_compute. tauto.
    + vm_compute. intros [H | [H | [H | []]]]; discriminate.
Defined.

End ReadGuards.

(** ** normalize_date *)

Section NormalizeDate.

Import PyDatetime.

(** Case analysis on an integer of a small range. *)
Lemma Z_small_cases (P : Z -> Prop) (n : nat) :
  (forall k : nat, (k < n)%nat -> P (Z.of_nat k)) ->
  forall z, 0 <= z < Z.of_nat n -> P z.
Proof.
  intros H z Hz. rewrite <- (Z2Nat.id z) by lia. apply H. lia.
Qed.

Lemma ord_digit_char (k : Z) : 0 <= k <= 9 -> ord (digit_char k) = (48 + Z.to_N k)%N.
Proof.
  intros H. unfold ord, digit_char. apply N_ascii_embedding. lia.
Qed.

Lemma is_digit_digit_char (k : Z) : 0 <= k <= 9 -> is_digit (digit_char k) = true.
Proof.
  intros H. unfold is_digit. rewrite ord_digit_char by assumption.
  apply andb_true_iff. split; apply N.leb_le; lia.
Qed.

Lemma digit_val_digit_char (k : Z) : 0 <= k <= 9 -> digit_val (digit_char k) = Z.to_N k.
Proof.
  intros H. unfold digit_val. rewrite ord_digit_char by assumption. lia.
Qed.

Lemma isspace_digit_char (k : Z) : 0 <= k <= 9 -> isspace (digit_char k) = false.
Proof.
  intros H. assert (Hk : 0 <= k < Z.of_nat 10) by lia. clear H. pattern k. apply (Z_small_cases _ 10%nat); [|lia]. intros n Hn.
  do 10 (destruct n as [|n]; [reflexivity|]). exfalso; lia.
Qed.

Lemma digit_char_not (c : ascii) (k : Z) :
  0 <= k <= 9 -> is_digit c = false -> Ascii.eqb (digit_char k) c = false.
Proof.
  intros H Hc. destruct (Ascii.eqb (digit_char k) c) eqn:E; [|reflexivity].
  apply Ascii.eqb_eq in E. subst c. rewrite is_digit_digit_char in Hc by assumption.
  discriminate.
Qed.

Lemma digits_of_year (y : Z) :
  0 <= y <= 9999 ->
  0 <= y / 1000 <= 9 /\ 0 <= y / 100 mod 10 <= 9
  /\ 0 <= y / 10 mod 10 <= 9 /\ 0 <= y mod 10 <= 9
  /\ y = 1000 * (y / 1000) + 100 * (y / 100 mod 10) + 10 * (y / 10 mod 10) + y mod 10.
Proof.
  intros H.
  pose proof (Z.div_mod y 10 ltac:(lia)) as E1.
  pose proof (Z.mod_pos_bound y 10 ltac:(lia)) as B1.
  pose proof (Z.div_mod (y / 10) 10 ltac:(lia)) as E2.
  pose proof (Z.mod_pos_bound (y / 10) 10 ltac:(lia)) as B2.
  pose proof (Z.div_mod (y / 100) 10 ltac:(lia)) as E3.
  pose proof (Z.mod_pos_bound (y / 100) 10 ltac:(lia)) as B3.
  assert (D2 : y / 10 / 10 = y / 100) by (rewrite Z.div_div by lia; reflexivity).
  assert (D3 : y / 100 / 10 = y / 1000) by (rewrite Z.div_div by lia; reflexivity).
  rewrite D2 in E2. rewrite D3 in E3.
  assert (0 <= y / 1000 <= 9).
  { split; [apply Z.div_pos; lia|].
    apply Z.lt_succ_r, Z.div_lt_upper_bound; lia. }
  repeat split; lia.
Qed.

Lemma year_of_pad4 (y : Z) :
  0 <= y <= 9999 -> Z.of_N (N_of_digits (pad4 y)) = y.
Proof.
  intros H. destruct (digits_of_year y H) as (H1 & H2 & H3 & H4 & E).
  unfold pad4, N_of_digits. cbn [fold_left].
  rewrite !digit_val_digit_char by assumption. lia.
Qed.

Lemma parse_day_pad2 (d : Z) (r : str) :
  1 <= d <= 31 -> parse_day (pad2 d ++ r) = Some (d, r).
Proof.
  intros H. assert (Hd : 0 <= d < Z.of_nat 32) by lia. revert H.
  pattern d. apply (Z_small_cases _ 32%nat); [|lia]. intros k Hk H.
  do 32 (destruct k as [|k]; [try reflexivity; exfalso; lia|]).
  exfalso; lia.
Qed.

Lemma parse_month_pad2 (y m : Z) (r : str) :
  1 <= m <= 12 -> parse_month y (pad2 m ++ r) = after_month y m r.
Proof.
  intros H. assert (Hm : 0 <= m < Z.of_nat 13) by lia. revert H.
  pattern m. apply (Z_small_cases _ 13%nat); [|lia]. intros k Hk H.
  do 13 (destruct k as [|k];
         [try (exfalso; lia);
          unfold parse_month; cbn -[after_month];
          try reflexivity;
          destruct (after_month y _ r); reflexivity|]).
  exfalso; lia.
Qed.

Lemma valid_bounds (y m d : Z) :
  valid y m d = true -> 1 <= y <= 9999 /\ 1 <= m <= 12 /\ 1 <= d <= 31.
Proof.
  unfold valid. rewrite !andb_true_iff, !Z.leb_le.
  intros (((((Hy1 & Hy2) & Hm1) & Hm2) & Hd1) & Hd2).
  assert (days_in_month y m <= 31).
  { unfold days_in_month.
    destruct (m =? 2); [destruct (is_leap y); lia|].
    destruct ((m =? 4) || (m =? 6) || (m =? 9) || (m =? 11)); lia. }
  lia.
Qed.

Lemma strptime_iso (y m d : Z) :
  valid y m d = true -> strptime (iso_date "-" y m d) = Some (mk y m d).
Proof.
  intros Hv. destruct (valid_bounds y m d Hv) as (Hy & Hm & Hd).
  destruct (digits_of_year y ltac:(lia)) as (H1 & H2 & H3 & H4 & _).
  unfold iso_date.
  change (pad4 y) with
    [digit_char (y / 1000); digit_char (y / 100 mod 10);
     digit_char (y / 10 mod 10); digit_char (y mod 10)].
  cbn [app]. unfold strptime.
  change (forallb is_digit ?l) with (forallb is_digit (pad4 y)).
  assert (Hall : forallb is_digit (pad4 y) = true).
  { unfold pad4. cbn [forallb]. now rewrite !is_digit_digit_char by assumption. }
  rewrite Hall.
  change (N_of_digits _) with (N_of_digits (pad4 y)).
  rewrite year_of_pad4 by lia.
  rewrite parse_month_pad2 by assumption.
  unfold after_month. rewrite <- (app_nil_r (pad2 d)).
  rewrite parse_day_pad2 by assumption. now rewrite Hv.
Qed.

Lemma str_eqb_length (a b : str) : List.length a <> List.length b -> str_eqb a b = false.
Proof.
  intros H. apply str_eqb_neq. intros ->. contradiction.
Qed.

Lemma not_today (s : str) : List.length s = 10%nat -> str_in (lower s) [py "today"; py "t"] = false.
Proof.
  intros H. unfold str_in. cbn [existsb].
  rewrite !str_eqb_length; [reflexivity | |]; unfold lower; rewrite length_map, H; cbn; lia.
Qed.

Lemma strip_iso (sep : ascii) (y m d : Z) :
  1 <= y <= 9999 -> 1 <= m <= 12 -> 1 <= d <= 31 ->
  strip (iso_date sep y m d) = iso_date sep y m d.
Proof.
  intros Hy Hm Hd.
  destruct (digits_of_year y ltac:(lia)) as (H1 & _).
  assert (Hl : 0 <= d mod 10 <= 9) by (pose proof (Z.mod_pos_bound d 10); lia).
  unfold iso_date, pad4, pad2, strip, rstrip. cbn [app lstrip].
  rewrite isspace_digit_char by assumption.
  cbn [rev app lstrip]. rewrite isspace_digit_char by assumption.
  reflexivity.
Qed.

Lemma replace_iso (sep : ascii) (y m d : Z) :
  sep = "-"%char \/ sep = "/"%char ->
  1 <= y <= 9999 -> 1 <= m <= 12 -> 1 <= d <= 31 ->
  replace "/" (py "-") (iso_date sep y m d) = iso_date "-" y m d.
Proof.
  intros Hsep Hy Hm Hd.
  destruct (digits_of_year y ltac:(lia)) as (H1 & H2 & H3 & H4 & _).
  assert (0 <= m / 10 <= 9) by (split; [apply Z.div_pos | apply Z.lt_succ_r, Z.div_lt_upper_bound]; lia).
  assert (0 <= m mod 10 <= 9) by (pose proof (Z.mod_pos_bound m 10); lia).
  assert (0 <= d / 10 <= 9) by (split; [apply Z.div_pos | apply Z.lt_succ_r, Z.div_lt_upper_bound]; lia).
  assert (0 <= d mod 10 <= 9) by (pose proof (Z.mod_pos_bound d 10); lia).
  unfold iso_date, pad4, pad2, replace. cbn [app flat_map].
  rewrite !(digit_char_not "/") by (assumption || reflexivity).
  destruct Hsep as [-> | ->]; reflexivity.
Qed.

Lemma iso_date_length (sep : ascii) (y m d : Z) : List.length (iso_date sep y m d) = 10%nat.
Proof. reflexivity. Qed.

(** On a date of the calendar written as YYYY-MM-DD or YYYY/MM/DD,
    [normalize_date] returns the spelling with hyphens. *)
Lemma normalize_date_iso (now : t) (sep : ascii) (y m d : Z) :
  sep = "-"%char \/ sep = "/"%char ->
  valid y m d = true ->
  normalize_date now (iso_date sep y m d) = Ok (iso_date "-" y m d).
Proof.
  intros Hsep Hv. destruct (valid_bounds y m d Hv) as (Hy & Hm & Hd).
  unfold normalize_date. rewrite strip_iso by assumption.
  change (iso_date sep y m d) with
    (digit_char (y / 1000) :: List.tl (iso_date sep y m d)) at 1.
  cbv iota. rewrite not_today by apply iso_date_length.
  rewrite replace_iso by assumption.
  now rewrite strptime_iso by assumption.
Qed.



End NormalizeDate.

(** ** Dictionaries *)

Section Dict.

Context {V : Type}.

Lemma dict_get_set (k k' : str) (v : V) (d : dict V) :
  dict_get k (dict_set k' v d) = if str_eqb k k' then Some v else dict_get k d.
Proof.
  induction d as [|[k0 v0] d IH]; simpl.
  - reflexivity.
  - destruct (str_eqb k' k0) eqn:E'; simpl.
    + apply str_eqb_eq in E'. subst k0. destruct (str_eqb k k'); reflexivity.
    + destruct (str_eqb k k0) eqn:E0.
      * apply str_eqb_eq in E0. subst k0.
        destruct (str_eqb k k') eqn:E; [|reflexivity].
        apply str_eqb_eq in E. subst k'. rewrite str_eqb_refl in E'. discriminate.
      * exact IH.
Qed.

(** In a list without repeated keys a lookup finds a binding exactly
    when the binding is a member. *)
Lemma dict_get_In (k : str) (v : V) (d : dict V) :
  NoDup (map fst d) -> dict_get k d = Some v <-> In (k, v) d.
Proof.
  induction d as [|[k0 v0] d IH]; simpl; intros Hnd.
  - split; [discriminate | contradiction].
  - inversion Hnd as [|? ? Hnotin Hnd']; subst.
    destruct (str_eqb k k0) eqn:E.
    + apply str_eqb_eq in E. subst k0. split.
      * intros [= ->]. now left.
      * intros [[= ->] | Hin]; [reflexivity|].
        exfalso. apply Hnotin. now apply (in_map fst) in Hin.
    + apply str_eqb_neq in E. rewrite (IH Hnd'). split.
      * now right.
      * intros [[= -> ->] | Hin]; [contradiction | assumption].
Qed.

Lemma NoDup_keys_filter (p : str * V -> bool) (d : dict V) :
  NoDup (map fst d) -> NoDup (map fst (filter p d)).
Proof.
  induction d as [|kv d IH]; simpl; intros Hnd; [constructor|].
  inversion Hnd as [|? ? Hnotin Hnd']; subst.
  destruct (p kv); simpl; [|auto].
  constructor; [|auto].
  intros Hin. apply Hnotin. apply in_map_iff in Hin as (x & Ex & Hx).
  apply filter_In in Hx as [Hx _]. rewrite <- Ex. now apply in_map.
Qed.

Lemma dict_get_store_all (k : str) (items : list (str * V)) (d : dict V) :
  dict_get k (store_all items d)
  = match dict_get k (rev items) with
    | Some v => Some v
    | None => dict_get k d
    end.
Proof.
  revert d. induction items as [|[k0 v0] items IH] using rev_ind; intros d.
  - reflexivity.
  - unfold store_all. rewrite fold_left_app, rev_app_distr. simpl.
    rewrite dict_get_set. destruct (str_eqb k k0); [reflexivity|]. apply IH.
Qed.

End Dict.

Lemma option_ext {A : Type} (a b : option A) :
  (forall v, a = Some v <-> b = Some v) -> a = b.
Proof.
  intros H. destruct a as [x|].
  - symmetry. now apply H.
  - destruct b as [y|]; [|reflexivity]. now apply H.
Qed.

(** ** group_small *)

Section GroupSmallSpec.

Lemma abs_nonzero (x : float) : (x =? 0)%float = false -> (abs x =? 0)%float = false.
Proof.
  rewrite !eqb_spec, abs_spec.
  change (Prim2SF 0) with (S754_zero false).
  destruct (Prim2SF x) as [s | s | | s m e]; simpl; try reflexivity; discriminate.
Qed.

Lemma insert_desc_perm (x : str * float) (l : list (str * float)) :
  Permutation (insert_desc x l) (x :: l).
Proof.
  induction l as [|y l IH]; simpl.
  - reflexivity.
  - destruct (snd x <? snd y)%float.
    + rewrite IH. apply perm_swap.
    + reflexivity.
Qed.

Lemma sorted_desc_perm (l : list (str * float)) : Permutation (sorted_desc l) l.
Proof.
  induction l as [|x l IH]; simpl.
  - reflexivity.
  - rewrite insert_desc_perm. now constructor.
Qed.

Lemma filter_perm {A : Type} (p : A -> bool) (l l' : list A) :
  Permutation l l' -> Permutation (filter p l) (filter p l').
Proof.
  induction 1 as [|x l l' _ IH|x y l|l l' l'' _ IH1 _ IH2]; simpl.
  - reflexivity.
  - destruct (p x); [now constructor | assumption].
  - destruct (p x), (p y); try reflexivity. apply perm_swap.
  - now transitivity (filter p l').
Qed.

Variables (total min_ratio : float).

(** With a total that is not zero no division raises, and the loop
    splits the items into those it stores and those it adds up. *)
Lemma group_loop_split (items : list (str * float)) (big : dict float) (other_sum : float) :
  (total =? 0)%float = false ->
  group_loop total min_ratio items big other_sum
  = Ok (store_all (filter (fun kv => negb (is_small total min_ratio (snd kv))) items) big,
        fold_left PrimFloat.add
          (map snd (filter (fun kv => is_small total min_ratio (snd kv)) items)) other_sum).
Proof.
  intros Ht. revert big other_sum.
  induction items as [|[k v] items IH]; intros big other_sum.
  - reflexivity.
  - cbn [group_loop filter snd]. unfold PyFloat.div. rewrite (abs_nonzero total Ht).
    cbn [bind]. fold (is_small total min_ratio v).
    destruct (is_small total min_ratio v); cbn [negb map fold_left snd]; apply IH.
Qed.

End GroupSmallSpec.

Section GroupSmallClaims.

(** C5. When the values of the mapping sum to zero, and also when the
    mapping is empty, [group_small] returns its input as it is; no
    division takes place, so none by zero. *)
Theorem group_small_zero_total (float_sum : list float -> float)
  (totals : dict float) (min_ratio : float) (other_name : str) :
  (float_sum (dict_values totals) =? 0)%float = true \/ totals = [] ->
  group_small float_sum totals min_ratio other_name = Ok totals.
Proof.
  unfold group_small. intros [H | ->].
  - now rewrite H.
  - destruct (float_sum (dict_values []) =? 0)%float; reflexivity.
Qed.

Lemma group_small_zero_total_witness :
  group_small PyFloat.sum_left [] 0.03 (py "Other") = Ok []
  /\ group_small PyFloat.sum_left [(py "A", 0%float); (py "B", (-0)%float)] 0.03 (py "Other")
     = Ok [(py "A", 0%float); (py "B", (-0)%float)]
  /\ group_small PyFloat.sum_left [(py "A", 5%float); (py "B", (-5)%float)] 1 (py "Other")
     = Ok [(py "A", 5%float); (py "B", (-5)%float)].
Proof.
  split; [|split]; apply group_small_zero_total.
  - now right.
  - left. reflexivity.
  - left. reflexivity.
Defined.

(** C3 fails as stated in two ways. A category that bears the name of
    the bucket and is above the threshold does not pass through
    unchanged: the folded sum is added to it. And when the folded values
    cancel (their sum is within 1e-12 of zero) they are dropped and the
    result has no bucket at all. *)
Lemma group_small_counterexample :
  let t1 : dict float := [(py "Other", 90%float); (py "B", 5%float); (py "C", 5%float)] in
  let t2 : dict float := [(py "A", 100%float); (py "B", 1%float); (py "C", (-1)%float)] in
  is_small (PyFloat.sum_left (dict_values t1)) 0.08 90 = false
  /\ group_small PyFloat.sum_left t1 0.08 (py "Other") = Ok [(py "Other", 100%float)]
  /\ is_small (PyFloat.sum_left (dict_values t2)) 0.03 1 = true
  /\ is_small (PyFloat.sum_left (dict_values t2)) 0.03 (-1) = true
  /\ group_small PyFloat.sum_left t2 0.03 (py "Other") = Ok [(py "A", 100%float)].
Proof. repeat split; vm_compute; reflexivity. Qed.

(** C3, amended. For a mapping whose total is not zero, [group_small]
    returns a mapping in which
    - the folded categories are exactly those whose ratio is below
      [min_ratio], and their values are added up from 0, the largest
      first;
    - every other category than the one named [other_name] is bound to
      its value when its ratio is at or above [min_ratio], and is absent
      otherwise;
    - [other_name] is bound to the folded sum, added to the value of a
      category of that name at or above the threshold if there is one,
      when the magnitude of the folded sum exceeds 1e-12; otherwise it is
      bound as any other category is.
    In particular the mapping A:90, B:5, C:5 with [min_ratio] 0.08 gives
    A:90, Other:10. *)
Theorem group_small_spec :
  (forall (float_sum : list float -> float)
          (totals : dict float) (min_ratio : float) (other_name : str),
      NoDup (map fst totals) ->
      (float_sum (dict_values totals) =? 0)%float = false ->
      let total := float_sum (dict_values totals) in
      let folded :=
        filter (fun kv => is_small total min_ratio (snd kv)) (sorted_desc totals) in
      let other_sum := PyFloat.sum_left (map snd folded) in
      exists out,
        group_small float_sum totals min_ratio other_name = Ok out
        /\ Permutation folded
             (filter (fun kv => is_small total min_ratio (snd kv)) totals)
        /\ (forall k, k <> other_name ->
              dict_get k out = kept total min_ratio totals k)
        /\ dict_get other_name out
           = if above_epsilon other_sum
             then Some (match kept total min_ratio totals other_name with
                        | Some v => v
                        | None => 0
                        end + other_sum)%float
             else kept total min_ratio totals other_name)
  /\ group_small PyFloat.sum_left
       [(py "A", 90%float); (py "B", 5%float); (py "C", 5%float)] 0.08 (py "Other")
     = Ok [(py "A", 90%float); (py "Other", 10%float)].
Proof.
  split; [|vm_compute; reflexivity].
  intros float_sum totals min_ratio other_name Hnd Ht total folded other_sum.
  set (small := fun kv : str * float => is_small total min_ratio (snd kv)).
  set (big := store_all (filter (fun kv => negb (small kv)) (sorted_desc totals)) []).
  fold small in folded.
  assert (Hbig : forall k, dict_get k big = kept total min_ratio totals k).
  { intros k. apply option_ext. intros v. unfold big.
    rewrite dict_get_store_all. simpl.
    assert (Hnd' : NoDup (map fst (rev (filter (fun kv => negb (small kv)) (sorted_desc totals))))).
    { rewrite map_rev. apply (Permutation_NoDup (Permutation_rev _)).
      apply NoDup_keys_filter.
      apply (Permutation_NoDup (Permutation_map fst (Permutation_sym (sorted_desc_perm totals)))).
      exact Hnd. }
    transitivity (In (k, v) (rev (filter (fun kv => negb (small kv)) (sorted_desc totals)))).
    { rewrite <- (dict_get_In k v _ Hnd').
      destruct (dict_get k (rev _)); split; congruence. }
    rewrite <- in_rev, filter_In.
    assert (Hin : In (k, v) (sorted_desc totals) <-> In (k, v) totals).
    { split; apply Permutation_in;
        [apply sorted_desc_perm | apply Permutation_sym, sorted_desc_perm]. }
    rewrite Hin.
    rewrite <- (dict_get_In k v totals Hnd).
    unfold kept, small. simpl. split.
    - intros [-> Hs]. apply negb_true_iff in Hs. now rewrite Hs.
    - destruct (dict_get k totals) as [v'|]; [|discriminate].
      destruct (is_small total min_ratio v') eqn:Es; [discriminate|].
      intros [= ->]. rewrite Es. now split. }
  unfold group_small. rewrite Ht. fold total.
  rewrite (group_loop_split total min_ratio _ [] 0%float Ht). cbn [bind].
  fold small. fold big. change (fold_left PrimFloat.add _ 0%float) with other_sum.
  destruct (above_epsilon other_sum) eqn:Eeps.
  - eexists. split; [reflexivity|]. split; [|split].
    + apply filter_perm, sorted_desc_perm.
    + intros k Hk. rewrite dict_get_set.
      apply str_eqb_neq in Hk. rewrite Hk. apply Hbig.
    + rewrite dict_get_set, str_eqb_refl. unfold dict_get_default.
      now rewrite Hbig.
  - eexists. split; [reflexivity|]. split; [|split].
    + apply filter_perm, sorted_desc_perm.
    + intros k _. apply Hbig.
    + apply Hbig.
Qed.

Lemma group_small_spec_witness :
  exists out,
    group_small PyFloat.sum_left
      [(py "Rent", 800%float); (py "Food", 190%float); (py "Other", 100%float);
       (py "Tea", 6%float); (py "Gum", 4%float)] 0.03 (py "Other") = Ok out
    /\ dict_get (py "Rent") out = Some 800%float
    /\ dict_get (py "Tea") out = None
    /\ dict_get (py "Other") out = Some 110%float.
Proof.
  pose (t := [(py "Rent", 800%float); (py "Food", 190%float); (py "Other", 100%float);
              (py "Tea", 6%float); (py "Gum", 4%float)] : dict float).
  destruct (proj1 group_small_spec PyFloat.sum_left t 0.03%float (py "Other")) as (out & Hout & _ & Hk & Ho).
  - vm_compute. repeat constructor; simpl; intuition discriminate.
  - vm_compute. reflexivity.
  - exists out. split; [exact Hout|]. split; [|split].
    + rewrite Hk by discriminate. vm_compute. reflexivity.
    + rewrite Hk by discriminate. vm_compute. reflexivity.
    + rewrite Ho. vm_compute. reflexivity.
Defined.

End GroupSmallClaims.

(** ** The reader, line by line and character by character *)

Section ReaderFusion.

Import PyCsv.

Lemma process_line_app (r : reader) (a b : str) :
  process_line r (a ++ b) = (r' <- process_chars r a ;; process_line r' b).
Proof.
  revert r. induction a as [|c a IH]; intros r; simpl.
  - reflexivity.
  - destruct (process_char r (Some c)) as [r1|e]; simpl; [apply IH | reflexivity].
Qed.

Lemma process_chars_snoc (r : reader) (a : str) (c : ascii) :
  process_chars r (a ++ [c]) = (r' <- process_chars r a ;; process_char r' (Some c)).
Proof.
  revert r. induction a as [|d a IH]; intros r; simpl.
  - now destruct (process_char r (Some c)).
  - destruct (process_char r (Some d)) as [r1|e]; simpl; [apply IH | reflexivity].
Qed.

(** The line being read is the head of the first line delivered. *)
Lemma readlines_first (s : str) (cur : str) :
  cur <> [] -> exists l more, readlines cur s = (cur ++ l) :: more.
Proof.
  revert cur. induction s as [|c t IH]; intros cur Hne; simpl.
  - destruct cur as [|d cur']; [contradiction|].
    exists [], []. now rewrite app_nil_r.
  - destruct (line_ends c t).
    + now exists [c], (readlines [] t).
    + destruct (IH (cur ++ [c])) as (l & more & E).
      { now destruct cur. }
      exists (c :: l), more. rewrite E. now rewrite <- app_assoc.
Qed.

(** An error inside the line being read is the error of the
    iteration. *)
Lemma iterate_error (s : str) (cur : str) (r0 : reader) (e : exn) :
  process_chars r0 cur = Raise e ->
  iterate r0 (readlines cur s) = Fail e.
Proof.
  intros H. assert (Hne : cur <> []) by (intros ->; discriminate).
  destruct (readlines_first s cur Hne) as (l & more & ->).
  simpl. now rewrite process_line_app, H.
Qed.

(** Reading line by line from the state [r0] at the start of the line,
    with [cur] already seen, is reading character by character from the
    state reached after [cur]. *)
Lemma iterate_read_rows (s : str) (cur : str) (r0 r : reader) :
  process_chars r0 cur = Ok r ->
  iterate r0 (readlines cur s)
  = read_rows r (match cur with [] => true | _ :: _ => false end) s.
Proof.
  revert cur r0 r. induction s as [|c t IH]; intros cur r0 r Hcur.
  - destruct cur as [|d cur'].
    + simpl in *. now injection Hcur as ->.
    + cbn [readlines iterate read_rows].
      rewrite <- (app_nil_r (d :: cur')), process_line_app, Hcur.
      cbn [bind process_line]. unfold end_of_line.
      destruct (process_char r None) as [r'|e]; [|reflexivity].
      destruct (st r'); reflexivity.
  - cbn [readlines read_rows].
    destruct (process_char r (Some c)) as [r1|e] eqn:Ec.
    + destruct (line_ends c t).
      * cbn [iterate]. rewrite process_line_app, Hcur. cbn [bind process_line].
        rewrite Ec. cbn [bind]. unfold end_of_line.
        destruct (process_char r1 None) as [r2|e]; [|reflexivity].
        destruct (st r2); try (apply (IH [] r2 r2); reflexivity).
        f_equal. apply (IH [] parse_reset parse_reset). reflexivity.
      * rewrite (IH (cur ++ [c]) r0 r1).
        -- now destruct cur.
        -- now rewrite process_chars_snoc, Hcur.
    + assert (Herr : process_chars r0 (cur ++ [c]) = Raise e).
      { now rewrite process_chars_snoc, Hcur. }
      destruct (line_ends c t).
      * cbn [iterate].
        rewrite <- (app_nil_r (cur ++ [c])), process_line_app, Herr. reflexivity.
      * now apply iterate_error.
Qed.

Lemma reader_of_read_rows (content : str) :
  reader_of content = read_rows parse_reset true content.
Proof.
  unfold reader_of. now apply (iterate_read_rows content [] parse_reset parse_reset).
Qed.

End ReaderFusion.

(** ** read_csv_totals *)

Section ReadCsvTotals.

Lemma isspace_lower_char (c : ascii) : isspace (lower_char c) = isspace c.
Proof.
  destruct c as [[] [] [] [] [] [] [] []]; reflexivity.
Qed.

Lemma forallb_isspace_lower (s : str) : forallb isspace (lower s) = forallb isspace s.
Proof.
  induction s as [|c s IH]; simpl; [reflexivity|].
  now rewrite isspace_lower_char, IH.
Qed.

Lemma lstrip_spaces (pre s : str) : forallb isspace pre = true -> lstrip (pre ++ s) = lstrip s.
Proof.
  induction pre as [|c pre IH]; simpl; [reflexivity|].
  intros H. apply andb_true_iff in H as [Hc Hpre]. rewrite Hc. auto.
Qed.

Lemma forallb_rev {A : Type} (p : A -> bool) (l : list A) :
  forallb p (rev l) = forallb p l.
Proof.
  induction l as [|x l IH]; simpl; [reflexivity|].
  rewrite forallb_app, IH. simpl. rewrite andb_true_r. apply andb_comm.
Qed.

(** Stripping removes the padding around a word that starts and ends
    with a character that is no white space. *)
Lemma strip_padded (pre post body : str) (a z : ascii) (mid : str) :
  forallb isspace pre = true ->
  forallb isspace post = true ->
  body = a :: mid ->
  rev body = z :: rev (removelast body) ->
  isspace a = false ->
  isspace z = false ->
  strip (pre ++ body ++ post) = body.
Proof.
  intros Hpre Hpost Hb Hr Ha Hz. unfold strip, rstrip.
  rewrite lstrip_spaces by assumption.
  assert (E1 : lstrip (body ++ post) = body ++ post).
  { rewrite Hb. simpl. now rewrite Ha. }
  rewrite E1, rev_app_distr, lstrip_spaces by now rewrite forallb_rev.
  rewrite Hr. simpl. rewrite Hz. rewrite <- Hr. apply rev_involutive.
Qed.

Lemma lower_length (s : str) : List.length (lower s) = List.length s.
Proof. apply length_map. Qed.

(** A header that spells "category" or "amount" is normalized to it. *)
Lemma spells_normalized (name header : str) :
  name = py "category" \/ name = py "amount" ->
  spells name header -> strip (lower header) = name.
Proof.
  intros Hname (pre & body & post & -> & Hpre & Hpost & Hbody).
  unfold lower. rewrite !map_app. fold (lower pre) (lower body) (lower post).
  rewrite Hbody.
  destruct Hname as [-> | ->].
  - eapply (strip_padded _ _ _ "c" "y"); try reflexivity;
      now rewrite forallb_isspace_lower.
  - eapply (strip_padded _ _ _ "a" "t"); try reflexivity;
      now rewrite forallb_isspace_lower.
Qed.

Lemma header_columns_snoc (l : list str) (c : str) :
  header_columns (l ++ [c]) = dict_set (strip (lower c)) c (header_columns l).
Proof. unfold header_columns. now rewrite fold_left_app. Qed.

(** The column chosen for a normalized name is a header cell with that
    normalized name (the last one, if several have it). *)
Lemma header_columns_get (fieldnames : list str) (name : str) :
  (exists c, In c fieldnames /\ strip (lower c) = name) ->
  exists col,
    dict_get name (header_columns fieldnames) = Some col
    /\ In col fieldnames /\ strip (lower col) = name.
Proof.
  induction fieldnames as [|c l IH] using rev_ind; intros (c0 & Hin & Hn).
  - contradiction.
  - rewrite header_columns_snoc, dict_get_set.
    destruct (str_eqb name (strip (lower c))) eqn:E.
    + apply str_eqb_eq in E. exists c. repeat split; [|now symmetry].
      apply in_or_app. right. now left.
    + apply str_eqb_neq in E. apply in_app_or in Hin as [Hin | [-> | []]].
      * destruct IH as (col & Hg & Hc & Hcn); [now exists c0|].
        exists col. repeat split; try assumption. apply in_or_app. now left.
      * exfalso. apply E. now symmetry.
Qed.

(** The reader fails with [csv.Error] only. *)
Lemma process_char_error (r : PyCsv.reader) (c : option ascii) (e : exn) :
  PyCsv.process_char r c = Raise e -> e = CsvError.
Proof.
  unfold PyCsv.process_char, PyCsv.start_field, PyCsv.parse_add_char.
  destruct (PyCsv.st r), c as [ch|];
    repeat match goal with
           | |- context [if ?b then _ else _] => destruct b
           end;
    simpl; congruence.
Qed.

Lemma at_eof_failure (r : PyCsv.reader) : failure (PyCsv.at_eof r) = None.
Proof.
  unfold PyCsv.at_eof. destruct (PyCsv.field r), (PyCsv.st r); reflexivity.
Qed.

Lemma end_of_line_failure (r : PyCsv.reader) (more : PyCsv.reader -> PyCsv.rows) (e : exn) :
  (forall r', failure (more r') = Some e -> e = CsvError) ->
  failure (end_of_line r more) = Some e -> e = CsvError.
Proof.
  intros Hmore. unfold end_of_line.
  destruct (PyCsv.process_char r None) as [r'|e'] eqn:E.
  - destruct (PyCsv.st r'); simpl; apply Hmore.
  - simpl. intros [= <-]. eapply process_char_error; eassumption.
Qed.

Lemma read_rows_failure (s : str) (r : PyCsv.reader) (fresh : bool) (e : exn) :
  failure (read_rows r fresh s) = Some e -> e = CsvError.
Proof.
  revert r fresh. induction s as [|c t IH]; intros r fresh; simpl.
  - destruct fresh.
    + now rewrite at_eof_failure.
    + apply end_of_line_failure. intros r'. now rewrite at_eof_failure.
  - destruct (PyCsv.process_char r (Some c)) as [r1|e1] eqn:E.
    + destruct (PyCsv.line_ends c t).
      * apply end_of_line_failure. intros r'. apply IH.
      * apply IH.
    + simpl. intros [= <-]. eapply process_char_error; eassumption.
Qed.

Lemma parse_amount_raises (raw : option str) (e : exn) :
  parse_amount raw = Raise e -> e = ValueError AmountEmpty \/ e = ValueError FloatSyntax.
Proof.
  unfold parse_amount.
  destruct (replace "," [] (strip (PyCsv.or_empty raw))) as [|c s]; [intros [= <-]; now left|].
  destruct (PyFloat.of_str (c :: s)); [discriminate|]. intros [= <-]. now right.
Qed.


Lemma row_get_no_cells (k : str) (names : list str) :
  PyCsv.row_get k (PyCsv.zip_row names []) = None.
Proof.
  induction names as [|n ns IH]; simpl; [reflexivity|].
  destruct (existsb _ _); [assumption|]. now destruct (str_eqb k n).
Qed.

(** The errors of the aggregation loop: those of [parse_amount] and
    that of the reader. *)
Lemma sum_rows_raises (fieldnames : list str) (cat_col amt_col : str)
  (data : PyCsv.rows) (totals : dict float) (e : exn) :
  sum_rows fieldnames cat_col amt_col data totals = Raise e ->
  e = ValueError AmountEmpty \/ e = ValueError FloatSyntax \/ failure data = Some e.
Proof.
  revert totals. induction data as [|cells rest IH|e']; intros totals; simpl.
  - discriminate.
  - destruct cells as [|c cs]; [apply IH|].
    destruct (strip _) as [|a cat]; [apply IH|].
    destruct (parse_amount _) as [amt|e1] eqn:Ep; simpl.
    + apply IH.
    + intros [= <-]. destruct (parse_amount_raises _ _ Ep); auto.
  - intros [= <-]. auto.
Qed.



Lemma read_csv_totals_columns
  (fs : filesystem) (path : str) (content : str)
  (fieldnames : list str) (data : PyCsv.rows) (cat_col amt_col : str) :
  fs path = Some content ->
  PyCsv.reader_of content = PyCsv.Row fieldnames data ->
  dict_get (py "category") (header_columns fieldnames) = Some cat_col ->
  dict_get (py "amount") (header_columns fieldnames) = Some amt_col ->
  read_csv_totals fs path = totals_of_rows fieldnames cat_col amt_col data.
Proof.
  intros Hfs Hrd Hcat Hamt. unfold read_csv_totals. rewrite Hfs, Hrd.
  destruct fieldnames as [|f l]; [discriminate|].
  now rewrite Hcat, Hamt.
Qed.



(** C10. When the header has a cell that spells "category" and a cell
    that spells "amount", each with any casing and any white space
    around it, [read_csv_totals] accepts the file: it fails neither for
    a missing header nor for missing columns, and its result is the
    aggregation of the data rows over two header cells with those
    spellings. *)
Theorem read_csv_totals_header_spelling
  (fs : filesystem) (path : str) (content : str)
  (fieldnames : list str) (data : PyCsv.rows) :
  fs path = Some content ->
  PyCsv.reader_of content = PyCsv.Row fieldnames data ->
  (exists c, In c fieldnames /\ spells (py "category") c) ->
  (exists c, In c fieldnames /\ spells (py "amount") c) ->
  exists cat_col amt_col,
    In cat_col fieldnames /\ strip (lower cat_col) = py "category"
    /\ In amt_col fieldnames /\ strip (lower amt_col) = py "amount"
    /\ read_csv_totals fs path = totals_of_rows fieldnames cat_col amt_col data
    /\ read_csv_totals fs path <> Raise (ValueError NoHeaderRow)
    /\ read_csv_totals fs path <> Raise (ValueError MissingColumns).
Proof.
  intros Hfs Hrd (c1 & Hin1 & Hs1) (c2 & Hin2 & Hs2).
  destruct (header_columns_get fieldnames (py "category")) as (cat_col & Hg1 & Hc1 & Hn1).
  { exists c1. split; [assumption|]. apply spells_normalized; auto. }
  destruct (header_columns_get fieldnames (py "amount")) as (amt_col & Hg2 & Hc2 & Hn2).
  { exists c2. split; [assumption|]. apply spells_normalized; auto. }
  exists cat_col, amt_col.
  pose proof (read_csv_totals_columns _ _ _ _ _ _ _ Hfs Hrd Hg1 Hg2) as E.
  repeat split; try assumption.
  - rewrite E. unfold totals_of_rows.
    destruct (sum_rows _ _ _ _ _) as [totals|e] eqn:Es; simpl.
    + destruct (filter _ totals); discriminate.
    + intros [= ->]. apply sum_rows_raises in Es as [H | [H | H]]; try discriminate.
      rewrite reader_of_read_rows in Hrd.
      assert (Hf : failure (read_rows PyCsv.parse_reset true content)
                   = Some (ValueError NoHeaderRow)) by now rewrite Hrd.
      apply read_rows_failure in Hf. discriminate.
  - rewrite E. unfold totals_of_rows.
    destruct (sum_rows _ _ _ _ _) as [totals|e] eqn:Es; simpl.
    + destruct (filter _ totals); discriminate.
    + intros [= ->]. apply sum_rows_raises in Es as [H | [H | H]]; try discriminate.
      rewrite reader_of_read_rows in Hrd.
      assert (Hf : failure (read_rows PyCsv.parse_reset true content)
                   = Some (ValueError MissingColumns)) by now rewrite Hrd.
      apply read_rows_failure in Hf. discriminate.
Qed.

Lemma read_csv_totals_header_spelling_witness :
  let fs : filesystem := fun _ => Some report_with_padded_header in
  (exists cat_col amt_col,
      In cat_col [py "Date"; py " AMOUNT "; py "Category"]
      /\ strip (lower cat_col) = py "category"
      /\ In amt_col [py "Date"; py " AMOUNT "; py "Category"]
      /\ strip (lower amt_col) = py "amount"
      /\ read_csv_totals fs (py "expenses.csv")
         = totals_of_rows [py "Date"; py " AMOUNT "; py "Category"] cat_col amt_col
             (PyCsv.Row [py "2025-12-15"; py "10"; py "Food"]
                (PyCsv.Row [py "2025-12-16"; py "5"; py "Food"]
                   (PyCsv.Row [py "2025-12-17"; py "3"; py "Transport"] PyCsv.Stop)))
      /\ read_csv_totals fs (py "expenses.csv") <> Raise (ValueError NoHeaderRow)
      /\ read_csv_totals fs (py "expenses.csv") <> Raise (ValueError MissingColumns))
  /\ read_csv_totals fs (py "expenses.csv")
     = Ok [(py "Food", 15%float); (py "Transport", 3%float)].
Proof.
  intros fs. split; [|vm_compute; reflexivity].
  apply (read_csv_totals_header_spelling fs (py "expenses.csv") report_with_padded_header).
  - reflexivity.
  - vm_compute. reflexivity.
  - exists (py "Category"). split; [simpl; auto|].
    exists [], (py "Category"), []. repeat split.
  - exists (py " AMOUNT "). split; [simpl; auto|].
    exists (py " "), (py "AMOUNT"), (py " "). repeat split.
Defined.

End ReadCsvTotals.

(** ** The csv reader on what the csv writer wrote *)

Section CsvRoundTrip.

Import PyCsv.

Lemma steps_nil (r : reader) : steps r [] r.
Proof. intros fresh rest. now exists fresh. Qed.

Lemma steps_app (r r1 r2 : reader) (a b : str) :
  steps r a r1 -> steps r1 b r2 -> steps r (a ++ b) r2.
Proof.
  intros Ha Hb fresh rest. rewrite <- app_assoc.
  destruct (Ha fresh (b ++ rest)) as (f1 & ->). apply Hb.
Qed.

Lemma line_ends_plain (c : ascii) (rest : str) :
  is_newline c = false -> line_ends c rest = false.
Proof.
  unfold is_newline, line_ends. intros H.
  apply orb_false_iff in H as [-> ->]. reflexivity.
Qed.

(** One character: the parser takes its step, and the end of a line
    after it, if there is one, changes nothing inside a quoted field. *)
Lemma steps_one (r r1 : reader) (c : ascii) :
  process_char r (Some c) = Ok r1 ->
  is_newline c = false \/ st r1 = IN_QUOTED_FIELD ->
  steps r [c] r1.
Proof.
  intros Hp Hc fresh rest. simpl. rewrite Hp.
  destruct (line_ends c rest) eqn:El.
  - destruct Hc as [Hc | Hc].
    + now rewrite line_ends_plain in El.
    + exists true. unfold end_of_line, process_char. rewrite Hc.
      cbv beta iota. now rewrite Hc.
  - now exists false.
Qed.

Lemma special_false (c : ascii) :
  special c = false ->
  Ascii.eqb c DELIMITER = false /\ Ascii.eqb c QUOTE = false /\ is_newline c = false.
Proof.
  unfold special, is_newline. intros H.
  apply orb_false_iff in H as [H Hlf]. apply orb_false_iff in H as [H Hcr].
  apply orb_false_iff in H as [Hd Hq]. now rewrite Hd, Hq, Hcr, Hlf.
Qed.

Lemma parse_add_char_ok (r : reader) (c : ascii) :
  len (field r) < field_limit ->
  parse_add_char r c = Ok (mk (st r) (fields r) (field r ++ [c])).
Proof.
  intros H. unfold parse_add_char.
  destruct (field_limit <=? len (field r)) eqn:E; [|reflexivity].
  apply Z.leb_le in E. lia.
Qed.

Lemma len_app (a b : str) : len (a ++ b) = len a + len b.
Proof. unfold len. rewrite length_app. lia. Qed.

Lemma len_cons (c : ascii) (s : str) : len (c :: s) = 1 + len s.
Proof. unfold len. simpl List.length. lia. Qed.

Lemma len_nonneg (s : str) : 0 <= len s.
Proof. unfold len. lia. Qed.

(** The characters of an unquoted field, inside the field. *)
Lemma plain_run (f : str) (fl : list str) (fd : str) :
  needs_quote f = false ->
  len fd + len f <= field_limit ->
  steps (mk IN_FIELD fl fd) f (mk IN_FIELD fl (fd ++ f)).
Proof.
  revert fd. induction f as [|c f IH]; intros fd Hq Hlen.
  - rewrite app_nil_r. apply steps_nil.
  - unfold needs_quote in Hq. simpl in Hq. apply orb_false_iff in Hq as [Hc Hf].
    destruct (special_false c Hc) as (Hd & _ & Hn).
    rewrite len_cons in Hlen. pose proof (len_nonneg f).
    apply steps_app with (a := [c]) (b := f) (r1 := mk IN_FIELD fl (fd ++ [c])).
    + apply steps_one; [|now left].
      unfold process_char. simpl. rewrite Hn, Hd.
      apply (parse_add_char_ok (mk IN_FIELD fl fd)). simpl. lia.
    + replace (fd ++ c :: f) with ((fd ++ [c]) ++ f) by now rewrite <- app_assoc.
      apply IH; [exact Hf|]. rewrite len_app. change (len [c]) with 1. lia.
Qed.

(** The characters of a quoted field, quotes doubled, inside the
    quotes. *)
Lemma quoted_run (f : str) (fl : list str) (fd : str) :
  len fd + len f <= field_limit ->
  steps (mk IN_QUOTED_FIELD fl fd) (double_quotes f) (mk IN_QUOTED_FIELD fl (fd ++ f)).
Proof.
  revert fd. induction f as [|c f IH]; intros fd Hlen.
  - rewrite app_nil_r. apply steps_nil.
  - rewrite len_cons in Hlen. pose proof (len_nonneg f).
    assert (Hadd : parse_add_char (mk IN_QUOTED_FIELD fl fd) c
                   = Ok (mk IN_QUOTED_FIELD fl (fd ++ [c]))).
    { apply (parse_add_char_ok (mk IN_QUOTED_FIELD fl fd)). simpl. lia. }
    assert (Hadd' : parse_add_char (mk QUOTE_IN_QUOTED_FIELD fl fd) c
                    = Ok (mk QUOTE_IN_QUOTED_FIELD fl (fd ++ [c]))).
    { apply (parse_add_char_ok (mk QUOTE_IN_QUOTED_FIELD fl fd)). simpl. lia. }
    unfold double_quotes. simpl flat_map. fold (double_quotes f).
    replace (fd ++ c :: f) with ((fd ++ [c]) ++ f) by now rewrite <- app_assoc.
    apply steps_app with (r1 := mk IN_QUOTED_FIELD fl (fd ++ [c])).
    + destruct (Ascii.eqb c QUOTE) eqn:Ec.
      * apply Ascii.eqb_eq in Ec. subst c.
        apply steps_app with (a := [QUOTE]) (b := [QUOTE])
                             (r1 := mk QUOTE_IN_QUOTED_FIELD fl fd).
        -- apply steps_one; [reflexivity | now left].
        -- apply steps_one; [|now left].
           unfold process_char. simpl st. cbv iota.
           rewrite Ascii.eqb_refl, Hadd'. reflexivity.
      * apply steps_one; [|now right].
        unfold process_char. simpl st. cbv iota. now rewrite Ec.
    + apply IH. rewrite len_app. change (len [c]) with 1. lia.
Qed.

(** A written field, read from the start of a field: its characters
    are in the buffer, and the parser is in a state that a delimiter or
    a line break ends the field from. *)
Lemma field_body (f : str) (s : state) (fl : list str) :
  s = START_FIELD \/ s = START_RECORD ->
  len f <= field_limit ->
  exists s',
    steps (mk s fl []) (quote_field f) (mk s' fl f)
    /\ (s' = IN_FIELD \/ s' = QUOTE_IN_QUOTED_FIELD \/ (s' = s /\ f = [])).
Proof.
  intros Hs Hlen. unfold quote_field. destruct (needs_quote f) eqn:Hq.
  - exists QUOTE_IN_QUOTED_FIELD. split; [|auto].
    apply steps_app with (a := [QUOTE]) (b := double_quotes f ++ [QUOTE])
                         (r1 := mk IN_QUOTED_FIELD fl []).
    { apply steps_one; [|now left]. destruct Hs as [-> | ->]; reflexivity. }
    apply steps_app with (r1 := mk IN_QUOTED_FIELD fl ([] ++ f)).
    { apply quoted_run. simpl. exact Hlen. }
    apply steps_one; [reflexivity | now left].
  - destruct f as [|c f].
    + exists s. split; [apply steps_nil | auto].
    + exists IN_FIELD. split; [|auto].
      unfold needs_quote in Hq. simpl in Hq. apply orb_false_iff in Hq as [Hc Hf].
      destruct (special_false c Hc) as (Hd & Hqu & Hn).
      rewrite len_cons in Hlen. pose proof (len_nonneg f).
      apply steps_app with (a := [c]) (b := f) (r1 := mk IN_FIELD fl [c]).
      * apply steps_one; [|now left].
        destruct Hs as [-> | ->]; unfold process_char, start_field; simpl;
          rewrite Hn, Hqu, Hd; reflexivity.
      * apply (plain_run f fl [c]); [exact Hf|]. change (len [c]) with 1. lia.
Qed.

(** A delimiter ends the field and starts the next one. *)
Lemma delimiter_step (s : state) (fl : list str) (fd : str) :
  s = IN_FIELD \/ s = QUOTE_IN_QUOTED_FIELD \/ (s = START_FIELD \/ s = START_RECORD) ->
  steps (mk s fl fd) [DELIMITER] (mk START_FIELD (fl ++ [fd]) []).
Proof.
  intros Hs. apply steps_one; [|now left].
  destruct Hs as [-> | [-> | [-> | ->]]]; reflexivity.
Qed.

(** The line terminator ends the field and the record. *)
Lemma terminator_step (s : state) (fl : list str) (fd : str) (fresh : bool) (rest : str) :
  s = IN_FIELD \/ s = QUOTE_IN_QUOTED_FIELD \/ s = START_FIELD ->
  read_rows (mk s fl fd) fresh (lineterminator ++ rest)
  = Row (fl ++ [fd]) (read_rows parse_reset true rest).
Proof.
  intros Hs. unfold lineterminator.
  destruct Hs as [-> | [-> | ->]]; simpl;
    unfold end_of_line; simpl; reflexivity.
Qed.

(** The fields of a record after the first, up to the end of the
    line. *)
Lemma read_fields (fs : list str) (fl : list str) (fresh : bool) (rest : str) :
  fs <> [] ->
  Forall (fun f => len f <= field_limit) fs ->
  read_rows (mk START_FIELD fl []) fresh (join_fields fs ++ lineterminator ++ rest)
  = Row (fl ++ fs) (read_rows parse_reset true rest).
Proof.
  revert fl fresh. induction fs as [|f fs IH]; intros fl fresh Hne Hall; [contradiction|].
  inversion Hall as [|? ? Hf Hfs]; subst.
  destruct (field_body f START_FIELD fl (or_introl eq_refl) Hf) as (s' & Hbody & Hs').
  destruct fs as [|g fs'].
  - simpl join_fields.
    destruct (Hbody fresh (lineterminator ++ rest)) as (fresh1 & ->).
    apply terminator_step. destruct Hs' as [-> | [-> | [-> _]]]; auto.
  - change (join_fields (f :: g :: fs'))
      with (quote_field f ++ DELIMITER :: join_fields (g :: fs')).
    rewrite <- app_assoc.
    destruct (Hbody fresh ((DELIMITER :: join_fields (g :: fs')) ++ lineterminator ++ rest))
      as (fresh1 & ->).
    change ((DELIMITER :: join_fields (g :: fs')) ++ lineterminator ++ rest)
      with ([DELIMITER] ++ (join_fields (g :: fs') ++ lineterminator ++ rest)).
    destruct (delimiter_step s' fl f) with (fresh := fresh1)
      (rest := join_fields (g :: fs') ++ lineterminator ++ rest) as (fresh2 & ->).
    { destruct Hs' as [-> | [-> | [-> _]]]; auto. }
    rewrite IH; [|discriminate|assumption].
    now rewrite <- app_assoc.
Qed.

(** A record of two fields or more, as the writer writes it, is read
    back as it was, and the reader goes on with what follows. *)
Lemma read_written_row (f g : str) (fs : list str) (rest : str) :
  Forall (fun x => len x <= field_limit) (f :: g :: fs) ->
  read_rows parse_reset true (writerow (f :: g :: fs) ++ rest)
  = Row (f :: g :: fs) (read_rows parse_reset true rest).
Proof.
  intros Hall. inversion Hall as [|? ? Hf Hrest]; subst.
  assert (Hw : writerow (f :: g :: fs)
               = quote_field f ++ [DELIMITER] ++ join_fields (g :: fs) ++ lineterminator).
  { unfold writerow.
    change (join_fields (f :: g :: fs))
      with (quote_field f ++ DELIMITER :: join_fields (g :: fs)).
    destruct (quote_field f ++ DELIMITER :: join_fields (g :: fs)) as [|c t] eqn:E.
    - destruct (quote_field f); discriminate.
    - rewrite <- E. rewrite <- app_assoc. reflexivity. }
  rewrite Hw. rewrite <- !app_assoc. unfold parse_reset at 1.
  destruct (field_body f START_RECORD [] (or_intror eq_refl) Hf) as (s' & Hbody & Hs').
  destruct (Hbody true ([DELIMITER] ++ join_fields (g :: fs) ++ lineterminator ++ rest))
    as (fresh1 & ->).
  destruct (delimiter_step s' [] f) with (fresh := fresh1)
    (rest := join_fields (g :: fs) ++ lineterminator ++ rest) as (fresh2 & ->).
  { destruct Hs' as [-> | [-> | [-> _]]]; auto. }
  rewrite read_fields; [reflexivity | discriminate | assumption].
Qed.

End CsvRoundTrip.

(** ** append_expense and read_last_n *)

Section AppendRead.

Lemma read_store_rows (rows : list (list str)) :
  Forall (fun cells => (2 <= List.length cells)%nat
                       /\ Forall (fun x => len x <= PyCsv.field_limit) cells) rows ->
  read_rows PyCsv.parse_reset true (flat_map PyCsv.writerow rows)
  = fold_right PyCsv.Row PyCsv.Stop rows.
Proof.
  induction rows as [|cells rows IH]; intros Hall.
  - reflexivity.
  - inversion Hall as [|? ? [Hlen Hcells] Hrows]; subst.
    destruct cells as [|f [|g fs]]; simpl in Hlen; try lia.
    change (flat_map PyCsv.writerow ((f :: g :: fs) :: rows))
      with (PyCsv.writerow (f :: g :: fs) ++ flat_map PyCsv.writerow rows).
    rewrite read_written_row by assumption.
    cbn [fold_right]. now rewrite IH.
Qed.

Lemma strip_or_empty_get (e : Expense) :
  storable e ->
  expense_of_row CSV_HEADERS (cells_of e) = e.
Proof.
  intros ((Hd & _) & (Ha & _) & (Hc & _) & (Hn & _)).
  destruct e as [d a c n]. unfold expense_of_row, cells_of. simpl in *.
  now rewrite Hd, Ha, Hc, Hn.
Qed.

Lemma collect_store_rows (es : list Expense) :
  Forall storable es ->
  collect_expenses CSV_HEADERS (fold_right PyCsv.Row PyCsv.Stop (map cells_of es)) = Ok es.
Proof.
  induction es as [|e es IH]; intros Hall.
  - reflexivity.
  - inversion Hall as [|? ? He Hes]; subst.
    simpl map. simpl fold_right.
    change (collect_expenses CSV_HEADERS (PyCsv.Row (cells_of e) ?r))
      with (es' <- collect_expenses CSV_HEADERS r ;;
            Ok (expense_of_row CSV_HEADERS (cells_of e) :: es')).
    rewrite IH by assumption. simpl. now rewrite strip_or_empty_get.
Qed.

(** The text of the store after some records were appended to a file
    that was missing or empty. *)
Lemma append_expense_fresh (fs : filesystem) (path : str) (e : Expense) :
  missing_or_empty fs path = true ->
  append_expense fs path e path = Some (store_text [e]).
Proof.
  intros H. unfold append_expense, ensure_csv_has_header. rewrite H.
  unfold append_file, write_file. rewrite str_eqb_refl. simpl PyCsv.or_empty.
  unfold store_text. simpl flat_map. now rewrite app_nil_r.
Qed.

Lemma append_expense_more (fs : filesystem) (path : str) (e : Expense) (es : list Expense) :
  fs path = Some (store_text es) ->
  append_expense fs path e path = Some (store_text (es ++ [e])).
Proof.
  intros H. unfold append_expense, ensure_csv_has_header, missing_or_empty. rewrite H.
  unfold store_text at 1. simpl.
  unfold append_file, write_file. rewrite str_eqb_refl, H. simpl PyCsv.or_empty.
  unfold store_text. rewrite flat_map_app. simpl flat_map.
  now rewrite app_nil_r, <- app_assoc.
Qed.

Lemma append_all_more (fs : filesystem) (path : str) (es0 es : list Expense) :
  fs path = Some (store_text es0) ->
  append_all fs path es path = Some (store_text (es0 ++ es)).
Proof.
  revert fs es0. induction es as [|e es IH]; intros fs es0 H.
  - simpl. now rewrite app_nil_r.
  - simpl. rewrite (IH _ (es0 ++ [e])).
    + now rewrite <- app_assoc.
    + now apply append_expense_more.
Qed.

Lemma append_all_fresh (fs : filesystem) (path : str) (e : Expense) (es : list Expense) :
  missing_or_empty fs path = true ->
  append_all fs path (e :: es) path = Some (store_text (e :: es)).
Proof.
  intros H. simpl. rewrite (append_all_more _ path [e] es); [reflexivity|].
  now apply append_expense_fresh.
Qed.

Lemma slice_from_all {A : Type} (l : list A) :
  slice_from (- Z.of_nat (List.length l)) l = l.
Proof.
  unfold slice_from.
  destruct (- Z.of_nat (List.length l) <? 0) eqn:E.
  - replace (Z.max (- Z.of_nat (List.length l) + Z.of_nat (List.length l)) 0) with 0 by lia.
    reflexivity.
  - apply Z.ltb_ge in E. replace (- Z.of_nat (List.length l)) with 0 by lia. reflexivity.
Qed.

Lemma read_store_text (fs : filesystem) (path : str) (e : Expense) (es : list Expense) :
  fs path = Some (store_text (e :: es)) ->
  Forall storable (e :: es) ->
  read_last_n fs path (Z.of_nat (List.length (e :: es))) = Ok (e :: es).
Proof.
  intros Hfs Hall. unfold read_last_n, missing_or_empty. rewrite Hfs.
  change (store_text (e :: es))
    with (PyCsv.writerow CSV_HEADERS ++ flat_map (fun x => PyCsv.writerow (cells_of x)) (e :: es)).
  unfold PyCsv.or_empty at 1.
  assert (Hne : exists c t, PyCsv.writerow CSV_HEADERS
                            ++ flat_map (fun x => PyCsv.writerow (cells_of x)) (e :: es) = c :: t).
  { eexists. eexists. reflexivity. }
  destruct Hne as (c & t & Hne). rewrite Hne at 1. simpl PyCsv.or_empty.
  rewrite reader_of_read_rows.
  rewrite (read_written_row (py "date") (py "amount") [py "category"; py "notes"]).
  2:{ repeat constructor; unfold len, PyCsv.field_limit; simpl; lia. }
  change [py "date"; py "amount"; py "category"; py "notes"] with CSV_HEADERS.
  replace (flat_map (fun x => PyCsv.writerow (cells_of x)) (e :: es))
    with (flat_map PyCsv.writerow (map cells_of (e :: es)))
    by (rewrite flat_map_concat_map, map_map, <- flat_map_concat_map; reflexivity).
  rewrite read_store_rows.
  2:{ apply Forall_map. eapply Forall_impl; [|exact Hall].
      intros x ((_ & H1) & (_ & H2) & (_ & H3) & (_ & H4)).
      split; [simpl; lia|]. unfold cells_of. repeat constructor; assumption. }
  cbv iota. unfold CSV_HEADERS at 1. cbv iota.
  change (existsb _ CSV_HEADERS) with false. cbv iota.
  rewrite collect_store_rows by assumption. cbn [bind].
  apply f_equal, slice_from_all.
Qed.

(** C2 fails as stated: [read_last_n] strips every cell, so a record
    with white space at an end of a field does not come back as it was
    appended. *)
Lemma append_then_read_counterexample :
  let e := mkExpense (py "2025-12-15") (py "120") (py "Food") (py " lunch") in
  let fs := append_expense (fun _ => None) (py "expenses.csv") e in
  read_last_n fs (py "expenses.csv") 1
  = Ok [mkExpense (py "2025-12-15") (py "120") (py "Food") (py "lunch")]
  /\ read_last_n fs (py "expenses.csv") 1 <> Ok [e].
Proof.
  split; [vm_compute; reflexivity | vm_compute; discriminate].
Qed.

(** C2, amended. Records whose fields carry no white space at either
    end (as the entry tool's prompts produce them) and are at most
    131072 characters long (the reader's field limit), appended one by
    one to a file that is missing or empty, are what
    [read_last_n(path, N)] returns for their number N, in the order
    they were appended. *)
Theorem append_then_read (fs : filesystem) (path : str) (es : list Expense) :
  fs path = None \/ fs path = Some [] ->
  Forall storable es ->
  read_last_n (append_all fs path es) path (Z.of_nat (List.length es)) = Ok es.
Proof.
  intros Hfs Hall.
  assert (Hm : missing_or_empty fs path = true).
  { unfold missing_or_empty. destruct Hfs as [-> | ->]; reflexivity. }
  destruct es as [|e es].
  - simpl. unfold read_last_n. now rewrite Hm.
  - apply read_store_text; [|assumption]. now apply append_all_fresh.
Qed.

Lemma append_then_read_witness :
  let e1 := mkExpense (py "2025-12-15") (py "120.5") (py "Food, drink") (py "lunch") in
  let e2 := mkExpense (py "2025-12-16") (py "3") (py "Bus") [] in
  read_last_n (append_all (fun _ => None) (py "expenses.csv") [e1; e2])
    (py "expenses.csv") 2 = Ok [e1; e2].
Proof.
  intros e1 e2.
  apply (append_then_read (fun _ => None) (py "expenses.csv") [e1; e2]).
  - now left.
  - repeat constructor; vm_compute; congruence.
Defined.

End AppendRead.

(** ** Stripping *)

Section Strip.

Lemma lstrip_no_lead (s : str) : no_lead (lstrip s) = true.
Proof.
  induction s as [|c s IH]; simpl; [reflexivity|].
  destruct (isspace c) eqn:E; [exact IH | simpl; now rewrite E].
Qed.

Lemma lstrip_fixed (s : str) : no_lead s = true -> lstrip s = s.
Proof.
  destruct s as [|c s]; simpl; [reflexivity|].
  intros H. apply negb_true_iff in H. now rewrite H.
Qed.

Lemma lstrip_suffix (s : str) :
  exists pre, s = pre ++ lstrip s /\ forallb isspace pre = true.
Proof.
  induction s as [|c s (pre & E & Hpre)]; simpl.
  - now exists [].
  - destruct (isspace c) eqn:Ec.
    + exists (c :: pre). simpl. rewrite Ec, Hpre. split; [now f_equal | reflexivity].
    + now exists [].
Qed.

Lemma no_lead_app (a b : str) : a <> [] -> no_lead (a ++ b) = no_lead a.
Proof. destruct a; [contradiction | reflexivity]. Qed.

(** A stripped string has no white space at either end. *)
Lemma strip_no_space (s : str) : no_lead (strip s) = true /\ no_lead (rev (strip s)) = true.
Proof.
  unfold strip, rstrip. rewrite rev_involutive.
  split; [|apply lstrip_no_lead].
  pose proof (lstrip_no_lead s) as Hl.
  destruct (lstrip_suffix (rev (lstrip s))) as (pre & E & _).
  pose proof (lstrip_no_lead (rev (lstrip s))) as Hr.
  destruct (lstrip (rev (lstrip s))) as [|c u] eqn:Eu; [reflexivity|].
  apply (f_equal (@rev ascii)) in E. rewrite rev_involutive, rev_app_distr in E.
  rewrite E in Hl. rewrite no_lead_app in Hl; [exact Hl|].
  simpl. now destruct (rev u).
Qed.

(** A string with no white space at either end is its own stripping. *)
Lemma strip_fixed (s : str) : no_lead s = true -> no_lead (rev s) = true -> strip s = s.
Proof.
  intros H1 H2. unfold strip, rstrip.
  now rewrite (lstrip_fixed s H1), (lstrip_fixed (rev s) H2), rev_involutive.
Qed.

Lemma strip_idempotent (s : str) : strip (strip s) = strip s.
Proof. destruct (strip_no_space s). now apply strip_fixed. Qed.

Lemma lstrip_blank (s : str) : forallb isspace s = true -> lstrip s = [].
Proof.
  intros H. rewrite <- (app_nil_r s). now rewrite lstrip_spaces.
Qed.

Lemma lstrip_nil (s : str) : lstrip s = [] -> forallb isspace s = true.
Proof.
  induction s as [|c s IH]; simpl; [reflexivity|].
  destruct (isspace c); [exact IH | discriminate].
Qed.

(** Stripping leaves nothing exactly of the strings of white space. *)
Lemma strip_nil (s : str) : strip s = [] <-> forallb isspace s = true.
Proof.
  unfold strip, rstrip. split.
  - intros H. apply (f_equal (@rev ascii)) in H. rewrite rev_involutive in H. simpl in H.
    apply lstrip_nil in H. rewrite forallb_rev in H.
    destruct (lstrip_suffix s) as (pre & E & Hpre).
    rewrite E, forallb_app, Hpre, H. reflexivity.
  - intros H. now rewrite (lstrip_blank s H).
Qed.

End Strip.

(** X. [normalize_category] refuses exactly the strings of white space (the empty one among
    them); of any other string it returns the stripping, which is not
    empty, has no white space at either end and is returned again when
    given back. *)
Theorem normalize_category_trims (s : str) :
  (forallb isspace s = true /\ normalize_category s = Raise (ValueError CategoryBlank))
  \/ (forallb isspace s = false
      /\ strip s <> []
      /\ normalize_category s = Ok (strip s)
      /\ normalize_category (strip s) = Ok (strip s)).
Proof.
  unfold normalize_category. rewrite strip_idempotent.
  destruct (strip s) as [|c t] eqn:E.
  - left. split; [now apply strip_nil | reflexivity].
  - right. repeat split; try discriminate.
    destruct (forallb isspace s) eqn:Eb; [|reflexivity].
    apply strip_nil in Eb. congruence.
Qed.

(** ** normalize_date on every input *)

Section NormalizeDateAll.

Import PyDatetime.

Lemma strip_padding (pre body post : str) :
  forallb isspace pre = true ->
  forallb isspace post = true ->
  body <> [] ->
  no_lead body = true ->
  no_lead (rev body) = true ->
  strip (pre ++ body ++ post) = body.
Proof.
  intros Hpre Hpost Hne H1 H2. unfold strip, rstrip.
  rewrite lstrip_spaces by assumption.
  rewrite (lstrip_fixed (body ++ post)) by now rewrite no_lead_app.
  rewrite rev_app_distr, lstrip_spaces by now rewrite forallb_rev.
  rewrite lstrip_fixed by assumption. apply rev_involutive.
Qed.

Lemma first_some_In {A : Type} (alts : list (option A)) (a : A) :
  first_some alts = Some a -> In (Some a) alts.
Proof.
  induction alts as [|[x|] alts IH]; simpl.
  - discriminate.
  - intros [= ->]. now left.
  - auto.
Qed.

Lemma after_month_hyphen (y m : Z) (c : ascii) (r : str) :
  after_month y m (c :: r)
  = if Ascii.eqb c "-"
    then match parse_day r with
         | Some (d, []) => if valid y m d then Some (mk y m d) else None
         | _ => None
         end
    else None.
Proof. destruct c as [[] [] [] [] [] [] [] []]; reflexivity. Qed.

Lemma after_month_valid (y m : Z) (s : str) (dt : t) :
  after_month y m s = Some dt -> valid (year dt) (month dt) (day dt) = true.
Proof.
  destruct s as [|c r]; [discriminate|]. rewrite after_month_hyphen.
  destruct (Ascii.eqb c "-"); [|discriminate].
  destruct (parse_day r) as [[d [|? ?]]|]; try discriminate.
  destruct (valid y m d) eqn:E; [|discriminate].
  now intros [= <-].
Qed.

Lemma parse_month_valid (y : Z) (s : str) (dt : t) :
  parse_month y s = Some dt -> valid (year dt) (month dt) (day dt) = true.
Proof.
  intros H. unfold parse_month in H. apply first_some_In in H. cbn [In] in H.
  destruct H as [H | [H | [H | []]]]; symmetry in H;
    destruct s as [|a [|b r]]; try discriminate;
    match type of H with
    | Some _ = (if ?c then _ else _) => destruct c; [|discriminate]
    end;
    symmetry in H; eapply after_month_valid; eassumption.
Qed.

Lemma strptime_hyphen (y1 y2 y3 y4 c : ascii) (r : str) :
  strptime (y1 :: y2 :: y3 :: y4 :: c :: r)
  = if Ascii.eqb c "-"
    then if forallb is_digit [y1; y2; y3; y4]
         then parse_month (Z.of_N (N_of_digits [y1; y2; y3; y4])) r
         else None
    else None.
Proof. destruct c as [[] [] [] [] [] [] [] []]; reflexivity. Qed.

(** [strptime] returns dates of the calendar only. *)
Lemma strptime_valid (s : str) (dt : t) :
  strptime s = Some dt -> valid (year dt) (month dt) (day dt) = true.
Proof.
  destruct s as [|y1 [|y2 [|y3 [|y4 [|c r]]]]]; try discriminate.
  rewrite strptime_hyphen.
  destruct (Ascii.eqb c "-"); [|discriminate].
  destruct (forallb is_digit _); [|discriminate].
  apply parse_month_valid.
Qed.

Lemma strftime_iso (dt : t) : strftime dt = iso_date "-" (year dt) (month dt) (day dt).
Proof. reflexivity. Qed.

(** What [normalize_date] returns is the hyphen spelling of a date of
    the calendar, when the clock shows one. *)
Lemma normalize_date_shape (now : t) (s out : str) :
  valid (year now) (month now) (day now) = true ->
  normalize_date now s = Ok out ->
  exists y m d, valid y m d = true /\ out = iso_date "-" y m d.
Proof.
  intros Hnow H. unfold normalize_date in H. destruct (strip s) as [|c t0]; [discriminate|].
  destruct (str_in _ _).
  - injection H as <-. exists (year now), (month now), (day now). now split.
  - destruct (strptime _) as [dt|] eqn:E; [|discriminate].
    injection H as <-. apply strptime_valid in E.
    exists (year dt), (month dt), (day dt). now split.
Qed.

(** X. Whatever [normalize_date] returns is the ten-character hyphen
    spelling of a date of the calendar, and [normalize_date] returns it
    again when given it back, at any reading of the clock. The clock is
    assumed to show a date of the calendar. *)
Theorem normalize_date_canonical (now now' : t) (s out : str) :
  valid (year now) (month now) (day now) = true ->
  normalize_date now s = Ok out ->
  (exists y m d, valid y m d = true /\ out = iso_date "-" y m d)
  /\ normalize_date now' out = Ok out.
Proof.
  intros Hnow H.
  pose proof (normalize_date_shape now s out Hnow H) as Hout.
  split; [exact Hout|].
  destruct Hout as (y & m & d & Hv & ->).
  apply normalize_date_iso; [now left | exact Hv].
Qed.

Lemma normalize_date_canonical_witness :
  (exists y m d, valid y m d = true /\ py "2026-11-04" = iso_date "-" y m d)
  /\ normalize_date (mk 2027 1 1) (py "2026-11-04") = Ok (py "2026-11-04").
Proof.
  apply (normalize_date_canonical (mk 2026 11 4) (mk 2027 1 1) (py " Today ")).
  - reflexivity.
  - reflexivity.
Defined.

End NormalizeDateAll.

Section NormalizeDateSpellings.

Import PyDatetime.

Lemma no_lead_of_lower (body : str) (a : ascii) (rest : str) :
  lower body = a :: rest -> isspace a = false -> no_lead body = true.
Proof.
  destruct body as [|c body]; [discriminate|]. simpl. intros [= <- _] H.
  rewrite isspace_lower_char in H. now rewrite H.
Qed.

Lemma lower_rev (s : str) : lower (rev s) = rev (lower s).
Proof. unfold lower. apply map_rev. Qed.

(** X. The word "today", or the letter "t", in any mix of upper and
    lower case and with any white space around it, is answered with the
    date on the clock: what else the input holds plays no part, and no
    error is raised. *)
Theorem normalize_date_today (now : t) (s : str) :
  spells (py "today") s \/ spells (py "t") s ->
  normalize_date now s = Ok (strftime now).
Proof.
  intros H.
  assert (Hs : exists body, strip s = body /\ body <> []
                            /\ str_in (lower body) [py "today"; py "t"] = true).
  { destruct H as [(pre & body & post & -> & Hpre & Hpost & Hb)
                  | (pre & body & post & -> & Hpre & Hpost & Hb)];
      exists body; (split; [|split]).
    - apply strip_padding; try assumption.
      + intros ->. discriminate.
      + now apply (no_lead_of_lower body "t" (py "oday")).
      + apply (no_lead_of_lower (rev body) "y" (py "adot")); [|reflexivity].
        now rewrite lower_rev, Hb.
    - intros ->. discriminate.
    - now rewrite Hb.
    - apply strip_padding; try assumption.
      + intros ->. discriminate.
      + now apply (no_lead_of_lower body "t" []).
      + apply (no_lead_of_lower (rev body) "t" []); [|reflexivity].
        now rewrite lower_rev, Hb.
    - intros ->. discriminate.
    - now rewrite Hb. }
  destruct Hs as (body & Hstrip & Hne & Hin).
  unfold normalize_date. rewrite Hstrip.
  destruct body as [|c body']; [contradiction|]. now rewrite Hin.
Qed.

Lemma normalize_date_today_witness :
  normalize_date (mk 2026 11 4) (py "  ToDay ") = Ok (py "2026-11-04")
  /\ normalize_date (mk 2026 11 4) (py "T") = Ok (py "2026-11-04").
Proof.
  split; apply normalize_date_today.
  - left. exists (py "  "), (py "ToDay"), (py " "). repeat split.
  - right. exists [], (py "T"), []. repeat split.
Defined.

Lemma lower_digit_char (k : Z) : 0 <= k <= 9 -> lower_char (digit_char k) = digit_char k.
Proof.
  intros H. assert (Hk : 0 <= k < Z.of_nat 10) by lia. clear H.
  pattern k. apply (Z_small_cases _ 10%nat); [|lia]. intros n Hn.
  do 10 (destruct n as [|n]; [reflexivity|]). exfalso; lia.
Qed.

(** A string that starts with a digit is neither "today" nor "t". *)
Lemma digit_not_today (k : Z) (rest : str) :
  0 <= k <= 9 -> str_in (lower (digit_char k :: rest)) [py "today"; py "t"] = false.
Proof.
  intros H. unfold str_in, lower. cbn [map existsb py list_ascii_of_string str_eqb].
  rewrite lower_digit_char by assumption.
  assert (E : Ascii.eqb (digit_char k) "t" = false) by now apply digit_char_not.
  now rewrite E.
Qed.

Lemma digit_bounds (n : Z) :
  0 <= n <= 99 -> 0 <= n / 10 <= 9 /\ 0 <= n mod 10 <= 9.
Proof.
  intros H. split.
  - split; [apply Z.div_pos; lia | apply Z.lt_succ_r, Z.div_lt_upper_bound; lia].
  - pose proof (Z.mod_pos_bound n 10). lia.
Qed.

(** The digits of a number written for [%m] or [%d]. *)
Lemma spells_number_digits (n : Z) (s : str) :
  1 <= n <= 99 -> spells_number n s ->
  exists k1 k2 mid,
    0 <= k1 <= 9 /\ 0 <= k2 <= 9
    /\ s = digit_char k1 :: mid /\ rev s = digit_char k2 :: rev (removelast s)
    /\ Forall (fun c => exists k, 0 <= k <= 9 /\ c = digit_char k) s.
Proof.
  intros Hn [-> | [H ->]].
  - destruct (digit_bounds n ltac:(lia)) as [H1 H2].
    exists (n / 10), (n mod 10), [digit_char (n mod 10)].
    repeat split; try lia. repeat constructor; eauto.
  - exists n, n, []. repeat split; try lia. repeat constructor. exists n. split; [lia | reflexivity].
Qed.

Lemma replace_digits (s : str) :
  Forall (fun c => exists k, 0 <= k <= 9 /\ c = digit_char k) s ->
  replace "/" (py "-") s = s.
Proof.
  induction 1 as [|c s (k & Hk & ->) _ IH]; [reflexivity|].
  unfold replace in *. cbn [flat_map].
  rewrite (digit_char_not "/") by (assumption || reflexivity).
  now rewrite IH.
Qed.

Lemma replace_app (old : ascii) (new a b : str) :
  replace old new (a ++ b) = replace old new a ++ replace old new b.
Proof. unfold replace. apply flat_map_app. Qed.

Lemma replace_separator (sep : ascii) (rest : str) :
  sep = "-"%char \/ sep = "/"%char ->
  replace "/" (py "-") (sep :: rest) = "-"%char :: replace "/" (py "-") rest.
Proof. intros [-> | ->]; reflexivity. Qed.

Lemma parse_month_spelled (y m : Z) (ms r : str) :
  1 <= m <= 12 -> spells_number m ms ->
  parse_month y (ms ++ "-"%char :: r) = after_month y m ("-"%char :: r).
Proof.
  intros Hm [-> | [H ->]].
  - now apply parse_month_pad2.
  - assert (Hk : 0 <= m < Z.of_nat 10) by lia. revert H.
    pattern m. apply (Z_small_cases _ 10%nat); [|lia]. intros k Hk' H.
    do 10 (destruct k as [|k];
           [try (exfalso; lia);
            unfold parse_month; cbn -[after_month];
            destruct (after_month y _ ("-"%char :: r)); reflexivity|]).
    exfalso; lia.
Qed.

Lemma parse_day_spelled (d : Z) (ds : str) :
  1 <= d <= 31 -> spells_number d ds -> parse_day ds = Some (d, []).
Proof.
  intros Hd [-> | [H ->]].
  - rewrite <- (app_nil_r (pad2 d)). now apply parse_day_pad2.
  - assert (Hk : 0 <= d < Z.of_nat 10) by lia. revert H.
    pattern d. apply (Z_small_cases _ 10%nat); [|lia]. intros k Hk' H.
    do 10 (destruct k as [|k]; [try reflexivity; exfalso; lia|]).
    exfalso; lia.
Qed.

(** X. [normalize_date] reads more spellings of a date of the calendar
    than the two it documents: after a year of four digits, the month
    and the day may each be written with two digits or, below ten, with
    one; each of the two separators may be a hyphen or a slash,
    independently; white space may surround the whole. The result is the
    hyphen spelling with two digits for the month and the day. *)
Theorem normalize_date_spellings
  (now : t) (pre post : str) (sep1 sep2 : ascii) (y m d : Z) (ms ds : str) :
  forallb isspace pre = true ->
  forallb isspace post = true ->
  sep1 = "-"%char \/ sep1 = "/"%char ->
  sep2 = "-"%char \/ sep2 = "/"%char ->
  valid y m d = true ->
  spells_number m ms ->
  spells_number d ds ->
  normalize_date now (pre ++ (pad4 y ++ sep1 :: ms ++ sep2 :: ds) ++ post)
  = Ok (iso_date "-" y m d).
Proof.
  intros Hpre Hpost Hs1 Hs2 Hv Hms Hds.
  destruct (valid_bounds y m d Hv) as (Hy & Hm & Hd).
  destruct (digits_of_year y ltac:(lia)) as (H1 & H2 & H3 & H4 & _).
  destruct (spells_number_digits m ms ltac:(lia) Hms) as (_ & _ & _ & _ & _ & _ & _ & Fm).
  destruct (spells_number_digits d ds ltac:(lia) Hds) as (_ & k2 & _ & _ & Hk2 & _ & Hlast & Fd).
  set (core := pad4 y ++ sep1 :: ms ++ sep2 :: ds).
  assert (Hcore : core = digit_char (y / 1000) :: List.tl core) by reflexivity.
  assert (Hstrip : strip (pre ++ core ++ post) = core).
  { apply strip_padding; try assumption.
    - now rewrite Hcore.
    - rewrite Hcore. simpl. now rewrite isspace_digit_char.
    - unfold core. rewrite rev_app_distr. cbn [rev]. rewrite rev_app_distr. cbn [rev].
      rewrite Hlast. rewrite <- !app_assoc. simpl. now rewrite isspace_digit_char. }
  unfold normalize_date. rewrite Hstrip. rewrite Hcore at 1. cbv iota.
  rewrite Hcore at 1. rewrite digit_not_today by assumption.
  assert (Hrep : replace "/" (py "-") core = pad4 y ++ "-"%char :: ms ++ "-"%char :: ds).
  { unfold core. rewrite replace_app. rewrite (replace_digits (pad4 y)).
    2:{ unfold pad4. repeat constructor; eauto. }
    rewrite replace_separator by assumption.
    rewrite replace_app, (replace_digits ms) by assumption.
    rewrite replace_separator by assumption.
    now rewrite (replace_digits ds). }
  rewrite Hrep.
  change (pad4 y) with
    [digit_char (y / 1000); digit_char (y / 100 mod 10);
     digit_char (y / 10 mod 10); digit_char (y mod 10)].
  cbn [app]. rewrite strptime_hyphen. cbn [Ascii.eqb Bool.eqb].
  change (forallb is_digit ?l) with (forallb is_digit (pad4 y)).
  assert (Hall : forallb is_digit (pad4 y) = true).
  { unfold pad4. cbn [forallb]. now rewrite !is_digit_digit_char by assumption. }
  rewrite Hall.
  change (N_of_digits _) with (N_of_digits (pad4 y)).
  rewrite year_of_pad4 by lia.
  rewrite (parse_month_spelled _ m) by assumption.
  rewrite after_month_hyphen. cbn [Ascii.eqb Bool.eqb].
  rewrite (parse_day_spelled d) by assumption. now rewrite Hv.
Qed.

Lemma normalize_date_spellings_witness :
  normalize_date (mk 2026 11 4) (py " 2025/3-07 ") = Ok (py "2025-03-07").
Proof.
  apply (normalize_date_spellings (mk 2026 11 4) (py " ") (py " ") "/" "-" 2025 3 7
           (py "3") (py "07")).
  - reflexivity.
  - reflexivity.
  - now right.
  - now left.
  - reflexivity.
  - right. split; [lia | reflexivity].
  - now left.
Defined.

End NormalizeDateSpellings.

(** ** normalize_amount: every outcome *)

Section NormalizeAmountAll.

Import PyDecimal.

Lemma fix_raises (d : t) (e : exn) : fix_ d = Raise e -> e = Overflow.
Proof.
  unfold fix_. destruct d as [sign [|p] ex | sign | sign sg pl]; try discriminate.
  repeat match goal with
         | |- context [if ?b then _ else _] => destruct b
         | |- context [let '(_, _) := ?x in _] => destruct x
         end; congruence.
Qed.

Lemma normalize_finite_raises (sign : bool) (c : N) (ex : Z) (e : exn) :
  normalize (Finite sign c ex) = Raise e -> e = Overflow.
Proof.
  unfold normalize. destruct (fix_ (Finite sign c ex)) as [dup|e'] eqn:E; simpl.
  - destruct dup as [s1 [|p] e1 | s1 | s1 sg pl]; try discriminate.
    destruct (strip_zeros _ _ _). discriminate.
  - intros [= <-]. eapply fix_raises; eassumption.
Qed.

(** X. The outcomes of [normalize_amount], all of them. It raises a
    [ValueError] exactly in three cases: an input that is blank, one that
    [Decimal] cannot read, one that reads as a number at or below zero
    (the negative infinity among them). Two more failures are no
    [ValueError]: an input that reads as a NaN raises
    [decimal.InvalidOperation], and a positive number too large for the
    context raises [decimal.Overflow]. Every other input, the positive
    infinity among them, is answered with a string. *)
Theorem normalize_amount_outcomes (s : str) :
  let read := of_str (replace "," [] (strip s)) in
  match normalize_amount s with
  | Raise (ValueError m) =>
      (m = AmountBlank /\ strip s = [])
      \/ (m = AmountFormat /\ strip s <> [] /\ read = None)
      \/ (m = AmountNotPositive /\ strip s <> []
          /\ exists d, read = Some d /\ nonpositive d)
  | Raise InvalidOperation =>
      strip s <> [] /\ exists sign signaling payload, read = Some (NaN sign signaling payload)
  | Raise Overflow =>
      strip s <> [] /\ exists c ex, read = Some (Finite false c ex) /\ c <> 0%N
  | Raise _ => False
  | Ok out =>
      strip s <> []
      /\ ((exists c ex, read = Some (Finite false c ex) /\ c <> 0%N)
          \/ (read = Some (Inf false) /\ out = py "Infinity"))
  end.
Proof.
  intros read. unfold read, normalize_amount. clear read.
  destruct (strip s) as [|a t0] eqn:Es; [now left|].
  assert (Hne : a :: t0 <> []) by discriminate.
  destruct (of_str _) as [d|]; [|right; left; auto].
  destruct d as [sign c ex | sign | sign sg pl].
  - cbn [le_zero bind]. destruct sign; cbn [orb].
    + right; right. repeat split; [assumption|]. eexists. split; [reflexivity | now left].
    + destruct (c =? 0)%N eqn:Ec.
      * apply N.eqb_eq in Ec. subst c.
        right; right. repeat split; [assumption|]. eexists. split; [reflexivity | now right].
      * apply N.eqb_neq in Ec.
        destruct (normalize (Finite false c ex)) as [n|e] eqn:En; cbn [bind].
        -- destruct (char_in "." (format_f n)); (split; [assumption|]); left; eauto.
        -- apply normalize_finite_raises in En. subst e. split; [assumption|]. eauto.
  - cbn [le_zero bind]. destruct sign.
    + right; right. repeat split; [assumption|]. eexists. split; [reflexivity | reflexivity].
    + cbn. split; [assumption|]. now right.
  - cbn [le_zero bind]. split; [assumption|]. eauto.
Qed.

End NormalizeAmountAll.

(** ** The store: ensure_csv_has_header, append_expense, read_last_n *)

Section Store.

Lemma write_file_other (fs : filesystem) (path text p : str) :
  p <> path -> write_file fs path text p = fs p.
Proof. intros H. unfold write_file. apply str_eqb_neq in H. now rewrite H. Qed.

Lemma write_file_same (fs : filesystem) (path text : str) :
  write_file fs path text path = Some text.
Proof. unfold write_file. now rewrite str_eqb_refl. Qed.

Lemma ensure_not_empty (fs : filesystem) (path : str) :
  missing_or_empty (ensure_csv_has_header fs path) path = false.
Proof.
  unfold ensure_csv_has_header. destruct (missing_or_empty fs path) eqn:E; [|exact E].
  unfold missing_or_empty. now rewrite write_file_same.
Qed.

Lemma slice_from_last_n {A : Type} (n : Z) (l : list A) : slice_from (- n) l = last_n n l.
Proof.
  unfold slice_from, last_n.
  destruct (0 <? n) eqn:E.
  - apply Z.ltb_lt in E.
    replace (- n <? 0) with true by (symmetry; apply Z.ltb_lt; lia).
    f_equal. lia.
  - apply Z.ltb_ge in E.
    replace (- n <? 0) with false by (symmetry; apply Z.ltb_ge; lia).
    reflexivity.
Qed.

(** X. [ensure_csv_has_header] writes to no other path; a file that is
    missing or empty becomes the header line and nothing more, and then
    reads as a store without records; a file that holds anything is left
    as it is, with or without a header; and a second call changes
    nothing. *)
Theorem ensure_csv_has_header_once (fs : filesystem) (path : str) :
  let fs' := ensure_csv_has_header fs path in
  (forall p, p <> path -> fs' p = fs p)
  /\ fs' path = (if missing_or_empty fs path then Some header_line else fs path)
  /\ ensure_csv_has_header fs' path = fs'
  /\ (forall n, missing_or_empty fs path = true -> read_last_n fs' path n = Ok []).
Proof.
  intros fs'. split; [|split; [|split]].
  - intros p Hp. unfold fs', ensure_csv_has_header.
    destruct (missing_or_empty fs path); [now apply write_file_other | reflexivity].
  - unfold fs', ensure_csv_has_header.
    destruct (missing_or_empty fs path); [apply write_file_same | reflexivity].
  - unfold ensure_csv_has_header at 1. fold fs'. unfold fs'. now rewrite ensure_not_empty.
  - intros n H. unfold fs', ensure_csv_has_header. rewrite H.
    unfold read_last_n, missing_or_empty. rewrite write_file_same.
    assert (Hrd : PyCsv.reader_of (PyCsv.writerow CSV_HEADERS) = PyCsv.Row CSV_HEADERS PyCsv.Stop)
      by (vm_compute; reflexivity).
    change (PyCsv.or_empty (Some (PyCsv.writerow CSV_HEADERS))) with (PyCsv.writerow CSV_HEADERS).
    rewrite Hrd. change (Ok (slice_from (- n) (@nil Expense)) = Ok []).
    rewrite slice_from_last_n. unfold last_n. destruct (0 <? n); now rewrite skipn_nil.
Qed.

Lemma ensure_csv_has_header_once_witness :
  forall n, read_last_n (ensure_csv_has_header (fun _ => Some []) (py "expenses.csv"))
              (py "expenses.csv") n = Ok [].
Proof.
  intros n.
  apply (proj2 (proj2 (proj2 (ensure_csv_has_header_once (fun _ => Some []) (py "expenses.csv"))))).
  reflexivity.
Defined.

(** X. [append_expense] only appends, and only to its file: every other
    path keeps what it had; a file that held something keeps it as the
    beginning of its new text, a file that was missing or empty starts
    with the header line; what follows is the one line of the record,
    and the reader reads that line as the four fields of the record as
    they were given, whatever characters they hold, when none is longer
    than the field limit. *)
Theorem append_expense_appends (fs : filesystem) (path : str) (exp : Expense) :
  let fs' := append_expense fs path exp in
  let old := if missing_or_empty fs path then header_line else PyCsv.or_empty (fs path) in
  (forall p, p <> path -> fs' p = fs p)
  /\ fs' path = Some (old ++ PyCsv.writerow (cells_of exp))
  /\ (readable exp -> PyCsv.reader_of (PyCsv.writerow (cells_of exp))
                      = PyCsv.Row (cells_of exp) PyCsv.Stop).
Proof.
  intros fs' old. split; [|split].
  - intros p Hp. unfold fs', append_expense, append_file.
    rewrite write_file_other by assumption.
    unfold ensure_csv_has_header.
    destruct (missing_or_empty fs path); [now apply write_file_other | reflexivity].
  - unfold fs', append_expense, append_file. rewrite write_file_same.
    unfold old, ensure_csv_has_header.
    destruct (missing_or_empty fs path); [now rewrite write_file_same | reflexivity].
  - intros Hr. rewrite reader_of_read_rows.
    rewrite <- (app_nil_r (PyCsv.writerow (cells_of exp))).
    unfold cells_of. now rewrite read_written_row.
Qed.

Lemma append_expense_appends_witness :
  let exp := mkExpense (py "2025-12-15") (py "1,200.5") (py " Food ")
               [" "%char; PyCsv.QUOTE; "a"%char; PyCsv.LF; "b"%char] in
  PyCsv.reader_of (PyCsv.writerow (cells_of exp)) = PyCsv.Row (cells_of exp) PyCsv.Stop.
Proof.
  intros exp.
  apply (proj2 (proj2 (append_expense_appends (fun _ => None) (py "expenses.csv") exp))).
  repeat constructor; vm_compute; congruence.
Defined.


Lemma expense_of_cells (e : Expense) : expense_of_row CSV_HEADERS (cells_of e) = trimmed e.
Proof. destruct e as [d a c n]. reflexivity. Qed.

Lemma collect_store_rows_trimmed (es : list Expense) :
  collect_expenses CSV_HEADERS (fold_right PyCsv.Row PyCsv.Stop (map cells_of es))
  = Ok (map trimmed es).
Proof.
  induction es as [|e es IH]; [reflexivity|].
  simpl map. simpl fold_right.
  change (collect_expenses CSV_HEADERS (PyCsv.Row (cells_of e) ?r))
    with (es' <- collect_expenses CSV_HEADERS r ;;
          Ok (expense_of_row CSV_HEADERS (cells_of e) :: es')).
  rewrite IH. simpl. now rewrite expense_of_cells.
Qed.

(** What [read_last_n] returns on the text of a store. *)
Lemma read_last_n_store_text (fs : filesystem) (path : str) (es : list Expense) (n : Z) :
  fs path = Some (store_text es) ->
  Forall readable es ->
  read_last_n fs path n = Ok (last_n n (map trimmed es)).
Proof.
  intros Hfs Hall.
  assert (Hm : missing_or_empty fs path = false).
  { unfold missing_or_empty. rewrite Hfs. reflexivity. }
  unfold read_last_n. rewrite Hm, Hfs. cbn [PyCsv.or_empty].
  unfold store_text.
  rewrite reader_of_read_rows.
  rewrite (read_written_row (py "date") (py "amount") [py "category"; py "notes"]).
  2:{ repeat constructor; unfold len, PyCsv.field_limit; simpl; lia. }
  change [py "date"; py "amount"; py "category"; py "notes"] with CSV_HEADERS.
  replace (flat_map (fun x => PyCsv.writerow (cells_of x)) es)
    with (flat_map PyCsv.writerow (map cells_of es))
    by (rewrite flat_map_concat_map, map_map, <- flat_map_concat_map; reflexivity).
  rewrite read_store_rows.
  2:{ apply Forall_map. eapply Forall_impl; [|exact Hall].
      intros x Hx. split; [simpl; lia | exact Hx]. }
  cbv iota. unfold CSV_HEADERS at 1. cbv iota.
  change (existsb _ CSV_HEADERS) with false. cbv iota.
  rewrite collect_store_rows_trimmed. cbn [bind].
  apply f_equal, slice_from_last_n.
Qed.

(** X. After any records were appended one by one to a file that was
    missing or empty, [read_last_n(path, n)] returns them with every
    field stripped, in the order of their appending: the last [n] of
    them for a positive [n], all of them for [n = 0], and all but the
    first [-n] for a negative [n]. The fields may hold any characters
    (commas, quotes, line breaks); none is longer than the reader's
    field limit. *)
Theorem read_last_n_after_appends (fs : filesystem) (path : str) (es : list Expense) (n : Z) :
  fs path = None \/ fs path = Some [] ->
  Forall readable es ->
  read_last_n (append_all fs path es) path n = Ok (last_n n (map trimmed es)).
Proof.
  intros Hfs Hall.
  assert (Hm : missing_or_empty fs path = true).
  { unfold missing_or_empty. destruct Hfs as [-> | ->]; reflexivity. }
  destruct es as [|e es].
  - simpl. unfold read_last_n. rewrite Hm. unfold last_n.
    destruct (0 <? n); now rewrite skipn_nil.
  - apply read_last_n_store_text; [|assumption]. now apply append_all_fresh.
Qed.

Lemma read_last_n_after_appends_witness :
  let e1 := mkExpense (py "2025-12-15") (py "120.5") (py "Food, drink") (py " lunch ") in
  let e2 := mkExpense (py "2025-12-16") (py "3") (py "Bus") [] in
  let e3 := mkExpense (py "2025-12-17") (py "8") (py "Tea") [PyCsv.QUOTE] in
  let fs := append_all (fun _ => None) (py "expenses.csv") [e1; e2; e3] in
  read_last_n fs (py "expenses.csv") 2 = Ok [e2; e3]
  /\ read_last_n fs (py "expenses.csv") 0
     = Ok [mkExpense (py "2025-12-15") (py "120.5") (py "Food, drink") (py "lunch"); e2; e3]
  /\ read_last_n fs (py "expenses.csv") (-1) = Ok [e2; e3].
Proof.
  intros e1 e2 e3 fs.
  assert (Hfs : (fun _ : str => @None str) (py "expenses.csv") = None
                \/ (fun _ : str => @None str) (py "expenses.csv") = Some []) by now left.
  assert (Hall : Forall readable [e1; e2; e3]).
  { repeat constructor; vm_compute; congruence. }
  split; [|split].
  - exact (read_last_n_after_appends (fun _ => None) (py "expenses.csv") [e1; e2; e3] 2 Hfs Hall).
  - exact (read_last_n_after_appends (fun _ => None) (py "expenses.csv") [e1; e2; e3] 0 Hfs Hall).
  - exact (read_last_n_after_appends (fun _ => None) (py "expenses.csv") [e1; e2; e3] (-1) Hfs Hall).
Defined.

(** X. On any file, [read_last_n(path, n)] is a slice of what
    [read_last_n(path, 0)] returns, and that is every record of the
    file: [n = 0] does not mean "no record". A positive [n] selects the
    last [n] records (all when there are fewer), a negative [n] all but
    the first [-n]; an error of the reader is raised for every [n]
    alike. *)
Theorem read_last_n_slices (fs : filesystem) (path : str) (n : Z) :
  match read_last_n fs path 0 with
  | Ok all =>
      read_last_n fs path n = Ok (last_n n all)
      /\ (0 < n -> List.length (last_n n all) = Nat.min (Z.to_nat n) (List.length all))
  | Raise e => read_last_n fs path n = Raise e
  end.
Proof.
  assert (Hlen : forall all : list Expense,
             0 < n -> List.length (last_n n all) = Nat.min (Z.to_nat n) (List.length all)).
  { intros all Hn. unfold last_n.
    replace (0 <? n) with true by (symmetry; apply Z.ltb_lt; lia).
    rewrite length_skipn. lia. }
  assert (Hbase : @Ok (list Expense) [] = Ok (last_n n [])
                  /\ (0 < n -> List.length (last_n n (@nil Expense))
                                = Nat.min (Z.to_nat n) (List.length (@nil Expense)))).
  { split; [|apply Hlen]. unfold last_n. destruct (0 <? n); now rewrite skipn_nil. }
  unfold read_last_n.
  destruct (missing_or_empty fs path); [exact Hbase|].
  destruct (PyCsv.reader_of (PyCsv.or_empty (fs path))) as [|fieldnames data|e];
    [exact Hbase| |reflexivity].
  destruct fieldnames as [|f l]; [exact Hbase|].
  destruct (existsb (fun h => negb (str_in h (f :: l))) CSV_HEADERS); [exact Hbase|].
  destruct (collect_expenses (f :: l) data) as [rows|e]; cbn [bind]; [|reflexivity].
  change (slice_from (- 0) rows) with rows. cbv beta iota.
  rewrite slice_from_last_n. auto.
Qed.

End Store.

(** ** read_csv_totals: what it returns *)

Section Totals.

Lemma dict_set_keys {V : Type} (k : str) (v : V) (d : dict V) :
  map fst (dict_set k v d)
  = if str_in k (map fst d) then map fst d else map fst d ++ [k].
Proof.
  induction d as [|[k0 v0] d IH]; [reflexivity|].
  unfold str_in in *. cbn [dict_set map fst existsb].
  destruct (str_eqb k k0) eqn:E; [reflexivity|].
  cbn [map fst orb]. rewrite IH. now destruct (existsb (str_eqb k) (map fst d)).
Qed.

Lemma dict_set_NoDup {V : Type} (k : str) (v : V) (d : dict V) :
  NoDup (map fst d) -> NoDup (map fst (dict_set k v d)).
Proof.
  intros H. rewrite dict_set_keys.
  destruct (str_in k (map fst d)) eqn:E; [exact H|].
  apply NoDup_app; [exact H | repeat constructor; intros [] |].
  intros x Hx [<- | []].
  apply str_in_In in Hx. congruence.
Qed.

Lemma dict_set_keys_In {V : Type} (k : str) (v : V) (d : dict V) (x : str) :
  In x (map fst (dict_set k v d)) -> x = k \/ In x (map fst d).
Proof.
  rewrite dict_set_keys. destruct (str_in k (map fst d)); [now right|].
  intros H. apply in_app_or in H as [H | [<- | []]]; auto.
Qed.

Lemma dict_get_notin {V : Type} (k : str) (d : dict V) :
  ~ In k (map fst d) -> dict_get k d = None.
Proof.
  induction d as [|[k0 v0] d IH]; [reflexivity|].
  simpl. intros H. destruct (str_eqb k k0) eqn:E.
  - apply str_eqb_eq in E. subst. exfalso. apply H. now left.
  - apply IH. intros Hin. apply H. now right.
Qed.

(** A lookup after the entries were filtered by their values. *)
Lemma dict_get_filter {V : Type} (p : V -> bool) (k : str) (d : dict V) :
  NoDup (map fst d) ->
  dict_get k (filter (fun kv => p (snd kv)) d)
  = match dict_get k d with
    | Some v => if p v then Some v else None
    | None => None
    end.
Proof.
  induction d as [|[k0 v0] d IH]; [reflexivity|].
  intros Hnd. inversion Hnd as [|? ? Hnotin Hnd']; subst.
  cbn [filter snd dict_get]. destruct (str_eqb k k0) eqn:E.
  - apply str_eqb_eq in E. subst k0.
    destruct (p v0); cbn [dict_get]; [now rewrite str_eqb_refl|].
    apply dict_get_notin. intros Hin. apply Hnotin.
    apply in_map_iff in Hin as ([k1 v1] & <- & Hin). apply filter_In in Hin as [Hin _].
    now apply (in_map fst) in Hin.
  - destruct (p v0); cbn [dict_get]; [rewrite E|]; now apply IH.
Qed.

Variables (fieldnames : list str) (cat_col amt_col : str).

(** The keys that the loop adds are categories of rows: stripped and
    not empty; and it keeps the keys distinct. *)
Lemma sum_rows_keys (data : PyCsv.rows) (t0 t : dict float) :
  sum_rows fieldnames cat_col amt_col data t0 = Ok t ->
  NoDup (map fst t0) ->
  (NoDup (map fst t))
  /\ (forall k, In k (map fst t) ->
        In k (map fst t0) \/ (k <> [] /\ In k (map (row_category fieldnames cat_col) (delivered data)))).
Proof.
  revert t0. induction data as [|cells rest IH|e]; intros t0 H Hnd.
  - injection H as <-. auto.
  - cbn [sum_rows] in H. cbn [delivered map].
    assert (Hskip : sum_rows fieldnames cat_col amt_col rest t0 = Ok t ->
                    NoDup (map fst t)
                    /\ (forall k, In k (map fst t) -> In k (map fst t0)
                          \/ (k <> [] /\ (row_category fieldnames cat_col cells = k
                                \/ In k (map (row_category fieldnames cat_col) (delivered rest)))))).
    { intros H'. destruct (IH t0 H' Hnd) as [H1 H2]. split; [exact H1|].
      intros k Hk. destruct (H2 k Hk) as [Hin | [Hne Hin]]; [now left | right; split; auto]. }
    destruct cells as [|c cs]; [now apply Hskip|].
    fold (row_category fieldnames cat_col (c :: cs)) in H.
    destruct (row_category fieldnames cat_col (c :: cs)) as [|a cat] eqn:Ec; [now apply Hskip|].
    destruct (parse_amount _) as [amt|e]; [|discriminate]. cbn [bind] in H.
    destruct (IH _ H (dict_set_NoDup _ _ _ Hnd)) as [H1 H2]. split; [exact H1|].
    intros k Hk. destruct (H2 k Hk) as [Hin | [Hne Hin]].
    + apply dict_set_keys_In in Hin as [-> | Hin]; [|now left].
      right. split; [discriminate | now left].
    + right. split; [exact Hne | now right].
  - discriminate.
Qed.

Lemma fold_add_cons (x : float) (l : list float) (a : float) :
  fold_left PrimFloat.add (x :: l) a = fold_left PrimFloat.add l (a + x)%float.
Proof. reflexivity. Qed.

Lemma amounts_of_none (cat : str) (rows : list (list str)) :
  has_category fieldnames cat_col cat rows = false ->
  amounts_of fieldnames cat_col amt_col cat rows = [].
Proof.
  induction rows as [|cells rows IH]; [reflexivity|].
  cbn [has_category existsb amounts_of]. intros H.
  apply orb_false_iff in H as [-> H]. now apply IH.
Qed.

(** What the loop binds a category to: the amounts of its rows added,
    in the order of the rows, to what it was bound to before (to 0.0
    when it was not bound). *)
Lemma sum_rows_get (data : PyCsv.rows) (t0 t : dict float) (cat : str) :
  sum_rows fieldnames cat_col amt_col data t0 = Ok t ->
  cat <> [] ->
  dict_get cat t
  = if has_category fieldnames cat_col cat (delivered data)
    then Some (fold_left PrimFloat.add
                 (amounts_of fieldnames cat_col amt_col cat (delivered data))
                 (dict_get_default cat 0%float t0))
    else dict_get cat t0.
Proof.
  intros H Hcat. revert t0 H.
  induction data as [|cells rest IH|e]; intros t0 H.
  - injection H as <-. reflexivity.
  - cbn [sum_rows] in H. cbn [delivered has_category existsb amounts_of].
    fold (has_category fieldnames cat_col cat (delivered rest)).
    assert (Hskip : row_category fieldnames cat_col cells = [] ->
              sum_rows fieldnames cat_col amt_col rest t0 = Ok t ->
              dict_get cat t
              = if str_eqb (row_category fieldnames cat_col cells) cat
                   || has_category fieldnames cat_col cat (delivered rest)
                then Some (fold_left PrimFloat.add
                       (if str_eqb (row_category fieldnames cat_col cells) cat
                        then match parse_amount (row_amount fieldnames amt_col cells) with
                             | Ok x => x :: amounts_of fieldnames cat_col amt_col cat (delivered rest)
                             | Raise _ => amounts_of fieldnames cat_col amt_col cat (delivered rest)
                             end
                        else amounts_of fieldnames cat_col amt_col cat (delivered rest))
                       (dict_get_default cat 0%float t0))
                else dict_get cat t0).
    { intros Hb H'. rewrite Hb.
      replace (str_eqb [] cat) with false by (destruct cat; [contradiction | reflexivity]).
      cbn [orb]. now apply IH. }
    destruct cells as [|c cs].
    { apply Hskip; [|exact H]. unfold row_category. now rewrite row_get_no_cells. }
    fold (row_category fieldnames cat_col (c :: cs)) in H.
    destruct (row_category fieldnames cat_col (c :: cs)) as [|a k] eqn:Ec.
    { apply Hskip; [reflexivity | exact H]. }
    fold (row_amount fieldnames amt_col (c :: cs)) in H.
    destruct (parse_amount (row_amount fieldnames amt_col (c :: cs))) as [amt|e]; [|discriminate].
    cbn [bind] in H. rewrite (IH _ H).
    unfold dict_get_default at 1. rewrite dict_get_set.
    destruct (str_eqb (a :: k) cat) eqn:E.
    + apply str_eqb_eq in E. subst cat. rewrite str_eqb_refl. cbn [orb].
      rewrite fold_add_cons.
      destruct (has_category fieldnames cat_col (a :: k) (delivered rest)) eqn:Eh;
        [reflexivity|].
      now rewrite (amounts_of_none _ _ Eh).
    + assert (E' : str_eqb cat (a :: k) = false).
      { apply str_eqb_neq. apply str_eqb_neq in E. congruence. }
      rewrite E'. cbn [orb]. reflexivity.
  - discriminate.
Qed.


(** A row that stops the loop with the error of [parse_amount] has a
    category and a bad amount; any other error is the reader's. *)
Lemma sum_rows_raises_row (data : PyCsv.rows) (t0 : dict float) (e : exn) :
  sum_rows fieldnames cat_col amt_col data t0 = Raise e ->
  failure data = Some e
  \/ ((e = ValueError AmountEmpty \/ e = ValueError FloatSyntax)
      /\ exists cells, In cells (delivered data)
                       /\ row_category fieldnames cat_col cells <> []
                       /\ bad_amount (row_amount fieldnames amt_col cells)).
Proof.
  revert t0. induction data as [|cells rest IH|e']; intros t0 H.
  - discriminate.
  - cbn [sum_rows] in H. cbn [failure delivered].
    assert (Hskip : sum_rows fieldnames cat_col amt_col rest t0 = Raise e ->
              failure rest = Some e
              \/ ((e = ValueError AmountEmpty \/ e = ValueError FloatSyntax)
                  /\ exists cells0, In cells0 (cells :: delivered rest)
                        /\ row_category fieldnames cat_col cells0 <> []
                        /\ bad_amount (row_amount fieldnames amt_col cells0))).
    { intros H'. destruct (IH _ H') as [Hf | (He & cells0 & Hin & Hc & Hb)]; [now left|].
      right. split; [exact He|]. exists cells0. split; [now right | auto]. }
    destruct cells as [|c cs]; [now apply Hskip|].
    fold (row_category fieldnames cat_col (c :: cs)) in H.
    destruct (row_category fieldnames cat_col (c :: cs)) as [|a k] eqn:Ec; [now apply Hskip|].
    fold (row_amount fieldnames amt_col (c :: cs)) in H.
    destruct (parse_amount (row_amount fieldnames amt_col (c :: cs))) as [amt|e1] eqn:Ep;
      cbn [bind] in H.
    + destruct (IH _ H) as [Hf | (He & cells0 & Hin & Hc & Hb)]; [now left|].
      right. split; [exact He|]. exists cells0. split; [now right | auto].
    + injection H as <-. right. split; [now apply (parse_amount_raises _ _ Ep)|].
      exists (c :: cs). split; [now left|]. split; [rewrite Ec; discriminate|].
      unfold bad_amount. unfold parse_amount in Ep.
      destruct (replace "," [] (strip (PyCsv.or_empty (row_amount fieldnames amt_col (c :: cs)))))
        as [|x xs]; [now left|].
      right. now destruct (PyFloat.of_str (x :: xs)).
  - cbn [sum_rows] in H. injection H as <-. now left.
Qed.

End Totals.

Lemma header_columns_sound (fieldnames : list str) (name col : str) :
  dict_get name (header_columns fieldnames) = Some col ->
  In col fieldnames /\ strip (lower col) = name.
Proof.
  induction fieldnames as [|c l IH] using rev_ind; [discriminate|].
  rewrite header_columns_snoc, dict_get_set.
  destruct (str_eqb name (strip (lower c))) eqn:E.
  - apply str_eqb_eq in E. intros [= <-]. split; [|now symmetry].
    apply in_or_app. right. now left.
  - intros H. destruct (IH H) as [Hin Hn]. split; [|exact Hn].
    apply in_or_app. now left.
Qed.

Lemma header_columns_none (fieldnames : list str) (name : str) :
  dict_get name (header_columns fieldnames) = None ->
  forall c, In c fieldnames -> strip (lower c) <> name.
Proof.
  intros H c Hin E.
  destruct (header_columns_get fieldnames name) as (col & Hg & _); [now exists c|].
  congruence.
Qed.

Lemma reader_data_failure (content : str) (fieldnames : list str) (data : PyCsv.rows) (e : exn) :
  PyCsv.reader_of content = PyCsv.Row fieldnames data ->
  failure data = Some e -> e = CsvError.
Proof.
  intros Hrd Hf. rewrite reader_of_read_rows in Hrd.
  apply (read_rows_failure content PyCsv.parse_reset true).
  now rewrite Hrd.
Qed.

Section TotalsClaims.

(** X. What [read_csv_totals] returns when it returns. The file has a
    header with a cell that normalizes to "category" and one that
    normalizes to "amount", and the reader read it to its end without an
    error. The result is not empty and binds each category once. A
    category is bound, to the value [v], exactly when: it is not the
    empty string, some row has it (once its cell is stripped), [v] is the
    sum of the amounts of its rows, added to 0.0 in the order of the
    rows, and the magnitude of [v] exceeds 1e-12. Rows whose category is
    blank take no part, whatever their amount cell holds. *)
Theorem read_csv_totals_sums (fs : filesystem) (path : str) (totals : dict float) :
  read_csv_totals fs path = Ok totals ->
  exists content fieldnames data cat_col amt_col,
    fs path = Some content
    /\ PyCsv.reader_of content = PyCsv.Row fieldnames data
    /\ failure data = None
    /\ In cat_col fieldnames /\ strip (lower cat_col) = py "category"
    /\ In amt_col fieldnames /\ strip (lower amt_col) = py "amount"
    /\ totals <> []
    /\ NoDup (map fst totals)
    /\ (forall cat v,
          dict_get cat totals = Some v
          <-> cat <> []
              /\ has_category fieldnames cat_col cat (delivered data) = true
              /\ v = PyFloat.sum_left (amounts_of fieldnames cat_col amt_col cat (delivered data))
              /\ above_epsilon v = true).
Proof.
  unfold read_csv_totals. intros H.
  destruct (fs path) as [content|]; [|discriminate].
  destruct (PyCsv.reader_of content) as [|fieldnames data|e] eqn:Hrd; try discriminate.
  destruct fieldnames as [|f l]; [discriminate|].
  destruct (dict_get (py "category") _) as [cat_col|] eqn:Hc; [|discriminate].
  destruct (dict_get (py "amount") _) as [amt_col|] eqn:Ha; [|discriminate].
  destruct (sum_rows (f :: l) cat_col amt_col data []) as [t|e] eqn:Hs; [|discriminate].
  cbn [bind] in H.
  destruct (sum_rows_keys _ _ _ _ _ _ Hs (NoDup_nil _)) as [Hnd Hkeys].
  assert (Hk : filter (fun kv : str * float => above_epsilon (snd kv)) t = totals).
  { destruct (filter _ t); [discriminate | congruence]. }
  assert (Hne : totals <> []).
  { destruct (filter _ t); [discriminate|]. injection H as <-. discriminate. }
  apply header_columns_sound in Hc as [Hc1 Hc2].
  apply header_columns_sound in Ha as [Ha1 Ha2].
  exists content, (f :: l), data, cat_col, amt_col.
  repeat (split; [first [reflexivity | assumption]|]).
  split.
  { clear - Hs. revert Hs. generalize (@nil (str * float)).
    induction data as [|cells rest IH|e]; intros t0 Hs; [reflexivity| |discriminate].
    cbn [sum_rows] in Hs. cbn [failure].
    destruct cells as [|c cs]; [now apply (IH t0)|].
    destruct (strip _) as [|a k]; [now apply (IH t0)|].
    destruct (parse_amount _); [|discriminate]. cbn [bind] in Hs. now apply (IH _ Hs). }
  repeat (split; [first [reflexivity | assumption]|]).
  split; [rewrite <- Hk; now apply NoDup_keys_filter|].
  intros cat v. rewrite <- Hk.
  rewrite (dict_get_filter above_epsilon cat t Hnd).
  destruct cat as [|a k].
  - rewrite (dict_get_notin [] t).
    + split; [discriminate | intros [Hx _]; now contradiction Hx].
    + intros Hin. destruct (Hkeys _ Hin) as [[] | [Hx _]]. now apply Hx.
  - rewrite (sum_rows_get _ _ _ _ _ _ (a :: k) Hs) by discriminate.
    unfold dict_get_default. cbn [dict_get]. fold (PyFloat.sum_left
      (amounts_of (f :: l) cat_col amt_col (a :: k) (delivered data))).
    destruct (has_category (f :: l) cat_col (a :: k) (delivered data)).
    + destruct (above_epsilon (PyFloat.sum_left _)) eqn:Ee.
      * split.
        -- intros [= <-]. repeat split; [discriminate | exact Ee].
        -- intros (_ & _ & -> & _). reflexivity.
      * split; [discriminate|]. intros (_ & _ & -> & Hv). congruence.
    + split; [discriminate|]. intros (_ & Hx & _). discriminate.
Qed.

Lemma read_csv_totals_sums_witness :
  exists content fieldnames data cat_col amt_col,
    (fun _ : str => Some report_with_padded_header) (py "expenses.csv") = Some content
    /\ PyCsv.reader_of content = PyCsv.Row fieldnames data
    /\ failure data = None
    /\ In cat_col fieldnames /\ strip (lower cat_col) = py "category"
    /\ In amt_col fieldnames /\ strip (lower amt_col) = py "amount"
    /\ [(py "Food", 15%float); (py "Transport", 3%float)] <> []
    /\ NoDup (map fst [(py "Food", 15%float); (py "Transport", 3%float)])
    /\ (forall cat v,
          dict_get cat [(py "Food", 15%float); (py "Transport", 3%float)] = Some v
          <-> cat <> []
              /\ has_category fieldnames cat_col cat (delivered data) = true
              /\ v = PyFloat.sum_left (amounts_of fieldnames cat_col amt_col cat (delivered data))
              /\ above_epsilon v = true).
Proof.
  apply (read_csv_totals_sums (fun _ => Some report_with_padded_header) (py "expenses.csv")).
  vm_compute. reflexivity.
Defined.

End TotalsClaims.

Section TotalsErrors.

(** X. The errors of [read_csv_totals], all of them, each with its
    cause: [FileNotFoundError] for a path that names no file; the
    reader's [csv.Error]; the [ValueError] for a missing header when the
    file has no line or its first line has no cell; the [ValueError] for
    missing columns when no header cell normalizes to "category" or none
    to "amount"; the [ValueError] of [parse_amount] when some row has a
    category and an amount cell that is missing, empty or no number; the
    [ValueError] for no data when the file was read to its end and no
    category has a sum whose magnitude exceeds 1e-12. *)
Theorem read_csv_totals_errors (fs : filesystem) (path : str) (e : exn) :
  read_csv_totals fs path = Raise e ->
  (e = FileNotFoundError /\ fs path = None)
  \/ exists content,
       fs path = Some content
       /\ ((e = CsvError /\ failure (PyCsv.reader_of content) = Some CsvError)
           \/ (e = ValueError NoHeaderRow
               /\ (PyCsv.reader_of content = PyCsv.Stop \/ header_row content = Some []))
           \/ exists fieldnames data,
                PyCsv.reader_of content = PyCsv.Row fieldnames data
                /\ fieldnames <> []
                /\ ((e = ValueError MissingColumns
                     /\ ((forall c, In c fieldnames -> strip (lower c) <> py "category")
                         \/ (forall c, In c fieldnames -> strip (lower c) <> py "amount")))
                    \/ exists cat_col amt_col,
                         dict_get (py "category") (header_columns fieldnames) = Some cat_col
                         /\ dict_get (py "amount") (header_columns fieldnames) = Some amt_col
                         /\ (((e = ValueError AmountEmpty \/ e = ValueError FloatSyntax)
                              /\ exists cells,
                                   In cells (delivered data)
                                   /\ row_category fieldnames cat_col cells <> []
                                   /\ bad_amount (row_amount fieldnames amt_col cells))
                             \/ (e = ValueError NoValidData
                                 /\ failure data = None
                                 /\ forall cat,
                                      cat <> [] ->
                                      has_category fieldnames cat_col cat (delivered data) = true ->
                                      above_epsilon
                                        (PyFloat.sum_left
                                           (amounts_of fieldnames cat_col amt_col cat
                                              (delivered data))) = false)))).
Proof.
  unfold read_csv_totals. intros H.
  destruct (fs path) as [content|]; [|injection H as <-; now left].
  right. exists content. split; [reflexivity|].
  destruct (PyCsv.reader_of content) as [|fieldnames data|e0] eqn:Hrd.
  - injection H as <-. right; left. auto.
  - destruct fieldnames as [|f l].
    { injection H as <-. right; left. split; [reflexivity|]. right.
      unfold header_row. now rewrite Hrd. }
    destruct (dict_get (py "category") _) as [cat_col|] eqn:Hc.
    2:{ injection H as <-. right; right. exists (f :: l), data.
        repeat split; [discriminate|]. left. split; [reflexivity|]. left.
        now apply header_columns_none. }
    destruct (dict_get (py "amount") _) as [amt_col|] eqn:Ha.
    2:{ injection H as <-. right; right. exists (f :: l), data.
        repeat split; [discriminate|]. left. split; [reflexivity|]. right.
        now apply header_columns_none. }
    destruct (sum_rows (f :: l) cat_col amt_col data []) as [t|e1] eqn:Hs; cbn [bind] in H.
    + destruct (filter _ t) as [|kv kept] eqn:Hk; [|discriminate]. injection H as <-.
      right; right. exists (f :: l), data. repeat split; [discriminate|]. right.
      exists cat_col, amt_col. split; [exact Hc|]. split; [exact Ha|]. right.
      destruct (sum_rows_keys _ _ _ _ _ _ Hs (NoDup_nil _)) as [Hnd _].
      split; [reflexivity|]. split.
      * clear - Hs. revert Hs. generalize (@nil (str * float)).
        induction data as [|cells rest IH|e]; intros t0 Hs; [reflexivity| |discriminate].
        cbn [sum_rows] in Hs. cbn [failure].
        destruct cells as [|c cs]; [now apply (IH t0)|].
        destruct (strip _) as [|a k]; [now apply (IH t0)|].
        destruct (parse_amount _); [|discriminate]. cbn [bind] in Hs. now apply (IH _ Hs).
      * intros cat Hcat Hhas.
        pose proof (dict_get_filter above_epsilon cat t Hnd) as Hf.
        rewrite Hk in Hf. cbn [dict_get] in Hf.
        rewrite (sum_rows_get _ _ _ _ _ _ cat Hs Hcat), Hhas in Hf.
        unfold dict_get_default in Hf. cbn [dict_get] in Hf.
        fold (PyFloat.sum_left (amounts_of (f :: l) cat_col amt_col cat (delivered data))) in Hf.
        destruct (above_epsilon (PyFloat.sum_left _)); [discriminate | reflexivity].
    + injection H as <-.
      destruct (sum_rows_raises_row _ _ _ _ _ _ Hs) as [Hf | (He & Hrow)].
      * left. assert (e1 = CsvError) by (eapply reader_data_failure; eassumption).
        subst e1. now split.
      * right; right. exists (f :: l), data. repeat split; [discriminate|]. right.
        exists cat_col, amt_col. split; [exact Hc|]. split; [exact Ha|]. now left.
  - injection H as <-. left.
    assert (e0 = CsvError).
    { apply (read_rows_failure content PyCsv.parse_reset true).
      now rewrite <- reader_of_read_rows, Hrd. }
    subst e0. now split.
Qed.


Lemma read_csv_totals_errors_witness :
  exists fieldnames data cat_col amt_col cells,
    PyCsv.reader_of report_with_blank_amount = PyCsv.Row fieldnames data
    /\ dict_get (py "category") (header_columns fieldnames) = Some cat_col
    /\ dict_get (py "amount") (header_columns fieldnames) = Some amt_col
    /\ In cells (delivered data)
    /\ row_category fieldnames cat_col cells <> []
    /\ bad_amount (row_amount fieldnames amt_col cells).
Proof.
  assert (Hraise : read_csv_totals (fun _ => Some report_with_blank_amount) (py "expenses.csv")
                   = Raise (ValueError AmountEmpty)) by (vm_compute; reflexivity).
  destruct (read_csv_totals_errors _ _ _ Hraise) as [[H _] | (content & Hc & Hcase)];
    [discriminate H|].
  destruct Hcase as [[H _] | [[H _] | (fieldnames & data & Hrd & _ & Hcase)]];
    [discriminate H | discriminate H |].
  destruct Hcase as [[H _] | (cat_col & amt_col & Hcat & Hamt & [[_ Hrow] | [H _]])];
    [discriminate H | | discriminate H].
  destruct Hrow as (cells & Hin & Hcell & Hbad).
  injection Hc as <-.
  exists fieldnames, data, cat_col, amt_col, cells.
  repeat (split; [assumption|]). assumption.
Defined.

End TotalsErrors.

(** ** group_small: the order of the result *)

Section GroupSmallOrder.

Lemma SFltb_asym (x y : spec_float) : SFltb x y = true -> SFltb y x = false.
Proof.
  unfold SFltb, SFcompare.
  destruct x as [sx | sx | | sx mx ex], y as [sy | sy | | sy my ey];
    try destruct sx; try destruct sy; try (intros; reflexivity); try discriminate;
    destruct (Z.compare_spec ex ey) as [He | He | He];
    destruct (Z.compare_spec ey ex) as [He' | He' | He']; try lia;
    try discriminate; try reflexivity;
    change (Pos.compare_cont Eq ?a ?b) with (Pos.compare a b);
    destruct (Pos.compare_spec mx my) as [Hm | Hm | Hm];
    destruct (Pos.compare_spec my mx) as [Hm' | Hm' | Hm'];
    cbn [CompOpp]; try lia; try discriminate; reflexivity.
Qed.

Lemma SFltb_ge_trans (x y z : spec_float) :
  x <> S754_nan -> y <> S754_nan -> z <> S754_nan ->
  SFltb x y = false -> SFltb y z = false -> SFltb x z = false.
Proof.
  unfold SFltb, SFcompare. intros Hx Hy Hz.
  destruct x as [sx | sx | | sx mx ex]; [| |contradiction|];
    (destruct y as [sy | sy | | sy my ey]; [| |contradiction|]);
    (destruct z as [sz | sz | | sz mz ez]; [| |contradiction|]);
    try destruct sx; try destruct sy; try destruct sz;
    try (intros; reflexivity); try discriminate;
    try (destruct (Z.compare_spec ex ey) as [He1 | He1 | He1]);
    try (destruct (Z.compare_spec ey ez) as [He2 | He2 | He2]);
    try (destruct (Z.compare_spec ex ez) as [He3 | He3 | He3]);
    try lia; try discriminate; try (intros; reflexivity);
    change (Pos.compare_cont Eq ?a ?b) with (Pos.compare a b);
    try (destruct (Pos.compare_spec mx my) as [Hm1 | Hm1 | Hm1]);
    try (destruct (Pos.compare_spec my mz) as [Hm2 | Hm2 | Hm2]);
    try (destruct (Pos.compare_spec mx mz) as [Hm3 | Hm3 | Hm3]);
    cbn [CompOpp]; try lia; try discriminate; intros; reflexivity.
Qed.

Lemma is_number_spec (v : float) : is_number v = true -> Prim2SF v <> S754_nan.
Proof.
  unfold is_number. rewrite eqb_spec. intros H E. rewrite E in H. discriminate.
Qed.

Lemma ltb_asym (x y : float) : (x <? y)%float = true -> (y <? x)%float = false.
Proof. rewrite !ltb_spec. apply SFltb_asym. Qed.

Lemma ltb_ge_trans (x y z : float) :
  is_number x = true -> is_number y = true -> is_number z = true ->
  (x <? y)%float = false -> (y <? z)%float = false -> (x <? z)%float = false.
Proof.
  intros Hx Hy Hz. rewrite !ltb_spec.
  apply SFltb_ge_trans; now apply is_number_spec.
Qed.

Lemma insert_desc_In (x y : str * float) (l : list (str * float)) :
  In y (insert_desc x l) -> y = x \/ In y l.
Proof.
  intros H. apply (Permutation_in _ (insert_desc_perm x l)) in H.
  destruct H as [<- | H]; auto.
Qed.

Lemma insert_desc_sorted (x : str * float) (l : list (str * float)) :
  is_number (snd x) = true ->
  Forall (fun kv => is_number (snd kv) = true) l ->
  StronglySorted descending l ->
  StronglySorted descending (insert_desc x l).
Proof.
  intros Hx Hl Hs. induction l as [|y l IH]; cbn [insert_desc].
  - repeat constructor.
  - inversion Hl as [|? ? Hy Hl']; subst.
    inversion Hs as [|? ? Hs' Hall]; subst.
    destruct (snd x <? snd y)%float eqn:E.
    + constructor; [now apply IH|].
      apply Forall_forall. intros z Hz. apply insert_desc_In in Hz as [-> | Hz].
      * unfold descending. now apply ltb_asym.
      * rewrite Forall_forall in Hall. now apply Hall.
    + constructor; [exact Hs|].
      constructor; [exact E|].
      apply Forall_forall. intros z Hz. unfold descending.
      rewrite Forall_forall in Hall, Hl'.
      apply (ltb_ge_trans (snd x) (snd y) (snd z)); auto.
      now apply Hall.
Qed.

Lemma sorted_desc_sorted (l : list (str * float)) :
  Forall (fun kv => is_number (snd kv) = true) l ->
  StronglySorted descending (sorted_desc l).
Proof.
  induction 1 as [|x l Hx Hl IH]; cbn [sorted_desc fold_right]; [constructor|].
  apply insert_desc_sorted; [exact Hx| |exact IH].
  apply Forall_forall. intros y Hy.
  apply (Permutation_in _ (sorted_desc_perm l)) in Hy.
  rewrite Forall_forall in Hl. now apply Hl.
Qed.

Lemma filter_sorted {A : Type} (R : A -> A -> Prop) (p : A -> bool) (l : list A) :
  StronglySorted R l -> StronglySorted R (filter p l).
Proof.
  induction 1 as [|x l Hs IH Hall]; cbn [filter]; [constructor|].
  destruct (p x); [|exact IH].
  constructor; [exact IH|].
  rewrite Forall_forall in *. intros y Hy. apply filter_In in Hy as [Hy _]. auto.
Qed.

Lemma dict_set_new {V : Type} (k : str) (v : V) (d : dict V) :
  ~ In k (map fst d) -> dict_set k v d = d ++ [(k, v)].
Proof.
  induction d as [|[k0 v0] d IH]; [reflexivity|].
  cbn [map fst In dict_set app]. intros H.
  destruct (str_eqb k k0) eqn:E.
  - apply str_eqb_eq in E. subst. exfalso. apply H. now left.
  - f_equal. apply IH. intros Hin. apply H. now right.
Qed.

(** Storing entries with distinct keys one after the other lists them
    in their order. *)
Lemma store_all_distinct {V : Type} (items : list (str * V)) (d : dict V) :
  NoDup (map fst (d ++ items)) -> store_all items d = d ++ items.
Proof.
  revert d. induction items as [|[k v] items IH]; intros d H.
  - now rewrite app_nil_r.
  - unfold store_all. cbn [fold_left fst snd]. fold (store_all items (dict_set k v d)).
    assert (Hk : ~ In k (map fst d)).
    { rewrite map_app in H. cbn [map fst] in H. apply NoDup_remove_2 in H.
      intros Hin. apply H. apply in_or_app. now left. }
    rewrite (dict_set_new k v d Hk).
    replace (d ++ (k, v) :: items) with ((d ++ [(k, v)]) ++ items) in *
      by now rewrite <- app_assoc.
    now apply IH.
Qed.

(** X. The order of what [group_small] returns, for a mapping whose
    total is not zero: the categories at or above the threshold in the
    order of a stable sort by descending value; when the values are
    numbers, no later one is above an earlier one. The bucket, when the
    magnitude of the folded sum exceeds 1e-12, comes after them all with
    0.0 plus that sum, unless a kept category bears its name: that
    category stays where it is and the sum is added to its value. No
    input makes the division fail. *)
Theorem group_small_order (float_sum : list float -> float)
  (totals : dict float) (min_ratio : float) (other_name : str) :
  NoDup (map fst totals) ->
  (float_sum (dict_values totals) =? 0)%float = false ->
  let total := float_sum (dict_values totals) in
  let keep := filter (fun kv => negb (is_small total min_ratio (snd kv))) (sorted_desc totals) in
  let other_sum :=
    PyFloat.sum_left
      (map snd (filter (fun kv => is_small total min_ratio (snd kv)) (sorted_desc totals))) in
  group_small float_sum totals min_ratio other_name
  = Ok (if above_epsilon other_sum
        then match dict_get other_name keep with
             | Some v => dict_set other_name (v + other_sum)%float keep
             | None => keep ++ [(other_name, (0 + other_sum)%float)]
             end
        else keep)
  /\ (Forall (fun kv => is_number (snd kv) = true) totals -> StronglySorted descending keep).
Proof.
  intros Hnd Ht total keep other_sum. split.
  - unfold group_small. rewrite Ht. fold total.
    rewrite (group_loop_split total min_ratio _ [] 0%float Ht). cbn [bind].
    fold keep. change (fold_left PrimFloat.add _ 0%float) with other_sum.
    assert (Hkeep : NoDup (map fst keep)).
    { apply NoDup_keys_filter.
      apply (Permutation_NoDup (Permutation_map fst (Permutation_sym (sorted_desc_perm totals)))).
      exact Hnd. }
    rewrite (store_all_distinct keep []) by exact Hkeep. cbn [app].
    destruct (above_epsilon other_sum); [|reflexivity].
    unfold dict_get_default.
    destruct (dict_get other_name keep) as [v|] eqn:Eg; [reflexivity|].
    rewrite dict_set_new; [reflexivity|].
    intros Hin. apply in_map_iff in Hin as ([k v] & Hk & Hin). cbn [fst] in Hk. subst k.
    apply (dict_get_In other_name v keep Hkeep) in Hin. congruence.
  - intros Hnum. apply filter_sorted. now apply sorted_desc_sorted.
Qed.

Lemma group_small_order_witness :
  group_small PyFloat.sum_left
    [(py "Tea", 6%float); (py "Food", 190%float); (py "Rent", 800%float); (py "Gum", 4%float)]
    0.03 (py "Other")
  = Ok [(py "Rent", 800%float); (py "Food", 190%float); (py "Other", 10%float)].
Proof.
  pose (t := [(py "Tea", 6%float); (py "Food", 190%float); (py "Rent", 800%float);
              (py "Gum", 4%float)] : dict float).
  refine (eq_trans (proj1 (group_small_order PyFloat.sum_left t 0.03%float (py "Other") _ _)) _).
  - vm_compute. repeat constructor; simpl; intuition discriminate.
  - vm_compute. reflexivity.
  - vm_compute. reflexivity.
Defined.

End GroupSmallOrder.

(** ** iconize *)

Section Iconize.

(** A word spelled with any casing and padding is found by stripping
    and lowering, when it has no white space at its ends. *)
Lemma lower_strip_spelled (name header : str) :
  name <> [] -> no_lead name = true -> no_lead (rev name) = true ->
  spells name header -> lower (strip header) = name.
Proof.
  intros Hne H1 H2 (pre & body & post & -> & Hpre & Hpost & Hb).
  rewrite strip_padding; try assumption.
  - intros ->. now apply Hne.
  - destruct name as [|a rest]; [contradiction|].
    apply (no_lead_of_lower body a rest Hb). now apply negb_true_iff.
  - destruct (rev name) as [|z rest] eqn:Er.
    { apply (f_equal (@rev ascii)) in Er. rewrite rev_involutive in Er. now subst. }
    apply (no_lead_of_lower (rev body) z rest).
    + now rewrite lower_rev, Hb.
    + now apply negb_true_iff.
Qed.

(** X. [iconize] keeps the label as it was given, to the last
    character: either it returns it unchanged, or it puts an icon and
    one space before it. The icon is found by the label stripped and in
    lower case: a label that spells one of the ten keys of [ICON_MAP]
    with any casing and any white space around it gets the icon of that
    key, before its own casing and white space; every other label is
    returned unchanged. *)
Theorem iconize_label (cat : str) :
  (forall key icon,
      In (key, icon) ICON_MAP -> spells key cat ->
      iconize cat = icon ++ [32%N] ++ text_of cat)
  /\ (~ In (lower (strip cat)) (map fst ICON_MAP) -> iconize cat = text_of cat)
  /\ exists prefix, iconize cat = prefix ++ text_of cat.
Proof.
  assert (Hnd : NoDup (map fst ICON_MAP)).
  { vm_compute. repeat constructor; simpl; intuition discriminate. }
  split; [|split].
  - intros key icon Hin Hsp.
    assert (Hkey : lower (strip cat) = key).
    { apply lower_strip_spelled; [| | |exact Hsp];
        cbn [ICON_MAP In] in Hin;
        repeat (destruct Hin as [[= <- _] | Hin]; [try discriminate; reflexivity|]);
        contradiction. }
    unfold iconize. cbv zeta. unfold dict_get_default. rewrite Hkey.
    apply (dict_get_In key icon ICON_MAP Hnd) in Hin. unfold text in *. rewrite Hin.
    apply (dict_get_In key icon ICON_MAP Hnd) in Hin.
    cbn [ICON_MAP In] in Hin.
    repeat (destruct Hin as [[= _ <-] | Hin]; [reflexivity|]). contradiction.
  - intros Hout. unfold iconize. cbv zeta. unfold dict_get_default.
    unfold text in *. now rewrite (dict_get_notin _ _ Hout).
  - unfold iconize. cbv zeta. destruct (dict_get_default _ _ _) as [|c icon].
    + now exists [].
    + exists ((c :: icon) ++ text_of (py " ")). now rewrite <- app_assoc.
Qed.

Lemma iconize_label_witness :
  iconize (py " Coffee ") = [9749%N; 32%N] ++ text_of (py " Coffee ")
  /\ iconize (py "Tea") = text_of (py "Tea").
Proof.
  split.
  - apply (proj1 (iconize_label (py " Coffee ")) (py "coffee") [9749%N]).
    + cbn. tauto.
    + exists (py " "), (py "Coffee"), (py " "). repeat split.
  - apply (proj1 (proj2 (iconize_label (py "Tea")))).
    vm_compute. intuition discriminate.
Defined.

End Iconize.

(** ** The prompts *)

Section Prompts.

Lemma prompt_date_loop (clock : nat -> PyDatetime.t) (lines : list str) (out : list output) :
  prompt_date clock lines out
  = ask_until PromptDate (fun n s => normalize_date (clock n) s) lines out.
Proof.
  revert out. induction lines as [|l rest IH]; intros out; [reflexivity|].
  cbn [prompt_date ask_until].
  destruct (normalize_date _ _) as [v|[m| | | | |]]; try reflexivity. apply IH.
Qed.

Lemma prompt_amount_loop (lines : list str) (out : list output) :
  prompt_amount lines out = ask_until PromptAmount (fun _ s => normalize_amount s) lines out.
Proof.
  revert out. induction lines as [|l rest IH]; intros out; [reflexivity|].
  cbn [prompt_amount ask_until].
  destruct (normalize_amount _) as [v|[m| | | | |]]; try reflexivity. apply IH.
Qed.

Lemma prompt_category_loop (lines : list str) (out : list output) :
  prompt_category lines out
  = ask_until PromptCategory (fun _ s => normalize_category s) lines out.
Proof.
  revert out. induction lines as [|l rest IH]; intros out; [reflexivity|].
  cbn [prompt_category ask_until].
  destruct (normalize_category _) as [v|[m| | | | |]]; try reflexivity. apply IH.
Qed.

Variables (msg : prompt) (normalize : nat -> str -> result str).

Lemma asked_again_cons (m : message) (msgs : list message) :
  asked_again msg (m :: msgs) = [Asked msg; ErrorLine m] ++ asked_again msg msgs.
Proof. reflexivity. Qed.

(** The loop returns a value exactly when a line is accepted after
    lines that were refused. *)
Lemma ask_until_returns (lines : list str) (out : list output)
  (v : str) (rest : list str) (out' : list output) :
  ask_until msg normalize lines out = Return v rest out'
  <-> exists skipped msgs l,
        lines = skipped ++ l :: rest
        /\ refused normalize (S (List.length rest)) skipped msgs
        /\ normalize (List.length rest) (strip l) = Ok v
        /\ out' = out ++ asked_again msg msgs.
Proof.
  split.
  - revert out. induction lines as [|l0 lines IH]; intros out H; [discriminate|].
    cbn [ask_until] in H.
    destruct (normalize (List.length lines) (strip l0)) as [v0|e] eqn:E.
    + injection H as <- <- <-. exists [], [], l0. repeat split. exact E.
    + destruct e as [m| | | | |]; try discriminate.
      destruct (IH _ H) as (skipped & msgs & l & -> & Hr & Hl & ->).
      exists (l0 :: skipped), (m :: msgs), l.
      split; [reflexivity|]. split; [|split; [exact Hl|]].
      * cbn [refused]. split; [|exact Hr].
        rewrite length_app in E. cbn [List.length] in E. exact E.
      * rewrite asked_again_cons. now rewrite <- !app_assoc.
  - intros (skipped & msgs & l & -> & Hr & Hl & ->). revert out msgs Hr.
    induction skipped as [|s skipped IH]; intros out msgs Hr.
    + destruct msgs; [|contradiction]. cbn [app ask_until]. now rewrite Hl.
    + destruct msgs as [|m msgs]; [contradiction|]. destruct Hr as [Hs Hr].
      cbn [app ask_until]. rewrite length_app. cbn [List.length]. rewrite Hs.
      rewrite (IH _ msgs Hr). rewrite asked_again_cons. now rewrite <- !app_assoc.
Qed.

(** The loop ends the program exactly when a line raises another
    exception than a [ValueError] after lines that were refused, or when
    every line was refused. *)
Lemma ask_until_aborts (lines : list str) (out : list output) (s : stop) (out' : list output) :
  ask_until msg normalize lines out = Abort s out'
  <-> exists skipped msgs,
        refused normalize (List.length lines - List.length skipped) skipped msgs
        /\ out' = out ++ asked_again msg msgs
        /\ ((s = EOFError /\ lines = skipped)
            \/ exists l rest e,
                 lines = skipped ++ l :: rest
                 /\ normalize (List.length rest) (strip l) = Raise e
                 /\ (forall m, e <> ValueError m)
                 /\ s = Uncaught e).
Proof.
  split.
  - revert out. induction lines as [|l0 lines IH]; intros out H.
    + injection H as <- <-. exists [], []. repeat split. now left.
    + cbn [ask_until] in H.
      destruct (normalize (List.length lines) (strip l0)) as [v0|e] eqn:E; [discriminate|].
      assert (Hstop : (forall m, e <> ValueError m) -> @Abort str (Uncaught e) (out ++ [Asked msg]) = Abort s out' ->
                exists skipped msgs,
                  refused normalize (List.length (l0 :: lines) - List.length skipped) skipped msgs
                  /\ out' = out ++ asked_again msg msgs
                  /\ ((s = EOFError /\ l0 :: lines = skipped)
                      \/ exists l rest e0,
                           l0 :: lines = skipped ++ l :: rest
                           /\ normalize (List.length rest) (strip l) = Raise e0
                           /\ (forall m, e0 <> ValueError m)
                           /\ s = Uncaught e0)).
      { intros Hne [= <- <-]. exists [], []. repeat split. right.
        exists l0, lines, e. repeat split; assumption. }
      destruct e as [m| | | | |]; try (apply Hstop; [discriminate | exact H]).
      destruct (IH _ H) as (skipped & msgs & Hr & -> & Hcase).
      exists (l0 :: skipped), (m :: msgs).
      assert (Hlen : (List.length skipped <= List.length lines)%nat).
      { destruct Hcase as [[_ ->] | (l & rest & e0 & -> & _)]; [lia|].
        rewrite length_app. lia. }
      split; [|split].
      * cbn [refused List.length]. split.
        -- replace (List.length skipped + (S (List.length lines) - S (List.length skipped)))%nat
             with (List.length lines) by lia. exact E.
        -- exact Hr.
      * rewrite asked_again_cons. now rewrite <- !app_assoc.
      * destruct Hcase as [[-> ->] | (l & rest & e0 & -> & He & Hne & ->)]; [now left|].
        right. exists l, rest, e0. repeat split; assumption.
  - intros (skipped & msgs & Hr & -> & Hcase). revert out msgs lines Hr Hcase.
    induction skipped as [|s0 skipped IH]; intros out msgs lines Hr Hcase.
    + destruct msgs; [|contradiction].
      destruct Hcase as [[-> ->] | (l & rest & e & -> & He & Hne & ->)]; [reflexivity|].
      cbn [app ask_until]. rewrite He.
      destruct e as [m| | | | |]; try reflexivity. now contradiction (Hne m).
    + destruct msgs as [|m msgs]; [contradiction|]. destruct Hr as [Hs Hr].
      assert (Hl : exists lines', lines = s0 :: lines'
                     /\ (List.length skipped <= List.length lines')%nat).
      { destruct Hcase as [[_ ->] | (l & rest & e & -> & _)].
        - exists skipped. split; [reflexivity | lia].
        - exists (skipped ++ l :: rest). split; [reflexivity|]. rewrite length_app. lia. }
      destruct Hl as (lines' & -> & Hlen).
      cbn [ask_until].
      replace (List.length skipped + (List.length (s0 :: lines') - List.length (s0 :: skipped)))%nat
        with (List.length lines') in Hs by (cbn [List.length]; lia).
      rewrite Hs. rewrite asked_again_cons, !app_assoc.
      rewrite <- (app_assoc out). apply IH.
      * exact Hr.
      * destruct Hcase as [[-> [= ->]] | (l & rest & e & [= ->] & He & Hne & ->)]; [now left|].
        right. exists l, rest, e. repeat split; assumption.
Qed.

End Prompts.

Section PromptClaims.

Lemma normalize_date_raises (now : PyDatetime.t) (s : str) (e : exn) :
  normalize_date now s = Raise e -> exists m, e = ValueError m.
Proof.
  unfold normalize_date. destruct (strip s); [intros [= <-]; eauto|].
  destruct (str_in _ _); [discriminate|].
  destruct (PyDatetime.strptime _); [discriminate | intros [= <-]; eauto].
Qed.

Lemma normalize_category_raises (s : str) (e : exn) :
  normalize_category s = Raise e -> exists m, e = ValueError m.
Proof.
  unfold normalize_category. destruct (strip s); [intros [= <-]; eauto | discriminate].
Qed.

Lemma normalize_amount_raises (s : str) (e : exn) :
  normalize_amount s = Raise e ->
  (exists m, e = ValueError m) \/ e = InvalidOperation \/ e = Overflow.
Proof.
  unfold normalize_amount. destruct (strip s); [intros [= <-]; eauto|].
  destruct (PyDecimal.of_str _) as [d|]; [|intros [= <-]; eauto].
  destruct d as [sign c ex | sign | sign sg pl]; cbn [PyDecimal.le_zero bind].
  - destruct (sign || (c =? 0)%N); [intros [= <-]; eauto|].
    destruct (PyDecimal.normalize _) as [n|e'] eqn:En; cbn [bind].
    + destruct (char_in _ _); discriminate.
    + intros [= <-]. apply normalize_finite_raises in En. auto.
  - destruct sign; [intros [= <-]; eauto|]. cbn. discriminate.
  - intros [= <-]. auto.
Qed.

(** X. The three prompts that validate return the normalized value of
    the first line that their normalizer accepts: the lines typed before
    it were each refused with a [ValueError], whose message was printed
    after the prompt; the lines after it are left unread; nothing else is
    written. Lines are stripped before they are normalized. *)
Theorem prompts_return :
  (forall clock lines out v rest out',
      prompt_date clock lines out = Return v rest out'
      <-> exists skipped msgs l,
            lines = skipped ++ l :: rest
            /\ refused (fun n s => normalize_date (clock n) s) (S (List.length rest)) skipped msgs
            /\ normalize_date (clock (List.length rest)) (strip l) = Ok v
            /\ out' = out ++ asked_again PromptDate msgs)
  /\ (forall lines out v rest out',
        prompt_amount lines out = Return v rest out'
        <-> exists skipped msgs l,
              lines = skipped ++ l :: rest
              /\ refused (fun _ s => normalize_amount s) (S (List.length rest)) skipped msgs
              /\ normalize_amount (strip l) = Ok v
              /\ out' = out ++ asked_again PromptAmount msgs)
  /\ (forall lines out v rest out',
        prompt_category lines out = Return v rest out'
        <-> exists skipped msgs l,
              lines = skipped ++ l :: rest
              /\ refused (fun _ s => normalize_category s) (S (List.length rest)) skipped msgs
              /\ normalize_category (strip l) = Ok v
              /\ out' = out ++ asked_again PromptCategory msgs).
Proof.
  split; [|split]; intros.
  - rewrite prompt_date_loop. apply ask_until_returns.
  - rewrite prompt_amount_loop. apply (ask_until_returns PromptAmount (fun _ s => normalize_amount s)).
  - rewrite prompt_category_loop.
    apply (ask_until_returns PromptCategory (fun _ s => normalize_category s)).
Qed.

(** A loop whose normalizer raises nothing but [ValueError] ends the
    program at the end of the input only. *)
Lemma ask_until_aborts_eof (msg : prompt) (normalize : nat -> str -> result str)
  (lines : list str) (out : list output) (s : stop) (out' : list output) :
  (forall n x e, normalize n x = Raise e -> exists m, e = ValueError m) ->
  ask_until msg normalize lines out = Abort s out'
  <-> s = EOFError
      /\ exists msgs, refused normalize 0 lines msgs /\ out' = out ++ asked_again msg msgs.
Proof.
  intros Hv. rewrite ask_until_aborts. split.
  - intros (skipped & msgs & Hr & -> & [[-> ->] | (l & rest & e & -> & He & Hne & ->)]).
    + split; [reflexivity|]. exists msgs. rewrite Nat.sub_diag in Hr. auto.
    + destruct (Hv _ _ _ He) as (m & ->). now contradiction (Hne m).
  - intros (-> & msgs & Hr & ->). exists lines, msgs. rewrite Nat.sub_diag. auto.
Qed.

(** X. How the validating prompts end the program. [prompt_date] and
    [prompt_category] do it only at the end of the input, with
    [EOFError], after every line was refused. [prompt_amount] does it
    also on a line that [normalize_amount] answers with an exception
    that is no [ValueError]: [decimal.InvalidOperation] (a line that
    reads as a NaN) or [decimal.Overflow]; the handler does not catch
    them. *)
Theorem prompts_abort :
  (forall clock lines out s out',
      prompt_date clock lines out = Abort s out'
      <-> s = EOFError
          /\ exists msgs,
               refused (fun n x => normalize_date (clock n) x) 0 lines msgs
               /\ out' = out ++ asked_again PromptDate msgs)
  /\ (forall lines out s out',
        prompt_category lines out = Abort s out'
        <-> s = EOFError
            /\ exists msgs,
                 refused (fun _ x => normalize_category x) 0 lines msgs
                 /\ out' = out ++ asked_again PromptCategory msgs)
  /\ (forall lines out s out',
        prompt_amount lines out = Abort s out'
        <-> exists skipped msgs,
              refused (fun _ x => normalize_amount x)
                (List.length lines - List.length skipped) skipped msgs
              /\ out' = out ++ asked_again PromptAmount msgs
              /\ ((s = EOFError /\ lines = skipped)
                  \/ exists l rest e,
                       lines = skipped ++ l :: rest
                       /\ normalize_amount (strip l) = Raise e
                       /\ (e = InvalidOperation \/ e = Overflow)
                       /\ s = Uncaught e)).
Proof.
  split; [|split]; intros.
  - rewrite prompt_date_loop. apply ask_until_aborts_eof.
    intros n x e. apply normalize_date_raises.
  - rewrite prompt_category_loop.
    apply (ask_until_aborts_eof PromptCategory (fun _ x => normalize_category x)).
    intros n x e. apply normalize_category_raises.
  - rewrite prompt_amount_loop.
    rewrite (ask_until_aborts PromptAmount (fun _ x => normalize_amount x)).
    split; intros (skipped & msgs & Hr & Ho & Hcase); exists skipped, msgs;
      (split; [exact Hr|]); (split; [exact Ho|]);
      (destruct Hcase as [Heof | (l & rest & e & Hl & He & Hne & Hs)]; [now left|]);
      right; exists l, rest, e; (split; [exact Hl|]); (split; [exact He|]); (split; [|exact Hs]).
    + destruct (normalize_amount_raises _ _ He) as [(m & ->) | H]; [|exact H].
      now contradiction (Hne m).
    + intros m. destruct Hne as [-> | ->]; discriminate.
Qed.

(** X. [prompt_nonempty] returns the first line that is not blank,
    stripped; each blank line before it was answered with the request to
    try again; when every line is blank the program ends at the end of
    the input with [EOFError]. *)
Theorem prompt_nonempty_first (msg : prompt) (lines : list str) (out : list output) :
  let said (n : nat) := flat_map (fun _ => [Asked msg; RetryBlank]) (seq 0 n) ++ [Asked msg] in
  match prompt_nonempty msg lines out with
  | Return v rest out' =>
      exists blank l,
        lines = blank ++ l :: rest
        /\ Forall (fun b => forallb isspace b = true) blank
        /\ v = strip l /\ v <> []
        /\ out' = out ++ said (List.length blank)
  | Abort s out' =>
      s = EOFError
      /\ Forall (fun b => forallb isspace b = true) lines
      /\ out' = out ++ said (List.length lines)
  end.
Proof.
  intros said.
  assert (Hsaid : forall n, said (S n) = [Asked msg; RetryBlank] ++ said n).
  { intros n. unfold said. rewrite <- cons_seq, <- seq_shift. cbn [flat_map].
    rewrite flat_map_concat_map, map_map, <- flat_map_concat_map. now rewrite <- app_assoc. }
  revert out. induction lines as [|l0 lines IH]; intros out.
  - cbn. repeat split. constructor.
  - cbn [prompt_nonempty]. destruct (strip l0) as [|c t0] eqn:E.
    + specialize (IH ((out ++ [Asked msg]) ++ [RetryBlank])).
      destruct (prompt_nonempty msg lines _) as [v rest out'|s out'].
      * destruct IH as (blank & l & -> & Hb & -> & Hne & ->).
        exists (l0 :: blank), l. repeat split; try assumption.
        -- constructor; [now apply strip_nil | exact Hb].
        -- cbn [List.length]. rewrite Hsaid. now rewrite <- !app_assoc.
      * destruct IH as (-> & Hb & ->). repeat split.
        -- constructor; [now apply strip_nil | exact Hb].
        -- cbn [List.length]. rewrite Hsaid. now rewrite <- !app_assoc.
    + exists [], l0.
      split; [reflexivity|]. split; [constructor|]. split; [now symmetry|].
      split; [discriminate | reflexivity].
Qed.

End PromptClaims.

(** ** main *)

Section MainRun.

Lemma ask_until_return_info (msg : prompt) (normalize : nat -> str -> result str)
  (lines : list str) (out : list output) (v : str) (rest : list str) (out' : list output) :
  ask_until msg normalize lines out = Return v rest out' ->
  (List.length rest < List.length lines)%nat /\ exists k s, normalize k s = Ok v.
Proof.
  intros H. apply ask_until_returns in H as (skipped & msgs & l & -> & _ & Hl & _).
  split; [rewrite length_app; cbn [List.length]; lia | eauto].
Qed.

Lemma ask_until_abort_info (msg : prompt) (normalize : nat -> str -> result str)
  (lines : list str) (out : list output) (s : stop) (out' : list output) :
  ask_until msg normalize lines out = Abort s out' ->
  s = EOFError
  \/ exists k x e, normalize k x = Raise e /\ (forall m, e <> ValueError m) /\ s = Uncaught e.
Proof.
  intros H. apply ask_until_aborts in H as (skipped & msgs & _ & _ & [[-> _] | Hc]); [now left|].
  destruct Hc as (l & rest & e & _ & He & Hne & ->). right. eauto 6.
Qed.

Lemma read_last_n_raises (fs : filesystem) (path : str) (n : Z) (e : exn) :
  read_last_n fs path n = Raise e -> e = CsvError.
Proof.
  unfold read_last_n. destruct (missing_or_empty fs path); [discriminate|].
  destruct (PyCsv.reader_of _) as [|fieldnames data|e0] eqn:Hrd; [discriminate| |].
  - destruct fieldnames as [|f l]; [discriminate|].
    destruct (existsb _ CSV_HEADERS); [discriminate|].
    destruct (collect_expenses (f :: l) data) as [rows|e1] eqn:Ec; [discriminate|].
    cbn [bind]. intros [= <-].
    apply (reader_data_failure _ _ _ _ Hrd).
    clear - Ec. induction data as [|cells rest IH|e2]; cbn [collect_expenses failure] in *.
    + discriminate.
    + destruct cells as [|c cs]; [now apply IH|].
      destruct (collect_expenses (f :: l) rest); [discriminate|].
      cbn [bind] in Ec. injection Ec as ->. now apply IH.
    + congruence.
  - intros [= <-]. apply (read_rows_failure (PyCsv.or_empty (fs path)) PyCsv.parse_reset true).
    now rewrite <- reader_of_read_rows, Hrd.
Qed.

Variables (clock : nat -> PyDatetime.t) (csv_path : str).

(** Every run of the loop ends, in one of the designed ways, and leaves
    the files as some appended records leave them. *)
Lemma main_loop_run (fuel : nat) (lines : list str) (fs : filesystem) (out : list output) :
  (List.length lines < fuel)%nat ->
  exists r es,
    main_loop clock fuel csv_path lines fs out = Some r
    /\ ends_as_designed (outcome r)
    /\ files r = append_all fs csv_path es
    /\ Forall (entered clock) es.
Proof.
  revert lines fs out. induction fuel as [|fuel IH]; intros lines fs out Hlen; [lia|].
  assert (Hend : forall o f w, ends_as_designed o ->
            exists r es, Some (mkRun o f w) = Some r /\ ends_as_designed (outcome r)
                         /\ files r = append_all f csv_path es /\ Forall (entered clock) es).
  { intros o f w Ho. exists (mkRun o f w), []. repeat split; [exact Ho | constructor]. }
  cbn [main_loop]. unfold print_menu.
  destruct lines as [|l rest]; cbn [input step].
  { apply Hend. right; left. reflexivity. }
  cbn [List.length] in Hlen.
  destruct (str_eqb (strip l) (py "1")).
  { destruct (prompt_date clock rest _) as [d rest1 out1|s out1] eqn:Ed; cbn [step].
    2:{ rewrite prompt_date_loop in Ed. apply ask_until_abort_info in Ed as [-> | Hc].
        - apply Hend. right; left. reflexivity.
        - destruct Hc as (k & x & e & He & Hne & _).
          apply normalize_date_raises in He as (m & ->). now contradiction (Hne m). }
    rewrite prompt_date_loop in Ed. apply ask_until_return_info in Ed as [Hl1 Hd].
    destruct (prompt_amount rest1 out1) as [a rest2 out2|s out2] eqn:Ea; cbn [step].
    2:{ rewrite prompt_amount_loop in Ea. apply ask_until_abort_info in Ea as [-> | Hc].
        - apply Hend. right; left. reflexivity.
        - destruct Hc as (k & x & e & He & Hne & ->).
          apply normalize_amount_raises in He as [(m & ->) | [-> | ->]].
          + now contradiction (Hne m).
          + apply Hend. right; right; left. reflexivity.
          + apply Hend. right; right; right; left. reflexivity. }
    rewrite prompt_amount_loop in Ea. apply ask_until_return_info in Ea as [Hl2 Ha].
    destruct (prompt_category rest2 out2) as [c rest3 out3|s out3] eqn:Ec; cbn [step].
    2:{ rewrite prompt_category_loop in Ec. apply ask_until_abort_info in Ec as [-> | Hc].
        - apply Hend. right; left. reflexivity.
        - destruct Hc as (k & x & e & He & Hne & _).
          apply normalize_category_raises in He as (m & ->). now contradiction (Hne m). }
    rewrite prompt_category_loop in Ec. apply ask_until_return_info in Ec as [Hl3 Hc].
    unfold prompt_optional, input. destruct rest3 as [|n rest4]; cbn [step].
    { apply Hend. right; left. reflexivity. }
    cbn [List.length] in Hl3.
    destruct (IH rest4 (append_expense fs csv_path (mkExpense d a c (strip n)))
                ((out3 ++ [Asked PromptNotes]) ++ [AddedLine (mkExpense d a c (strip n))]))
      as (r & es & Hr & Ho & Hf & He); [lia|].
    exists r, (mkExpense d a c (strip n) :: es). repeat split; try assumption.
    constructor; [|exact He].
    destruct Hd as (k & s & Hd). destruct Ha as (_ & s' & Ha). destruct Hc as (_ & s'' & Hc).
    repeat split; cbn [date amount category notes]; eauto. }
  destruct (str_eqb (strip l) (py "2")).
  { destruct (read_last_n fs csv_path 5) as [[|e last]|e] eqn:Er.
    - apply IH. lia.
    - apply IH. lia.
    - apply read_last_n_raises in Er. subst e. apply Hend. repeat right. reflexivity. }
  destruct (str_eqb (strip l) (py "3")).
  { apply Hend. now left. }
  apply IH. lia.
Qed.

End MainRun.

(** ** What the prompts return has no white space at its ends *)

Section CleanAnswers.

Import PyDecimal.

Lemma no_space_strip (s : str) : no_space s -> strip s = s.
Proof.
  intros H. apply strip_fixed.
  - destruct H as [|c t Hc _]; [reflexivity|]. cbn. now rewrite Hc.
  - apply Forall_rev in H. destruct H as [|c t Hc _]; [reflexivity|]. cbn. now rewrite Hc.
Qed.

Lemma no_space_app (a b : str) : no_space a -> no_space b -> no_space (a ++ b).
Proof. intros Ha Hb. apply Forall_app. now split. Qed.

Lemma no_space_firstn (n : nat) (s : str) : no_space s -> no_space (firstn n s).
Proof.
  intros H. rewrite <- (firstn_skipn n s) in H. now apply Forall_app in H.
Qed.

Lemma no_space_skipn (n : nat) (s : str) : no_space s -> no_space (skipn n s).
Proof.
  intros H. rewrite <- (firstn_skipn n s) in H. now apply Forall_app in H.
Qed.

Lemma no_space_repeat (c : ascii) (n : nat) : isspace c = false -> no_space (repeat c n).
Proof. intros H. induction n; cbn; constructor; assumption. Qed.

Lemma no_space_uint (d : Decimal.uint) :
  no_space (list_ascii_of_string (NilZero.string_of_uint d)).
Proof.
  assert (H : no_space (list_ascii_of_string (NilEmpty.string_of_uint d))).
  { induction d; cbn; try constructor; try reflexivity; assumption. }
  destruct d; try exact H. repeat constructor.
Qed.

Lemma N_to_str_no_space (n : N) : no_space (N_to_str n).
Proof. apply no_space_uint. Qed.

Lemma lstrip_chars_no_space (chars s : str) : no_space s -> no_space (lstrip_chars chars s).
Proof.
  induction 1 as [|c t Hc Ht IH]; cbn [lstrip_chars]; [constructor|].
  destruct (char_in c chars); [exact IH | now constructor].
Qed.

Lemma rstrip_chars_no_space (chars s : str) : no_space s -> no_space (rstrip_chars chars s).
Proof.
  intros H. unfold rstrip_chars. apply Forall_rev, lstrip_chars_no_space, Forall_rev, H.
Qed.

Ltac no_space_parts :=
  repeat first
    [ apply no_space_app
    | apply N_to_str_no_space
    | apply no_space_firstn
    | apply no_space_skipn
    | apply no_space_repeat; reflexivity
    | apply Forall_nil
    | apply Forall_cons; [reflexivity|] ].

Lemma sign_str_no_space (sign : bool) : no_space (sign_str sign).
Proof. destruct sign; repeat constructor. Qed.

Lemma special_str_no_space (d : t) : no_space (special_str d).
Proof.
  destruct d as [s c e | s | s sg pl]; cbn [special_str].
  - constructor.
  - repeat constructor.
  - apply no_space_app.
    + destruct sg; repeat constructor.
    + destruct (pl =? 0)%N; [constructor | apply N_to_str_no_space].
Qed.

Lemma format_f_no_space (d : t) : no_space (format_f d).
Proof.
  destruct d as [s c e | s | s sg pl]; cbn [format_f];
    try (apply no_space_app; [apply sign_str_no_space | apply special_str_no_space]).
  unfold take, drop, repeat_char.
  destruct (e + len (N_to_str c) <? 0).
  - apply no_space_app; [apply sign_str_no_space|].
    destruct (repeat _ _ ++ N_to_str c) eqn:E; [repeat constructor|].
    rewrite <- E. no_space_parts.
  - destruct (len (N_to_str c) <? e + len (N_to_str c)).
    + apply no_space_app; [apply sign_str_no_space|]. no_space_parts.
    + apply no_space_app; [apply sign_str_no_space|].
      apply no_space_app.
      * destruct (firstn _ (N_to_str c)) eqn:E; [repeat constructor|].
        rewrite <- E. no_space_parts.
      * destruct (skipn _ (N_to_str c)) eqn:E; [constructor|].
        rewrite <- E. no_space_parts.
Qed.

Lemma to_str_no_space (d : t) : no_space (to_str d).
Proof.
  destruct d as [s c e | s | s sg pl]; cbn [to_str];
    try (apply no_space_app; [apply sign_str_no_space | apply special_str_no_space]).
  unfold take, drop, repeat_char.
  set (leftdigits := e + len (N_to_str c)).
  set (dotplace := if (e <=? 0) && (-6 <? leftdigits) then leftdigits else 1).
  assert (Hexp : no_space
            (if leftdigits =? dotplace then []
             else "E"%char
                    :: (if 0 <=? leftdigits - dotplace then py "+" else py "-")
                    ++ N_to_str (Z.abs_N (leftdigits - dotplace)))).
  { destruct (leftdigits =? dotplace); [constructor|].
    constructor; [reflexivity|]. apply no_space_app; [|apply N_to_str_no_space].
    destruct (0 <=? leftdigits - dotplace); repeat constructor. }
  destruct (dotplace <=? 0).
  - apply no_space_app; [apply sign_str_no_space|]. no_space_parts. exact Hexp.
  - destruct (len (N_to_str c) <=? dotplace).
    + apply no_space_app; [apply sign_str_no_space|]. no_space_parts. exact Hexp.
    + apply no_space_app; [apply sign_str_no_space|]. no_space_parts. exact Hexp.
Qed.

Lemma normalize_amount_no_space (s v : str) : normalize_amount s = Ok v -> no_space v.
Proof.
  unfold normalize_amount. destruct (strip s); [discriminate|].
  destruct (of_str _) as [d|]; [|discriminate].
  destruct (le_zero d) as [[|]|]; cbn [bind]; try discriminate.
  destruct (normalize d) as [n|]; cbn [bind]; [|discriminate].
  destruct (char_in _ _); intros [= <-].
  - apply rstrip_chars_no_space, rstrip_chars_no_space, format_f_no_space.
  - apply to_str_no_space.
Qed.

End CleanAnswers.

(** ** main: the sessions *)

Section MainClaims.

Variables (clock : nat -> PyDatetime.t) (csv_path : str).

(** X. The entry tool ends on every input, and in one of five ways: it
    returns 0 (after the choice "3"); or it is ended by the [EOFError] of
    [input] at the end of the input, by the [decimal.InvalidOperation] or
    the [decimal.Overflow] that [normalize_amount] raises on an amount
    that reads as a NaN or is too large, or by the [csv.Error] of the
    reader when the latest records are asked for. No other exception
    leaves [main], and no sequence of lines keeps it running. *)
Theorem main_always_ends (lines : list str) (fs : filesystem) :
  exists r, main clock csv_path lines fs = Some r /\ ends_as_designed (outcome r).
Proof.
  unfold main.
  destruct (main_loop_run clock csv_path (S (List.length lines)) lines
              (ensure_csv_has_header fs csv_path) [StoreLine csv_path])
    as (r & es & Hr & Ho & _); [lia|].
  now exists r.
Qed.

Lemma append_expense_other (fs : filesystem) (path : str) (e : Expense) (p : str) :
  p <> path -> append_expense fs path e p = fs p.
Proof.
  intros Hp. unfold append_expense, append_file. rewrite write_file_other by assumption.
  unfold ensure_csv_has_header.
  destruct (missing_or_empty fs path); [now apply write_file_other | reflexivity].
Qed.

Lemma append_all_other (fs : filesystem) (path : str) (es : list Expense) (p : str) :
  p <> path -> append_all fs path es p = fs p.
Proof.
  intros Hp. revert fs. induction es as [|e es IH]; intros fs; [reflexivity|].
  cbn [append_all]. rewrite IH. now apply append_expense_other.
Qed.

(** A record that the dialogue produced is well formed. *)
Lemma entered_well_formed (e : Expense) :
  (forall n, PyDatetime.valid (PyDatetime.year (clock n)) (PyDatetime.month (clock n))
               (PyDatetime.day (clock n)) = true) ->
  entered clock e ->
  (exists y m d, PyDatetime.valid y m d = true /\ date e = iso_date "-" y m d)
  /\ category e <> []
  /\ trimmed e = e.
Proof.
  intros Hclock ((k & s1 & Hd) & (s2 & Ha) & (s3 & Hc) & (s4 & Hn)).
  destruct (normalize_date_shape _ _ _ (Hclock k) Hd) as (y & m & d & Hv & Hdate).
  assert (Hcat : category e <> [] /\ strip (category e) = category e).
  { unfold normalize_category in Hc. destruct (strip s3) as [|c t0] eqn:E; [discriminate|].
    injection Hc as <-. split; [discriminate|]. rewrite <- E. apply strip_idempotent. }
  split; [eauto|]. split; [apply Hcat|].
  destruct e as [de ae ce ne]. cbn [date amount category notes] in *.
  unfold trimmed. cbn [date amount category notes]. f_equal.
  - subst de. destruct (valid_bounds y m d Hv) as (Hy & Hm & Hdd). now apply strip_iso.
  - apply no_space_strip. eapply normalize_amount_no_space; eassumption.
  - apply Hcat.
  - subst ne. apply strip_idempotent.
Qed.

(** X. Whatever is typed, and however the run ends, the entry tool
    leaves every other file as it was, and its own file as the appending
    of some records to the file with its header ensured: it removes and
    rewrites nothing. Each record appended is made of values that the
    prompts returned; with a clock that shows dates of the calendar, its
    date is the hyphen spelling of such a date, its category is not
    empty, and no field has white space at an end. *)
Theorem main_only_appends (lines : list str) (fs : filesystem) (r : run) :
  (forall n, PyDatetime.valid (PyDatetime.year (clock n)) (PyDatetime.month (clock n))
               (PyDatetime.day (clock n)) = true) ->
  main clock csv_path lines fs = Some r ->
  exists es,
    files r = append_all (ensure_csv_has_header fs csv_path) csv_path es
    /\ (forall p, p <> csv_path -> files r p = fs p)
    /\ Forall (fun e => entered clock e
                        /\ (exists y m d, PyDatetime.valid y m d = true
                                          /\ date e = iso_date "-" y m d)
                        /\ category e <> []
                        /\ trimmed e = e) es.
Proof.
  intros Hclock Hmain. unfold main in Hmain.
  destruct (main_loop_run clock csv_path (S (List.length lines)) lines
              (ensure_csv_has_header fs csv_path) [StoreLine csv_path])
    as (r' & es & Hr & _ & Hf & He); [lia|].
  rewrite Hr in Hmain. injection Hmain as <-.
  exists es. split; [exact Hf|]. split.
  - intros p Hp. rewrite Hf, append_all_other by assumption.
    unfold ensure_csv_has_header.
    destruct (missing_or_empty fs csv_path); [now apply write_file_other | reflexivity].
  - eapply Forall_impl; [|exact He]. intros e Hent.
    split; [exact Hent|]. now apply entered_well_formed.
Qed.

(** The loop over the lines that enter some records, each accepted at
    once. *)
Lemma main_loop_enters (fuel : nat) (raws : list (str * str * str * str)) (es : list Expense)
  (tail : list str) (fs : filesystem) (out : list output) :
  Forall2 (enters clock) raws es ->
  main_loop clock (List.length raws + fuel) csv_path (flat_map typed raws ++ tail) fs out
  = main_loop clock fuel csv_path tail (append_all fs csv_path es) (out ++ flat_map added es).
Proof.
  intros H. revert fs out. induction H as [|raw e raws es Hraw _ IH]; intros fs out.
  - cbn. now rewrite app_nil_r.
  - destruct raw as [[[d a] c] n]. destruct Hraw as (Hd & Ha & Hc & Hn).
    cbn [List.length Nat.add flat_map typed app main_loop input step].
    unfold print_menu.
    change (strip (py "1")) with (py "1"). cbn [str_eqb py list_ascii_of_string Ascii.eqb Bool.eqb andb].
    cbn [prompt_date]. rewrite Hd. cbn [step prompt_amount]. rewrite Ha.
    cbn [step prompt_category]. rewrite Hc. cbn [step].
    unfold prompt_optional, input. cbn [step]. rewrite Hn.
    replace (mkExpense (date e) (amount e) (category e) (notes e)) with e by now destruct e.
    rewrite IH. cbn [append_all flat_map]. f_equal.
    unfold added. rewrite <- !app_assoc. reflexivity.
Qed.

Lemma typed_length (raws : list (str * str * str * str)) :
  List.length (flat_map typed raws) = (5 * List.length raws)%nat.
Proof.
  induction raws as [|[[[d a] c] n] raws IH]; [reflexivity|].
  cbn [flat_map typed app List.length]. rewrite IH. lia.
Qed.

(** X. A session that enters records and leaves. When each record is
    typed as the choice "1" and four answers that the prompts accept at
    once, and the choice "3" follows, [main] returns 0; the file is the
    one with its header ensured and the records appended in the order
    they were typed, each made of the normalized date, amount and
    category and of the stripped notes; the terminal shows the name of
    the file, then for each record the menu, the five questions and the
    record added, then the menu, the question and the farewell. *)
Theorem main_session (raws : list (str * str * str * str)) (es : list Expense)
  (fs : filesystem) :
  Forall2 (enters clock) raws es ->
  main clock csv_path (flat_map typed raws ++ [py "3"]) fs
  = Some (mkRun (Exited 0)
            (append_all (ensure_csv_has_header fs csv_path) csv_path es)
            ([StoreLine csv_path] ++ flat_map added es
               ++ [MenuLines; Asked PromptChoice; ByeLine])).
Proof.
  intros H. unfold main.
  rewrite length_app, typed_length. cbn [List.length].
  replace (S (5 * List.length raws + 1))
    with (List.length raws + S (4 * List.length raws + 1))%nat by lia.
  rewrite (main_loop_enters _ raws es) by exact H.
  cbn [main_loop input step]. unfold print_menu.
  change (strip (py "3")) with (py "3").
  cbn [str_eqb py list_ascii_of_string Ascii.eqb Bool.eqb andb].
  rewrite <- !app_assoc. reflexivity.
Qed.


Lemma last_n_nonempty {A : Type} (l : list A) : l <> [] -> last_n 5 l <> [].
Proof.
  intros Hne E. apply (f_equal (@List.length A)) in E.
  unfold last_n in E. cbn [Z.ltb Z.compare] in E. rewrite length_skipn in E.
  destruct l; [contradiction|]. cbn [List.length] in E.
  change (Z.to_nat 5) with 5%nat in E. lia.
Qed.

(** X. A session that enters records into a new store and asks for the
    latest. When the file was missing or empty, each record is typed as
    the choice "1" and four answers that the prompts accept at once, no
    field is longer than the reader's field limit, and the choices "2"
    and "3" follow, the tool lists the last five of the records typed
    (all of them when there are fewer), numbered from 1, in the order
    they were typed and as they were stored, between two rules of sixty
    hyphens; then it returns 0. *)
Theorem main_lists_latest (raws : list (str * str * str * str)) (es : list Expense)
  (fs : filesystem) :
  (forall n, PyDatetime.valid (PyDatetime.year (clock n)) (PyDatetime.month (clock n))
               (PyDatetime.day (clock n)) = true) ->
  fs csv_path = None \/ fs csv_path = Some [] ->
  Forall2 (enters clock) raws es ->
  Forall readable es ->
  es <> [] ->
  main clock csv_path (flat_map typed raws ++ [py "2"; py "3"]) fs
  = Some (mkRun (Exited 0)
            (append_all (ensure_csv_has_header fs csv_path) csv_path es)
            ([StoreLine csv_path] ++ flat_map added es
               ++ [MenuLines; Asked PromptChoice; RecentTitle; Text (repeat "-"%char 60)]
               ++ entry_lines 1 (last_n 5 es)
               ++ [Text (repeat "-"%char 60); MenuLines; Asked PromptChoice; ByeLine])).
Proof.
  intros Hclock Hfs H Hread Hne. unfold main.
  rewrite length_app, typed_length. cbn [List.length].
  replace (S (5 * List.length raws + 2))
    with (List.length raws + S (S (4 * List.length raws + 1)))%nat by lia.
  rewrite (main_loop_enters _ raws es) by exact H.
  assert (Htrim : map trimmed es = es).
  { clear - Hclock H. induction H as [|raw e raws es Hraw _ IH]; [reflexivity|].
    cbn [map]. rewrite IH. f_equal.
    apply (entered_well_formed e Hclock).
    destruct raw as [[[d a] c] n]. destruct Hraw as (Hd & Ha & Hc & Hn).
    split; [exists 0%nat, (strip d); apply Hd|].
    split; [exists (strip a); exact Ha|].
    split; [exists (strip c); exact Hc|].
    exists n. now symmetry. }
  assert (Hstore : append_all (ensure_csv_has_header fs csv_path) csv_path es csv_path
                   = Some (store_text es)).
  { apply (append_all_more _ csv_path [] es).
    unfold ensure_csv_has_header, missing_or_empty.
    destruct Hfs as [-> | ->]; rewrite write_file_same; unfold store_text;
      cbn [flat_map]; now rewrite app_nil_r. }
  pose proof (read_last_n_store_text _ csv_path es 5 Hstore Hread) as Hlast.
  rewrite Htrim in Hlast.
  cbn [main_loop input step]. unfold print_menu.
  change (strip (py "2")) with (py "2"). change (strip (py "3")) with (py "3").
  cbn [str_eqb py list_ascii_of_string Ascii.eqb Bool.eqb andb].
  rewrite Hlast.
  destruct (last_n 5 es) as [|e0 last] eqn:El; [now apply last_n_nonempty in El|].
  cbn [step]. rewrite <- !app_assoc. reflexivity.
Qed.

End MainClaims.

Lemma main_only_appends_witness :
  let e := mkExpense (py "2026-11-04") (py "12.5") (py "Food") [] in
  exists es,
    append_expense (ensure_csv_has_header (fun _ => None) (py "expenses.csv"))
      (py "expenses.csv") e
    = append_all (ensure_csv_has_header (fun _ => None) (py "expenses.csv"))
        (py "expenses.csv") es
    /\ (forall p, p <> py "expenses.csv" ->
          append_expense (ensure_csv_has_header (fun _ => None) (py "expenses.csv"))
            (py "expenses.csv") e p = None)
    /\ Forall (fun e => entered (fun _ => PyDatetime.mk 2026 11 4) e
                        /\ (exists y m d, PyDatetime.valid y m d = true
                                          /\ date e = iso_date "-" y m d)
                        /\ category e <> []
                        /\ trimmed e = e) es.
Proof.
  intros e.
  apply (main_only_appends (fun _ => PyDatetime.mk 2026 11 4) (py "expenses.csv")
           [py "1"; py " today"; py "x"; py "12.50"; py "Food "; []; py "1"; py "t"; py "nan"]
           (fun _ => None)
           (mkRun (Crashed (Uncaught InvalidOperation))
              (append_expense (ensure_csv_has_header (fun _ => None) (py "expenses.csv"))
                 (py "expenses.csv") e)
              [StoreLine (py "expenses.csv"); MenuLines; Asked PromptChoice;
               Asked PromptDate; Asked PromptAmount; ErrorLine AmountFormat;
               Asked PromptAmount; Asked PromptCategory; Asked PromptNotes; AddedLine e;
               MenuLines; Asked PromptChoice; Asked PromptDate; Asked PromptAmount])).
  - intros n. reflexivity.
  - reflexivity.
Defined.

Lemma main_session_witness :
  main (fun _ => PyDatetime.mk 2026 11 4) (py "expenses.csv")
    [py "1"; py "2025/12/15"; py "1,200.50"; py " Food "; py "lunch"; py "3"] (fun _ => None)
  = Some (mkRun (Exited 0)
            (append_all (ensure_csv_has_header (fun _ => None) (py "expenses.csv"))
               (py "expenses.csv")
               [mkExpense (py "2025-12-15") (py "1200.5") (py "Food") (py "lunch")])
            ([StoreLine (py "expenses.csv")]
               ++ flat_map added [mkExpense (py "2025-12-15") (py "1200.5") (py "Food") (py "lunch")]
               ++ [MenuLines; Asked PromptChoice; ByeLine])).
Proof.
  apply (main_session (fun _ => PyDatetime.mk 2026 11 4) (py "expenses.csv")
           [(py "2025/12/15", py "1,200.50", py " Food ", py "lunch")]
           [mkExpense (py "2025-12-15") (py "1200.5") (py "Food") (py "lunch")]).
  repeat constructor.
Defined.

Lemma main_lists_latest_witness :
  let e1 := mkExpense (py "2025-12-15") (py "1200.5") (py "Food") (py "lunch") in
  let e2 := mkExpense (py "2026-11-04") (py "3") (py "Bus") [] in
  main (fun _ => PyDatetime.mk 2026 11 4) (py "expenses.csv")
    [py "1"; py "2025/12/15"; py "1,200.50"; py " Food "; py "lunch";
     py "1"; py "today"; py "3"; py "Bus"; [];
     py "2"; py "3"] (fun _ => None)
  = Some (mkRun (Exited 0)
            (append_all (ensure_csv_has_header (fun _ => None) (py "expenses.csv"))
               (py "expenses.csv") [e1; e2])
            ([StoreLine (py "expenses.csv")] ++ flat_map added [e1; e2]
               ++ [MenuLines; Asked PromptChoice; RecentTitle; Text (repeat "-"%char 60)]
               ++ [Text (py "1. 2025-12-15 | 1200.5 | Food | notes: lunch");
                   Text (py "2. 2026-11-04 | 3 | Bus")]
               ++ [Text (repeat "-"%char 60); MenuLines; Asked PromptChoice; ByeLine])).
Proof.
  intros e1 e2.
  apply (main_lists_latest (fun _ => PyDatetime.mk 2026 11 4) (py "expenses.csv")
           [(py "2025/12/15", py "1,200.50", py " Food ", py "lunch");
            (py "today", py "3", py "Bus", [])]
           [e1; e2]).
  - intros n. reflexivity.
  - now left.
  - repeat constructor; intros k; reflexivity.
  - repeat constructor; vm_compute; congruence.
  - discriminate.
Defined.

(** ** The amounts of the entry tool, read by the report tool *)

Section AmountsParse.

Lemma digit_facts (c : ascii) :
  is_digit c = true ->
  isspace c = false /\ PyFloat.isspace c = false
  /\ Ascii.eqb c "_" = false /\ Ascii.eqb c "," = false /\ Ascii.eqb c "." = false
  /\ Ascii.eqb c "-" = false /\ Ascii.eqb c "+" = false.
Proof.
  destruct c as [[] [] [] [] [] [] [] []]; cbn; intros H; try discriminate; repeat split.
Qed.

Lemma span_digits_app (ds rest : str) :
  digits ds ->
  match rest with [] => True | c :: _ => is_digit c = false end ->
  span_digits (ds ++ rest) = (ds, rest).
Proof.
  intros Hd Hr. induction Hd as [|c ds Hc _ IH]; cbn [app span_digits].
  - destruct rest as [|c r]; [reflexivity|]. cbn [span_digits]. now rewrite Hr.
  - now rewrite Hc, IH.
Qed.

Lemma remove_underscores_none (s : str) (prev : option ascii) :
  Forall (fun c => Ascii.eqb c "_" = false) s ->
  match prev with Some p => Ascii.eqb p "_" = false | None => True end ->
  PyFloat.remove_underscores prev s = Some s.
Proof.
  intros Hs. revert prev. induction Hs as [|c s Hc _ IH]; intros prev Hp.
  - cbn. destruct prev as [p|]; [|reflexivity].
    destruct p as [[] [] [] [] [] [] [] []]; first [reflexivity | discriminate].
  - cbn [PyFloat.remove_underscores]. rewrite Hc.
    assert (E : PyFloat.remove_underscores (Some c) s = Some s) by (apply IH; exact Hc).
    destruct prev as [p|]; [|now rewrite E].
    destruct p as [[] [] [] [] [] [] [] []]; first [now rewrite E | discriminate].
Qed.

Lemma numeral_char_facts (c : ascii) :
  numeral_char c ->
  isspace c = false /\ PyFloat.isspace c = false
  /\ Ascii.eqb c "_" = false /\ Ascii.eqb c "," = false.
Proof.
  intros [H | [-> | [-> | [-> | ->]]]]; try (repeat split; reflexivity).
  destruct (digit_facts c H) as (H1 & H2 & H3 & H4 & _). auto.
Qed.

Lemma digits_numeral_chars (s : str) : digits s -> Forall numeral_char s.
Proof. intros H. eapply Forall_impl; [|exact H]. intros c Hc. now left. Qed.

Lemma numeral_chars (s : str) : numeral s -> Forall numeral_char s.
Proof.
  intros (int & frac & expo & -> & _ & Hi & Hf & He).
  apply Forall_app. split; [now apply digits_numeral_chars|].
  apply Forall_app. split.
  - destruct Hf as [-> | (f & -> & Hf)]; [constructor|].
    constructor; [right; now left | now apply digits_numeral_chars].
  - destruct He as [-> | (sg & ds & -> & Hsg & _ & Hd)]; [constructor|].
    constructor; [right; right; now left|].
    constructor; [destruct Hsg as [-> | ->]; unfold numeral_char; auto|].
    now apply digits_numeral_chars.
Qed.

Lemma float_strip_fixed (s : str) :
  Forall (fun c => PyFloat.isspace c = false) s -> PyFloat.strip s = s.
Proof.
  intros H. unfold PyFloat.strip.
  assert (L : forall t, Forall (fun c => PyFloat.isspace c = false) t -> PyFloat.lstrip t = t).
  { intros t Ht. destruct Ht as [|c t Hc _]; [reflexivity|]. cbn. now rewrite Hc. }
  rewrite (L s H), (L (rev s)) by now apply Forall_rev. apply rev_involutive.
Qed.

Lemma replace_none (old : ascii) (new s : str) :
  Forall (fun c => Ascii.eqb c old = false) s -> replace old new s = s.
Proof.
  induction 1 as [|c s Hc _ IH]; [reflexivity|].
  unfold replace in *. cbn [flat_map]. now rewrite Hc, IH.
Qed.

Lemma parse_exponent_numeral (expo : str) :
  expo = []
  \/ (exists sg ds, expo = "E"%char :: sg :: ds
                    /\ (sg = "+"%char \/ sg = "-"%char) /\ ds <> [] /\ digits ds) ->
  exists e, PyDecimal.parse_exponent expo = Some e.
Proof.
  intros [-> | (sg & ds & -> & Hsg & Hne & Hd)]; [now exists 0|].
  unfold PyDecimal.parse_exponent. cbn [Ascii.eqb Bool.eqb orb andb].
  pose proof (span_digits_app ds [] Hd I) as Hsp. rewrite app_nil_r in Hsp.
  destruct ds as [|d ds']; [contradiction|].
  destruct Hsg as [-> | ->]; rewrite Hsp; eauto.
Qed.

(** [float] reads every numeral. *)
Lemma float_reads_numeral (s : str) : numeral s -> exists x, PyFloat.of_str s = Some x.
Proof.
  intros Hn. pose proof (numeral_chars s Hn) as Hch.
  destruct Hn as (int & frac & expo & -> & Hne & Hi & Hf & He).
  unfold PyFloat.of_str.
  rewrite float_strip_fixed.
  2:{ eapply Forall_impl; [|exact Hch]. intros c Hc. now apply numeral_char_facts. }
  rewrite remove_underscores_none; [|
    eapply Forall_impl; [|exact Hch]; intros c Hc; now apply numeral_char_facts | exact I].
  clear Hch.
  destruct int as [|d int']; [contradiction|].
  assert (Hrest : match frac ++ expo with [] => True | c :: _ => is_digit c = false end).
  { destruct Hf as [-> | (f & -> & _)]; [|reflexivity]. cbn [app].
    destruct He as [-> | (sg & ds & -> & _)]; [exact I | reflexivity]. }
  pose proof (span_digits_app (d :: int') (frac ++ expo) Hi Hrest) as Hspan.
  destruct (parse_exponent_numeral expo He) as (e & Hexp).
  assert (Hspan2 : forall f, frac = "."%char :: f -> digits f ->
                             span_digits (f ++ expo) = (f, expo)).
  { intros f _ Hfd. apply span_digits_app; [exact Hfd|].
    destruct He as [-> | (sg & ds & -> & _)]; [exact I | reflexivity]. }
  inversion Hi as [|? ? Hd _]; subst. clear Hi Hne Hrest.
  change ((d :: int') ++ frac ++ expo) with (d :: (int' ++ frac ++ expo)) in *.
  destruct Hf as [-> | (f & -> & Hfd)].
  - destruct He as [-> | (sg & ds & -> & _)];
      destruct d as [[] [] [] [] [] [] [] []]; try discriminate Hd;
      cbv beta iota; rewrite Hspan; cbn [app]; cbv beta iota; rewrite Hexp; eauto.
  - specialize (Hspan2 f eq_refl Hfd).
    destruct d as [[] [] [] [] [] [] [] []]; try discriminate Hd;
      cbv beta iota; rewrite Hspan; cbn [app]; cbv beta iota; rewrite Hspan2;
      cbv beta iota; rewrite Hexp; eauto.
Qed.

Lemma N_to_str_digits (n : N) : digits (N_to_str n) /\ N_to_str n <> [].
Proof.
  unfold N_to_str. generalize (N.to_uint n). intros d.
  assert (H : digits (list_ascii_of_string (NilEmpty.string_of_uint d))).
  { induction d; cbn; try constructor; try reflexivity; assumption. }
  destruct d; cbn [NilZero.string_of_uint]; (split; [first [exact H | repeat constructor]|]);
    cbn; discriminate.
Qed.

Lemma digits_repeat_zero (n : nat) : digits (repeat "0"%char n).
Proof. induction n; cbn; constructor; [reflexivity | assumption]. Qed.

Lemma digits_app (a b : str) : digits a -> digits b -> digits (a ++ b).
Proof. intros Ha Hb. apply Forall_app. now split. Qed.

Lemma digits_firstn (n : nat) (s : str) : digits s -> digits (firstn n s).
Proof. intros H. rewrite <- (firstn_skipn n s) in H. now apply Forall_app in H. Qed.

Lemma digits_skipn (n : nat) (s : str) : digits s -> digits (skipn n s).
Proof. intros H. rewrite <- (firstn_skipn n s) in H. now apply Forall_app in H. Qed.

(** [str(d)] of a positive finite decimal is a numeral. *)
Lemma to_str_numeral (c : N) (e : Z) : numeral (PyDecimal.to_str (PyDecimal.Finite false c e)).
Proof.
  destruct (N_to_str_digits c) as [Hd Hne].
  cbn [PyDecimal.to_str PyDecimal.sign_str app].
  unfold take, drop, repeat_char.
  set (leftdigits := e + len (N_to_str c)).
  set (dotplace := if (e <=? 0) && (-6 <? leftdigits) then leftdigits else 1).
  set (expo := if leftdigits =? dotplace then []
               else "E"%char
                      :: (if 0 <=? leftdigits - dotplace then py "+" else py "-")
                      ++ N_to_str (Z.abs_N (leftdigits - dotplace))).
  assert (Hexpo : expo = []
                  \/ exists sg ds, expo = "E"%char :: sg :: ds
                                   /\ (sg = "+"%char \/ sg = "-"%char) /\ ds <> [] /\ digits ds).
  { unfold expo. destruct (leftdigits =? dotplace); [now left|]. right.
    destruct (N_to_str_digits (Z.abs_N (leftdigits - dotplace))) as [Hd' Hne'].
    destruct (0 <=? leftdigits - dotplace);
      eexists; eexists; (split; [reflexivity|]); auto. }
  destruct (dotplace <=? 0) eqn:E1.
  - exists (py "0"), ("."%char :: repeat "0"%char (Z.to_nat (- dotplace)) ++ N_to_str c), expo.
    split; [reflexivity|]. split; [discriminate|]. split; [repeat constructor|].
    split; [|exact Hexpo]. right. eexists. split; [reflexivity|].
    apply digits_app; [apply digits_repeat_zero | exact Hd].
  - apply Z.leb_gt in E1.
    destruct (len (N_to_str c) <=? dotplace).
    + exists (N_to_str c ++ repeat "0"%char (Z.to_nat (dotplace - len (N_to_str c)))), [], expo.
      split; [first [reflexivity | now rewrite <- app_assoc | now rewrite app_assoc]|].
      split; [destruct (N_to_str c); [contradiction | discriminate]|].
      split; [apply digits_app; [exact Hd | apply digits_repeat_zero]|].
      split; [now left | exact Hexpo].
    + exists (firstn (Z.to_nat dotplace) (N_to_str c)),
             ("."%char :: skipn (Z.to_nat dotplace) (N_to_str c)), expo.
      split; [first [reflexivity | now rewrite <- app_assoc | now rewrite app_assoc]|].
      split.
      { destruct (N_to_str c) as [|d0 ds0]; [contradiction|].
        destruct (Z.to_nat dotplace) eqn:En; [lia | discriminate]. }
      split; [now apply digits_firstn|].
      split; [|exact Hexpo]. right. eexists. split; [reflexivity|]. now apply digits_skipn.
Qed.

(** [format(d, "f")] of a positive finite decimal: digits, then
    possibly a point and digits. *)
Lemma format_f_parts (c : N) (e : Z) :
  exists int frac,
    PyDecimal.format_f (PyDecimal.Finite false c e)
    = int ++ (match frac with [] => [] | _ :: _ => "."%char :: frac end)
    /\ int <> [] /\ digits int /\ digits frac.
Proof.
  destruct (N_to_str_digits c) as [Hd Hne].
  cbn [PyDecimal.format_f PyDecimal.sign_str app].
  unfold take, drop, repeat_char.
  destruct (e + len (N_to_str c) <? 0).
  - exists (py "0"), (repeat "0"%char (Z.to_nat (- (e + len (N_to_str c)))) ++ N_to_str c).
    split; [reflexivity|]. split; [discriminate|]. split; [repeat constructor|].
    apply digits_app; [apply digits_repeat_zero | exact Hd].
  - destruct (len (N_to_str c) <? e + len (N_to_str c)).
    + exists (N_to_str c ++ repeat "0"%char (Z.to_nat (e + len (N_to_str c) - len (N_to_str c)))), [].
      split; [reflexivity|].
      split; [destruct (N_to_str c); [contradiction | discriminate]|].
      split; [apply digits_app; [exact Hd | apply digits_repeat_zero] | constructor].
    + exists (match firstn (Z.to_nat (e + len (N_to_str c))) (N_to_str c) with
              | [] => py "0"
              | i => i
              end),
             (skipn (Z.to_nat (e + len (N_to_str c))) (N_to_str c)).
      split; [reflexivity|].
      pose proof (digits_firstn (Z.to_nat (e + len (N_to_str c))) _ Hd) as Hf.
      destruct (firstn _ (N_to_str c)) as [|x xs].
      * split; [discriminate|]. split; [repeat constructor | now apply digits_skipn].
      * split; [discriminate|]. split; [exact Hf | now apply digits_skipn].
Qed.

Lemma lstrip_chars_app (chars a b : str) :
  lstrip_chars chars (a ++ b)
  = match lstrip_chars chars a with
    | [] => lstrip_chars chars b
    | r => r ++ b
    end.
Proof.
  induction a as [|c a IH]; cbn [app lstrip_chars]; [reflexivity|].
  destruct (char_in c chars); [exact IH | reflexivity].
Qed.

Lemma lstrip_chars_digits (chars s : str) : digits s -> digits (lstrip_chars chars s).
Proof.
  induction 1 as [|c t Hc Ht IH]; cbn [lstrip_chars]; [constructor|].
  destruct (char_in c chars); [exact IH | now constructor].
Qed.

Lemma lstrip_point_digits (s : str) : digits s -> lstrip_chars (py ".") s = s.
Proof.
  intros H. destruct H as [|c t Hc _]; [reflexivity|].
  cbn [lstrip_chars char_in py list_ascii_of_string existsb].
  destruct (digit_facts c Hc) as (_ & _ & _ & _ & Hp & _). now rewrite Hp.
Qed.

(** Stripping the zeros and then the points from the end of digits, a
    point and digits leaves a numeral. *)
Lemma rstrip_numeral (int frac : str) :
  int <> [] -> digits int -> digits frac ->
  numeral (rstrip_chars (py ".") (rstrip_chars (py "0") (int ++ "."%char :: frac))).
Proof.
  intros Hne Hi Hf. unfold rstrip_chars.
  rewrite rev_app_distr. cbn [rev]. rewrite <- app_assoc. cbn [app].
  rewrite lstrip_chars_app.
  pose proof (lstrip_chars_digits (py "0") (rev frac) (Forall_rev Hf)) as Hr.
  destruct (lstrip_chars (py "0") (rev frac)) as [|x r'].
  - change (lstrip_chars (py "0") ("."%char :: rev int)) with ("."%char :: rev int).
    rewrite rev_involutive.
    change (lstrip_chars (py ".") ("."%char :: rev int)) with (lstrip_chars (py ".") (rev int)).
    rewrite lstrip_point_digits by now apply Forall_rev. rewrite rev_involutive.
    exists int, [], []. rewrite !app_nil_r. repeat split; auto.
  - rewrite rev_involutive, lstrip_chars_app, (lstrip_point_digits (x :: r') Hr).
    cbv beta iota. rewrite rev_app_distr. cbn [rev]. rewrite rev_involutive, <- !app_assoc.
    cbn [app].
    exists int, ("."%char :: rev r' ++ [x]), [].
    rewrite app_nil_r. split; [reflexivity|]. split; [exact Hne|]. split; [exact Hi|].
    split; [|now left]. right. eexists. split; [reflexivity|].
    change (rev r' ++ [x]) with (rev (x :: r')). now apply Forall_rev.
Qed.

Lemma fix_sign (sign : bool) (c : N) (e : Z) (d : PyDecimal.t) :
  PyDecimal.fix_ (PyDecimal.Finite sign c e) = Ok d ->
  exists c' e', d = PyDecimal.Finite sign c' e'.
Proof.
  unfold PyDecimal.fix_. destruct c as [|p]; [intros [= <-]; eauto|].
  repeat match goal with
         | |- context [if ?b then _ else _] => destruct b
         | |- context [let '(_, _) := ?x in _] => destruct x
         end; intros [= <-]; eauto.
Qed.

Lemma normalize_sign (sign : bool) (c : N) (e : Z) (d : PyDecimal.t) :
  PyDecimal.normalize (PyDecimal.Finite sign c e) = Ok d ->
  exists c' e', d = PyDecimal.Finite sign c' e'.
Proof.
  unfold PyDecimal.normalize.
  destruct (PyDecimal.fix_ _) as [dup|] eqn:E; [|discriminate]. cbn [bind].
  apply fix_sign in E as (c1 & e1 & ->).
  destruct c1 as [|p]; [intros [= <-]; eauto|].
  destruct (PyDecimal.strip_zeros _ _ _). intros [= <-]. eauto.
Qed.

(** What [normalize_amount] returns is a numeral, or the word
    "Infinity". *)
Lemma normalize_amount_numeral (s out : str) :
  normalize_amount s = Ok out -> numeral out \/ out = py "Infinity".
Proof.
  unfold normalize_amount. destruct (strip s); [discriminate|].
  destruct (PyDecimal.of_str _) as [d|]; [|discriminate].
  destruct d as [sign c e | sign | sign sg pl]; cbn [PyDecimal.le_zero bind].
  - destruct sign; [discriminate|]. cbn [orb].
    destruct (c =? 0)%N; [discriminate|].
    destruct (PyDecimal.normalize _) as [n|] eqn:En; [|discriminate]. cbn [bind].
    destruct (normalize_sign _ _ _ _ En) as (c' & e' & Hn).
    destruct (format_f_parts c' e') as (int & frac & Ef & Hne & Hi & Hf).
    rewrite <- Hn in Ef. rewrite Ef. clear En Hn Ef.
    destruct (char_in _ _) eqn:Ep; intros [= <-]; [|left; apply to_str_numeral].
    left. destruct frac as [|x frac'].
    + exfalso. rewrite app_nil_r in Ep. clear - Ep Hi.
      induction Hi as [|d ds Hd _ IH]; [discriminate|].
      cbn [char_in existsb] in Ep. destruct (digit_facts d Hd) as (_ & _ & _ & _ & Hp & _).
      rewrite Ascii.eqb_sym in Hp. rewrite Hp in Ep. now apply IH.
    + now apply rstrip_numeral.
  - destruct sign; [discriminate|]. intros [= <-]. now right.
  - discriminate.
Qed.

(** A numeral is stripped, without a comma, and not empty. *)
Lemma numeral_plain (s : str) :
  numeral s -> strip s = s /\ replace "," [] s = s /\ s <> [].
Proof.
  intros Hn. pose proof (numeral_chars s Hn) as Hch. split; [|split].
  - apply no_space_strip. eapply Forall_impl; [|exact Hch].
    intros c Hc. now apply numeral_char_facts.
  - apply replace_none. eapply Forall_impl; [|exact Hch].
    intros c Hc. now apply numeral_char_facts.
  - destruct Hn as (int & frac & expo & -> & Hne & _). destruct int; [contradiction | discriminate].
Qed.

Lemma parse_amount_of_normalized (s out : str) :
  normalize_amount s = Ok out -> exists x, parse_amount (Some out) = Ok x.
Proof.
  intros H. apply normalize_amount_numeral in H as [Hn | ->].
  - destruct (numeral_plain out Hn) as (Hs & Hr & Hne).
    destruct (float_reads_numeral out Hn) as (x & Hx).
    exists x. unfold parse_amount. cbn [PyCsv.or_empty]. rewrite Hs, Hr.
    destruct out; [contradiction|]. now rewrite Hx.
  - eexists. vm_compute. reflexivity.
Qed.

End AmountsParse.

(** ** The report tool on the store of the entry tool *)

Section ReportOnStore.

Lemma reader_of_store_text (es : list Expense) :
  Forall readable es ->
  PyCsv.reader_of (store_text es) = PyCsv.Row CSV_HEADERS (store_rows es).
Proof.
  intros Hall. unfold store_text, store_rows.
  rewrite reader_of_read_rows.
  rewrite (read_written_row (py "date") (py "amount") [py "category"; py "notes"]).
  2:{ repeat constructor; unfold len, PyCsv.field_limit; simpl; lia. }
  change [py "date"; py "amount"; py "category"; py "notes"] with CSV_HEADERS.
  replace (flat_map (fun x => PyCsv.writerow (cells_of x)) es)
    with (flat_map PyCsv.writerow (map cells_of es))
    by (rewrite flat_map_concat_map, map_map, <- flat_map_concat_map; reflexivity).
  rewrite read_store_rows; [reflexivity|].
  apply Forall_map. eapply Forall_impl; [|exact Hall].
  intros x Hx. split; [simpl; lia | exact Hx].
Qed.

Lemma store_row_category (e : Expense) :
  row_category CSV_HEADERS (py "category") (cells_of e) = strip (category e).
Proof. destruct e as [d a c n]. reflexivity. Qed.

Lemma store_row_amount (e : Expense) :
  row_amount CSV_HEADERS (py "amount") (cells_of e) = Some (amount e).
Proof. destruct e as [d a c n]. reflexivity. Qed.

Variable clock : nat -> PyDatetime.t.

Lemma entered_category (e : Expense) :
  entered clock e -> strip (category e) = category e /\ category e <> [].
Proof.
  intros (_ & _ & (s & Hc) & _). unfold normalize_category in Hc.
  destruct (strip s) as [|c t0] eqn:E; [discriminate|]. injection Hc as <-.
  split; [|discriminate]. rewrite <- E. apply strip_idempotent.
Qed.

Lemma entered_amount (e : Expense) :
  entered clock e -> exists x, parse_amount (Some (amount e)) = Ok x.
Proof. intros (_ & (s & Ha) & _). eapply parse_amount_of_normalized; eassumption. Qed.

(** The loop of [read_csv_totals] does not fail on the rows of entered
    records. *)
Lemma sum_rows_store (es : list Expense) (t0 : dict float) :
  Forall (entered clock) es ->
  exists t, sum_rows CSV_HEADERS (py "category") (py "amount") (store_rows es) t0 = Ok t.
Proof.
  intros H. revert t0. induction H as [|e es He _ IH]; intros t0; [now exists t0|].
  unfold store_rows. cbn [map fold_right]. fold (store_rows es).
  destruct (entered_category e He) as [Hs Hne].
  destruct (entered_amount e He) as (x & Hx).
  assert (Hstep : sum_rows CSV_HEADERS (py "category") (py "amount")
                    (PyCsv.Row (cells_of e) (store_rows es)) t0
                  = sum_rows CSV_HEADERS (py "category") (py "amount") (store_rows es)
                      (dict_set (category e)
                         (dict_get_default (category e) 0 t0 + x)%float t0)).
  { destruct e as [d a c n]. cbn [category amount] in *.
    unfold cells_of. cbn [date amount category notes]. cbn [sum_rows].
    change (strip (PyCsv.or_empty (PyCsv.row_get (py "category")
              (PyCsv.zip_row CSV_HEADERS [d; a; c; n])))) with (strip c).
    change (PyCsv.row_get (py "amount") (PyCsv.zip_row CSV_HEADERS [d; a; c; n]))
      with (Some a).
    rewrite Hs, Hx. destruct c; [contradiction | reflexivity]. }
  rewrite Hstep. apply IH.
Qed.

Lemma store_has_category (cat : str) (es : list Expense) :
  Forall (entered clock) es ->
  has_category CSV_HEADERS (py "category") cat (delivered (store_rows es))
  = existsb (fun e => str_eqb (category e) cat) es.
Proof.
  induction 1 as [|e es He _ IH]; [reflexivity|].
  unfold store_rows. cbn [map fold_right delivered has_category existsb].
  fold (store_rows es). fold (has_category CSV_HEADERS (py "category") cat
                                (delivered (store_rows es))).
  rewrite store_row_category, (proj1 (entered_category e He)). now rewrite IH.
Qed.

Lemma store_amounts (cat : str) (es : list Expense) :
  Forall (entered clock) es ->
  amounts_of CSV_HEADERS (py "category") (py "amount") cat (delivered (store_rows es))
  = amounts_in cat es.
Proof.
  induction 1 as [|e es He _ IH]; [reflexivity|].
  unfold store_rows. cbn [map fold_right delivered amounts_of]. fold (store_rows es).
  unfold amounts_in. cbn [flat_map]. fold (amounts_in cat es).
  rewrite store_row_category, store_row_amount, (proj1 (entered_category e He)), IH.
  destruct (str_eqb (category e) cat); [|reflexivity].
  now destruct (parse_amount (Some (amount e))).
Qed.

End ReportOnStore.
